(** * boardApp_frontend: the board reducer and the canvas session, verified

    A shallow embedding of the whiteboard client's state transitions
    (`boardReducer` of the board store, and the socket/pointer side of the
    `Board` component) over a small model of the JavaScript heap: arrays and
    plain objects live at locations, values refer to them by reference, so
    that sharing between the live element collection and the snapshots of
    the undo history is visible. *)

From Stdlib Require Import ZArith Lia.
From stdpp Require Import base option list gmap strings pretty.

Set Default Proof Using "Type".

(** ** JavaScript values and the heap *)

Abbreviation loc := nat (only parsing).

Inductive val :=
  | VUndef
  | VNull
  | VBool (b : bool)
  | VNum (n : Z)
  | VStr (s : string)
  | VRef (l : loc).

#[global] Instance val_eq_dec : EqDecision val.
Proof. solve_decision. Defined.

#[global] Instance val_inhabited : Inhabited val := populate VUndef.

(** A heap cell is an array or a plain object (own properties by name). *)
Inductive obj :=
  | OArr (xs : list val)
  | OObj (props : gmap string val).

#[global] Instance obj_eq_dec : EqDecision obj.
Proof. solve_decision. Defined.

(** The heap is a list of cells; a location is an index in it and a fresh
    cell is appended. *)
Abbreviation heap := (list obj) (only parsing).

Definition alloc (h : heap) (o : obj) : heap * val := (h ++ [o], VRef (length h)).

(** Outcomes of a transition: a value, a thrown error, or [Unsupported] for
    the arithmetic coercions of non-numbers, which are not modelled. *)
Inductive error :=
  | TypeError
  | Error (msg : string).

Inductive result (A : Type) :=
  | Ok (a : A)
  | Throw (e : error)
  | Unsupported.
Arguments Ok {A} a.
Arguments Throw {A} e.
Arguments Unsupported {A}.

#[global] Instance result_ret : MRet result := λ A a, Ok a.
#[global] Instance result_bind : MBind result := λ A B f m,
  match m with
  | Ok a => f a
  | Throw e => Throw e
  | Unsupported => Unsupported
  end.

Definition is_ok {A} (r : result A) : bool :=
  match r with Ok _ => true | _ => false end.

Definition throws {A} (r : result A) : bool :=
  match r with Throw _ => true | _ => false end.

(** Truthiness ([!v], [a && b], [a || b]). *)
Definition truthy (v : val) : bool :=
  match v with
  | VUndef | VNull => false
  | VBool b => b
  | VNum n => negb (n =? 0)%Z
  | VStr s => negb (String.eqb s "")
  | VRef _ => true
  end.

(** Strict equality [===]. *)
Definition strict_eq (a b : val) : bool := bool_decide (a = b).

(** [Array.isArray]. *)
Definition isArray (h : heap) (v : val) : bool :=
  match v with
  | VRef l => match h !! l with Some (OArr _) => true | _ => false end
  | _ => false
  end.

(** The index-named own properties of an array or a string. *)
Definition indexed_props (xs : list val) : gmap string val :=
  list_to_map (imap (λ i x, (pretty i, x)) xs).

Fixpoint chars (s : string) : list val :=
  match s with
  | EmptyString => []
  | String c s' => VStr (String c EmptyString) :: chars s'
  end.

(** The own enumerable properties copied by an object spread [{...v}];
    a location outside the heap reads as an empty object. *)
Definition own_props (h : heap) (v : val) : gmap string val :=
  match v with
  | VRef l =>
      match h !! l with
      | Some (OObj m) => m
      | Some (OArr xs) => indexed_props xs
      | None => ∅
      end
  | VStr s => indexed_props (chars s)
  | _ => ∅
  end.

(** Property read [v.k]. *)
Definition get_prop (h : heap) (v : val) (k : string) : result val :=
  match v with
  | VUndef | VNull => Throw TypeError
  | VRef l =>
      match h !! l with
      | Some (OArr xs) =>
          if String.eqb k "length" then Ok (VNum (Z.of_nat (length xs)))
          else Ok (default VUndef (indexed_props xs !! k))
      | _ => Ok (default VUndef (own_props h v !! k))
      end
  | VStr s =>
      if String.eqb k "length" then Ok (VNum (Z.of_nat (String.length s)))
      else Ok (default VUndef (own_props h v !! k))
  | _ => Ok VUndef
  end.

(** Indexed read [v[i]] of a truthy [v]; [None] is the index [NaN]. *)
Definition get_index (h : heap) (v : val) (i : option Z) : val :=
  match i with
  | None => VUndef
  | Some i =>
      match v with
      | VRef l =>
          match h !! l with
          | Some (OArr xs) =>
              if (i <? 0)%Z then VUndef else default VUndef (xs !! Z.to_nat i)
          | _ => default VUndef (own_props h v !! pretty i)
          end
      | VStr s =>
          if (i <? 0)%Z then VUndef else default VUndef (chars s !! Z.to_nat i)
      | _ => VUndef
      end
  end.

(** Iteration by an array spread [[...v]]. *)
Definition iterate (h : heap) (v : val) : result (list val) :=
  match v with
  | VRef l =>
      match h !! l with
      | Some (OArr xs) => Ok xs
      | _ => Throw TypeError
      end
  | VStr s => Ok (chars s)
  | _ => Throw TypeError
  end.

(** The receiver of an array method ([filter], [map], [slice] followed by
    [push]): anything but an array has no such method. *)
Definition as_array (h : heap) (v : val) : result (list val) :=
  match v with
  | VRef l =>
      match h !! l with
      | Some (OArr xs) => Ok xs
      | _ => Throw TypeError
      end
  | _ => Throw TypeError
  end.

(** Property write [v.k = x] on a plain object (module code is strict:
    writing to a primitive throws). Named properties of arrays are outside
    the model. *)
Definition set_prop (h : heap) (v : val) (k : string) (x : val) : result heap :=
  match v with
  | VRef l =>
      match h !! l with
      | Some (OObj m) => Ok (<[l := OObj (<[k := x]> m)]> h)
      | Some (OArr _) => Unsupported
      | None => Throw TypeError
      end
  | _ => Throw TypeError
  end.

(** [v - 1] where [v] is a number or [undefined] (giving [NaN], [None]). *)
Definition minus_one (v : val) : result (option Z) :=
  match v with
  | VNum n => Ok (Some (n - 1)%Z)
  | VUndef => Ok None
  | _ => Unsupported
  end.

(** [xs.slice(0, e)]. *)
Definition slice0 {A} (xs : list A) (e : Z) : list A :=
  if (e <? 0)%Z then take (Z.to_nat (Z.of_nat (length xs) + e)) xs
  else take (Z.to_nat e) xs.

(** Heap-threading map: [xs.map(f)] where [f] may allocate or throw. *)
Fixpoint map_heap (f : heap → val → result (heap * val)) (h : heap) (xs : list val)
  : result (heap * list val) :=
  match xs with
  | [] => Ok (h, [])
  | x :: xs' =>
      '(h1, y) ← f h x;
      '(h2, ys) ← map_heap f h1 xs';
      Ok (h2, y :: ys)
  end.

(** [JSON.parse(JSON.stringify(v))]: a structural clone that throws on a
    circular structure. A reference chain longer than the heap revisits a
    cell, so the heap's size bounds the depth of an acyclic value; the
    round trip starts with one more than that. *)
Fixpoint json_clone (fuel : nat) (h : heap) (v : val) : result (heap * val) :=
  match v with
  | VRef l =>
      match fuel with
      | 0 => Throw TypeError
      | S n =>
          match h !! l with
          | Some (OArr xs) =>
              '(h1, ys) ← map_heap
                 (λ h' x, json_clone n h' (match x with VUndef => VNull | _ => x end)) h xs;
              Ok (alloc h1 (OArr ys))
          | Some (OObj m) =>
              let kvs := List.filter (λ kv, negb (strict_eq kv.2 VUndef)) (map_to_list m) in
              '(h1, ys) ← map_heap (json_clone n) h (kvs.*2);
              Ok (alloc h1 (OObj (list_to_map (zip (kvs.*1) ys))))
          | None => Ok (alloc h (OObj ∅))
          end
      end
  | _ => Ok (h, v)
  end.

Definition json_roundtrip (h : heap) (v : val) : result (heap * val) :=
  match v with
  | VUndef => Throw (Error "SyntaxError")
  | _ => json_clone (S (length h)) h v
  end.

(** ** Constants *)

(** Modelled from the spec: the constants module (TOOL_ITEMS,
    TOOL_ACTION_TYPES, BOARD_ACTIONS) is imported by the store but is not
    among the sources; the tool identifiers are the seven tool names of the
    specification, the recognized element types being all but the eraser. *)
Module TOOL_ITEMS.
Definition BRUSH : val := VStr "brush".
Definition LINE : val := VStr "line".
Definition RECTANGLE : val := VStr "rectangle".
Definition CIRCLE : val := VStr "circle".
Definition ARROW : val := VStr "arrow".
Definition ERASER : val := VStr "eraser".
Definition TEXT : val := VStr "text".
End TOOL_ITEMS.

Module TOOL_ACTION_TYPES.
Inductive t := NONE | DRAWING | ERASING | WRITING.
#[global] Instance eq_dec : EqDecision t.
Proof. solve_decision. Defined.
End TOOL_ACTION_TYPES.

(** The closed set of element types of the data model. *)
Definition recognized_type (t : val) : bool :=
  strict_eq t TOOL_ITEMS.LINE || strict_eq t TOOL_ITEMS.RECTANGLE
  || strict_eq t TOOL_ITEMS.CIRCLE || strict_eq t TOOL_ITEMS.ARROW
  || strict_eq t TOOL_ITEMS.BRUSH || strict_eq t TOOL_ITEMS.TEXT.

Definition shape_type (t : val) : bool :=
  strict_eq t TOOL_ITEMS.LINE || strict_eq t TOOL_ITEMS.RECTANGLE
  || strict_eq t TOOL_ITEMS.CIRCLE || strict_eq t TOOL_ITEMS.ARROW.

(** ** Elements *)

(** The test of the "valid elements" filter, [el => el && el.type]. *)
Definition valid_element (h : heap) (el : val) : bool :=
  if truthy el then
    match get_prop h el "type" with
    | Ok t => truthy t
    | _ => false
    end
  else false.

Definition validElements (h : heap) (xs : list val) : list val :=
  List.filter (valid_element h) xs.

(** Modelled from the spec: createElement of utils/element is not among the
    sources. It constructs an element from the identity index, the type and
    the style; a shape keeps the bounding coordinates as given, a freehand
    stroke starts with an empty point sequence. *)
Definition createElement (h : heap) (id x1 y1 x2 y2 type stroke fill size : val)
  : heap * val :=
  let base : gmap string val :=
    <["id" := id]> (<["type" := type]> (<["stroke" := stroke]>
      (<["fill" := fill]> (<["size" := size]> ∅)))) in
  if strict_eq type TOOL_ITEMS.BRUSH then
    let '(h1, pts) := alloc h (OArr []) in
    alloc h1 (OObj (<["points" := pts]> base))
  else
    alloc h (OObj (<["x1" := x1]> (<["y1" := y1]> (<["x2" := x2]> (<["y2" := y2]> base))))).

(** The deep copy of [DRAW_UP], [UNDO] and [REDO]:
    [p => ({ ...p })] and
    [el => { const copy = { ...el }; if (el.points && Array.isArray(el.points))
             copy.points = el.points.map(...); return copy; }]. *)
Definition copy_point (h : heap) (p : val) : result (heap * val) :=
  Ok (alloc h (OObj (own_props h p))).

Definition copy_element (h : heap) (el : val) : result (heap * val) :=
  let '(h1, copy) := alloc h (OObj (own_props h el)) in
  pts ← get_prop h1 el "points";
  if truthy pts && isArray h1 pts then
    ps ← as_array h1 pts;
    '(h2, qs) ← map_heap copy_point h1 ps;
    let '(h3, arr) := alloc h2 (OArr qs) in
    h4 ← set_prop h3 copy "points" arr;
    Ok (h4, copy)
  else Ok (h1, copy).

(** ** The board store *)

Record BoardState := mkBoardState {
  activeToolItem : val;
  toolActionType : TOOL_ACTION_TYPES.t;
  elements : val;
  history : val;
  index : Z;
  canvasId : val;
  isUserLoggedIn : bool;
}.

#[global] Instance BoardState_eq_dec : EqDecision BoardState.
Proof. solve_decision. Defined.

Definition with_tool (s : BoardState) (t : val) : BoardState :=
  mkBoardState t (toolActionType s) (elements s) (history s) (index s)
    (canvasId s) (isUserLoggedIn s).
Definition with_action_type (s : BoardState) (a : TOOL_ACTION_TYPES.t) : BoardState :=
  mkBoardState (activeToolItem s) a (elements s) (history s) (index s)
    (canvasId s) (isUserLoggedIn s).
Definition with_elements (s : BoardState) (e : val) : BoardState :=
  mkBoardState (activeToolItem s) (toolActionType s) e (history s) (index s)
    (canvasId s) (isUserLoggedIn s).
Definition with_history (s : BoardState) (hi : val) (i : Z) : BoardState :=
  mkBoardState (activeToolItem s) (toolActionType s) (elements s) hi i
    (canvasId s) (isUserLoggedIn s).
Definition with_index (s : BoardState) (i : Z) : BoardState :=
  with_history s (history s) i.
Definition with_canvasId (s : BoardState) (c : val) : BoardState :=
  mkBoardState (activeToolItem s) (toolActionType s) (elements s) (history s) (index s)
    c (isUserLoggedIn s).
Definition with_login (s : BoardState) (b : bool) : BoardState :=
  mkBoardState (activeToolItem s) (toolActionType s) (elements s) (history s) (index s)
    (canvasId s) b.

(** BOARD_ACTIONS with their payloads; [OTHER] is any action type the
    reducer does not know. *)
Inductive action :=
  | CHANGE_TOOL (tool : val)
  | CHANGE_ACTION_TYPE (actionType : TOOL_ACTION_TYPES.t)
  | DRAW_DOWN (clientX clientY : Z) (stroke fill size : val)
  | DRAW_MOVE (clientX clientY : Z)
  | DRAW_UP
  | ERASE (clientX clientY : Z)
  | CHANGE_TEXT (text : string)
  | UNDO
  | REDO
  | SET_INITIAL_ELEMENTS (els : val)
  | SET_CANVAS_ID (id : val)
  | SET_CANVAS_ELEMENTS (els : val)
  | SET_HISTORY (els : val)
  | SET_USER_LOGIN_STATUS (b : bool)
  | OTHER.

(** [state.history || []] as the receiver of [slice]. *)
Definition currentHistory (h : heap) (s : BoardState) : result (list val) :=
  if truthy (history s) then as_array h (history s) else Ok [].

(** [currentHistory.slice(0, state.index + 1)] followed by [push(snapshot)]:
    the new history array. *)
Definition push_history (h : heap) (s : BoardState) (snapshot : val)
  : result (heap * val) :=
  hs ← currentHistory h s;
  Ok (alloc h (OArr (slice0 hs (index s + 1) ++ [snapshot]))).

(** [newElements[index] = x] on an array, inside its bounds. *)
Definition set_index (h : heap) (v : val) (i : option Z) (x : val) : result heap :=
  match v, i with
  | VRef l, Some i =>
      match h !! l with
      | Some (OArr xs) =>
          if (0 <=? i)%Z && (i <? Z.of_nat (length xs))%Z
          then Ok (<[l := OArr (<[Z.to_nat i := x]> xs)]> h)
          else Unsupported
      | _ => Unsupported
      end
  | _, _ => Unsupported
  end.

Definition num_val (i : option Z) : result val :=
  match i with
  | Some i => Ok (VNum i)
  | None => Unsupported
  end.

(** [x >= y] and [x < 0] against a possibly-[NaN] number. *)
Definition geb_nan (x : Z) (y : option Z) : bool :=
  match y with Some y => (y <=? x)%Z | None => false end.
Definition ltb0_nan (y : option Z) : bool :=
  match y with Some y => (y <? 0)%Z | None => false end.

Section Reducer.

(** isPointNearElement of utils/element is not among the sources: the
    side-effect-free proximity test is a parameter of the reducer. *)
Variable isPointNearElement : heap → val → Z → Z → bool.

(** The filter of [ERASE]. *)
Definition erase_keeps (h : heap) (clientX clientY : Z) (element : val) : bool :=
  if negb (valid_element h element) then false
  else negb (isPointNearElement h element clientX clientY).

(** The common path of [UNDO] and [REDO]: filter, deep copy, move the
    cursor. *)
Definition restore (h : heap) (s : BoardState) (snapshot : val) (i : Z)
  : result (heap * BoardState) :=
  xs ← as_array h snapshot;
  '(h1, copies) ← map_heap copy_element h (validElements h xs);
  let '(h2, elementsCopy) := alloc h1 (OArr copies) in
  Ok (h2, with_index (with_elements s elementsCopy) i).

Definition boardReducer (h : heap) (state : BoardState) (a : action)
  : result (heap * BoardState) :=
  match a with
  | CHANGE_TOOL tool => Ok (h, with_tool state tool)
  | CHANGE_ACTION_TYPE actionType => Ok (h, with_action_type state actionType)
  | DRAW_DOWN clientX clientY stroke fill size =>
      len ← get_prop h (elements state) "length";
      let '(h1, newElement) :=
        createElement h len (VNum clientX) (VNum clientY) (VNum clientX) (VNum clientY)
          (activeToolItem state) stroke fill size in
      prevElements ← iterate h1 (elements state);
      let '(h2, arr) := alloc h1 (OArr (prevElements ++ [newElement])) in
      Ok (h2, with_elements
                (with_action_type state
                   (if strict_eq (activeToolItem state) TOOL_ITEMS.TEXT
                    then TOOL_ACTION_TYPES.WRITING else TOOL_ACTION_TYPES.DRAWING))
                arr)
  | DRAW_MOVE clientX clientY =>
      xs ← iterate h (elements state);
      let '(h1, newElements) := alloc h (OArr xs) in
      len ← get_prop h1 (elements state) "length";
      index ← minus_one len;
      let last := get_index h1 newElements index in
      type ← get_prop h1 last "type";
      if shape_type type then
        x1 ← get_prop h1 last "x1";
        y1 ← get_prop h1 last "y1";
        stroke ← get_prop h1 last "stroke";
        fill ← get_prop h1 last "fill";
        size ← get_prop h1 last "size";
        id ← num_val index;
        let '(h2, newElement) :=
          createElement h1 id x1 y1 (VNum clientX) (VNum clientY)
            (activeToolItem state) stroke fill size in
        h3 ← set_index h2 newElements index newElement;
        Ok (h3, with_elements state newElements)
      else if strict_eq type TOOL_ITEMS.BRUSH then
        points ← get_prop h1 last "points";
        ps ← iterate h1 points;
        let '(h2, p) :=
          alloc h1 (OObj (<["x" := VNum clientX]> (<["y" := VNum clientY]> ∅))) in
        let '(h3, arr) := alloc h2 (OArr (ps ++ [p])) in
        h4 ← set_prop h3 last "points" arr;
        Ok (h4, with_elements state newElements)
      else Throw (Error "Type not recognized")
  | DRAW_UP =>
      xs ← as_array h (elements state);
      '(h1, copies) ← map_heap copy_element h (validElements h xs);
      let '(h2, elementsCopy) := alloc h1 (OArr copies) in
      '(h3, newHistory) ← push_history h2 state elementsCopy;
      Ok (h3, with_history state newHistory (index state + 1))
  | ERASE clientX clientY =>
      xs ← as_array h (elements state);
      let '(h1, newElements) :=
        alloc h (OArr (List.filter (erase_keeps h clientX clientY) xs)) in
      '(h2, newHistory) ← push_history h1 state newElements;
      Ok (h2, with_history (with_elements state newElements) newHistory (index state + 1))
  | CHANGE_TEXT text =>
      len ← get_prop h (elements state) "length";
      elementIndex ← minus_one len;
      if ltb0_nan elementIndex then Ok (h, state)
      else
        let element := get_index h (elements state) elementIndex in
        if negb (truthy element) then Ok (h, state)
        else
          type ← get_prop h element "type";
          if negb (strict_eq type TOOL_ITEMS.TEXT) then Ok (h, state)
          else
            xs ← iterate h (elements state);
            let '(h1, newElements) := alloc h (OArr xs) in
            let '(h2, changed) :=
              alloc h1 (OObj (<["text" := VStr text]> (own_props h1 element))) in
            h3 ← set_index h2 newElements elementIndex changed;
            '(h4, newHistory) ← push_history h3 state newElements;
            Ok (h4, with_action_type
                      (with_history (with_elements state newElements) newHistory
                         (index state + 1))
                      TOOL_ACTION_TYPES.NONE)
  | UNDO =>
      if negb (truthy (history state)) then Ok (h, state)
      else
        len ← get_prop h (history state) "length";
        if strict_eq len (VNum 0) then Ok (h, state)
        else if (index state <=? 0)%Z then Ok (h, state)
        else
          let previousIndex := (index state - 1)%Z in
          let previousElements := get_index h (history state) (Some previousIndex) in
          if negb (truthy previousElements) || negb (isArray h previousElements) then
            let first := get_index h (history state) (Some 0%Z) in
            if truthy first && isArray h first
            then Ok (h, with_index (with_elements state first) 0)
            else Ok (h, state)
          else restore h state previousElements previousIndex
  | REDO =>
      if negb (truthy (history state)) then Ok (h, state)
      else
        len ← get_prop h (history state) "length";
        if strict_eq len (VNum 0) then Ok (h, state)
        else
          lastIndex ← minus_one len;
          if geb_nan (index state) lastIndex then Ok (h, state)
          else
            let nextIndex := (index state + 1)%Z in
            let nextElements := get_index h (history state) (Some nextIndex) in
            if negb (truthy nextElements) || negb (isArray h nextElements) then
              let last := get_index h (history state) lastIndex in
              if truthy last && isArray h last then
                '(h1, elementsCopy) ← json_roundtrip h last;
                li ← match lastIndex with Some i => Ok i | None => Unsupported end;
                Ok (h1, with_index (with_elements state elementsCopy) li)
              else Ok (h, state)
            else restore h state nextElements nextIndex
  | SET_INITIAL_ELEMENTS els =>
      if truthy els then
        let '(h1, hi) := alloc h (OArr [els]) in
        Ok (h1, with_history (with_elements state els) hi 0)
      else
        let '(h1, initialElements) := alloc h (OArr []) in
        let '(h2, hi) := alloc h1 (OArr [initialElements]) in
        Ok (h2, with_history (with_elements state initialElements) hi 0)
  | SET_CANVAS_ID id => Ok (h, with_canvasId state id)
  | SET_CANVAS_ELEMENTS els => Ok (h, with_elements state els)
  | SET_HISTORY els =>
      if truthy els then
        let '(h1, hi) := alloc h (OArr [els]) in
        Ok (h1, with_history state hi 0)
      else
        let '(h1, elements) := alloc h (OArr []) in
        let '(h2, hi) := alloc h1 (OArr [elements]) in
        Ok (h2, with_history state hi 0)
  | SET_USER_LOGIN_STATUS b => Ok (h, with_login state b)
  | OTHER => Ok (h, state)
  end.

End Reducer.

(** ** The canvas component *)

(** What the [Board] component does to the outside: socket traffic, timers,
    notices, and the actions it dispatches to the store. *)
Inductive timer_callback :=
  | JoinCanvas (canvasId : val)
  | RetryJoinCanvas (canvasId : val).

Inductive effect :=
  | SocketEmit (event : string) (canvasId : val) (payload : option val)
  | SocketOn (event : string)
  | SocketOff (event : string)
  | SetTimeout (callback : timer_callback) (ms : Z)
  | Alert (msg : string)
  | ConsoleLog (msg : string)
  | HttpGet (canvasId : val)
  | Dispatch (a : action).

(** The context functions of the provider. *)
Definition setElements (v : val) : effect := Dispatch (SET_CANVAS_ELEMENTS v).
Definition setHistory (v : val) : effect := Dispatch (SET_HISTORY v).
Definition setCanvasId (v : val) : effect := Dispatch (SET_CANVAS_ID v).

(** A pointer event, and the canvas element's bounding rectangle when the
    element is in the document. *)
Record MouseEvent := { clientX : Z; clientY : Z }.
Record Rect := { left : Z; top : Z }.

(** toolboxState[tool]?.stroke, .fill, .size *)
Record ToolStyle := { stroke : val; fill : val; size : val }.
Definition noStyle : ToolStyle := {| stroke := VUndef; fill := VUndef; size := VUndef |}.

Section Provider.

Variable toolboxState : val → option ToolStyle.

Definition boardMouseDownHandler (boardState : BoardState) (canvas : option Rect)
    (event : MouseEvent) : list action :=
  if bool_decide (toolActionType boardState = TOOL_ACTION_TYPES.WRITING) then []
  else
    match canvas with
    | None => []
    | Some rect =>
        let x := (clientX event - left rect)%Z in
        let y := (clientY event - top rect)%Z in
        if strict_eq (activeToolItem boardState) TOOL_ITEMS.ERASER then
          [ERASE x y; CHANGE_ACTION_TYPE TOOL_ACTION_TYPES.ERASING]
        else
          let style := default noStyle (toolboxState (activeToolItem boardState)) in
          [DRAW_DOWN x y (stroke style) (fill style) (size style)]
    end.

Definition boardMouseMoveHandler (boardState : BoardState) (canvas : option Rect)
    (event : MouseEvent) : list action :=
  if bool_decide (toolActionType boardState = TOOL_ACTION_TYPES.WRITING) then []
  else
    match canvas with
    | None => []
    | Some rect =>
        let x := (clientX event - left rect)%Z in
        let y := (clientY event - top rect)%Z in
        if bool_decide (toolActionType boardState = TOOL_ACTION_TYPES.DRAWING)
        then [DRAW_MOVE x y]
        else if bool_decide (toolActionType boardState = TOOL_ACTION_TYPES.ERASING)
        then [ERASE x y]
        else []
    end.

Definition boardMouseUpHandler (boardState : BoardState) : list action :=
  if bool_decide (toolActionType boardState = TOOL_ACTION_TYPES.WRITING) then []
  else
    (if bool_decide (toolActionType boardState = TOOL_ACTION_TYPES.DRAWING)
     then [DRAW_UP] else [])
    ++ [CHANGE_ACTION_TYPE TOOL_ACTION_TYPES.NONE].

Definition textAreaBlurHandler (text : string) : list action := [CHANGE_TEXT text].

(** The component between two renders: the props and context values of
    the last render, its own state, the side reference, and the retry
    counter closed over by the socket effect of this canvas. *)
Record Board := mkBoard {
  id : val;
  boardState : BoardState;
  isAuthorized : bool;
  currentCanvasRef : val * val;
  unauthorizedRetryCount : nat;
  listensConnect : bool;
}.

Definition with_ref (b : Board) (r : val * val) : Board :=
  mkBoard (id b) (boardState b) (isAuthorized b) r (unauthorizedRetryCount b)
    (listensConnect b).
Definition with_authorized (b : Board) (a : bool) : Board :=
  mkBoard (id b) (boardState b) a (currentCanvasRef b) (unauthorizedRetryCount b)
    (listensConnect b).
Definition with_retryCount (b : Board) (n : nat) : Board :=
  mkBoard (id b) (boardState b) (isAuthorized b) (currentCanvasRef b) n
    (listensConnect b).
Definition with_listensConnect (b : Board) (l : bool) : Board :=
  mkBoard (id b) (boardState b) (isAuthorized b) (currentCanvasRef b)
    (unauthorizedRetryCount b) l.
Definition with_render (b : Board) (newId : val) (newState : BoardState) : Board :=
  mkBoard newId newState (isAuthorized b) (currentCanvasRef b)
    (unauthorizedRetryCount b) (listensConnect b).

(** socket.on("receiveDrawingUpdate", ...) *)
Definition receiveDrawingUpdate (h : heap) (updatedElements : val) : heap * list effect :=
  if truthy updatedElements && isArray h updatedElements then
    match as_array h updatedElements with
    | Ok xs =>
        let '(h1, valid) := alloc h (OArr (validElements h xs)) in
        (h1, [setElements valid])
    | _ => (h, [])
    end
  else (h, []).

(** socket.on("loadCanvas", ...) *)
Definition loadCanvas (h : heap) (initialElements : val) : heap * list effect :=
  if truthy initialElements && isArray h initialElements then
    match as_array h initialElements with
    | Ok xs =>
        let '(h1, valid) := alloc h (OArr (validElements h xs)) in
        let '(h2, wrapped) := alloc h1 (OArr [valid]) in
        (h2, [setElements valid; setHistory wrapped])
    | _ => (h, [])
    end
  else (h, []).

(** The completion of the load request: [response.data.elements || []] is
    filtered and becomes the live collection and the history; an error is
    caught and logged. *)
Definition loadResponse (h : heap) (canvasId : val) (responseElements : val)
  : heap * list effect :=
  if truthy responseElements then
    match as_array h responseElements with
    | Ok xs =>
        let '(h1, canvasElements) := alloc h (OArr (validElements h xs)) in
        let '(h2, wrapped) := alloc h1 (OArr [canvasElements]) in
        (h2, [setCanvasId canvasId; setElements canvasElements; setHistory wrapped])
    | _ => (h, [ConsoleLog "Error loading canvas:"])
    end
  else
    let '(h1, canvasElements) := alloc h (OArr []) in
    let '(h2, wrapped) := alloc h1 (OArr [canvasElements]) in
    (h2, [setCanvasId canvasId; setElements canvasElements; setHistory wrapped]).

(** socket.on("unauthorized", handleUnauthorized); [data.message] is read
    for the log before anything else. *)
Definition handleUnauthorized (h : heap) (b : Board) (data : val)
  : result (Board * list effect) :=
  _ ← get_prop h data "message";
  if bool_decide (unauthorizedRetryCount b = 0) then
    Ok (with_retryCount b (S (unauthorizedRetryCount b)),
        [ConsoleLog "Unauthorized access:"; SetTimeout (RetryJoinCanvas (id b)) 500])
  else
    Ok (with_authorized b false,
        [ConsoleLog "Unauthorized access:";
         Alert "Access Denied: You cannot edit this canvas."]).

Definition drawingUpdate (b : Board) : effect :=
  SocketEmit "drawingUpdate" (id b) (Some (elements (boardState b))).

Definition handleMouseDown (b : Board) (canvas : option Rect) (event : MouseEvent)
  : list effect :=
  if negb (isAuthorized b) then []
  else Dispatch <$> boardMouseDownHandler (boardState b) canvas event.

Definition handleMouseMove (b : Board) (canvas : option Rect) (event : MouseEvent)
  : list effect :=
  if negb (isAuthorized b) then []
  else (Dispatch <$> boardMouseMoveHandler (boardState b) canvas event)
       ++ [drawingUpdate b].

Definition handleMouseUp (b : Board) : list effect :=
  if negb (isAuthorized b) then []
  else (Dispatch <$> boardMouseUpHandler (boardState b)) ++ [drawingUpdate b].

End Provider.

(** [setElements([]); setHistory([[]])] *)
Definition clearCanvas (h : heap) : heap * list effect :=
  let '(h1, empty) := alloc h (OArr []) in
  let '(h2, inner) := alloc h1 (OArr []) in
  let '(h3, outer) := alloc h2 (OArr [inner]) in
  (h3, [setElements empty; setHistory outer]).

(** The socket effect (dependency: [id]); [b] carries the [id] of the render
    being committed and the side reference as the previous commit left it. *)
Definition socketEffect (h : heap) (b : Board) (connected : bool)
  : heap * Board * list effect :=
  if negb (truthy (id b)) then
    let '(h1, out) := clearCanvas h in (h1, b, out)
  else
    let prev := currentCanvasRef b in
    let save :=
      if truthy prev.1 && negb (strict_eq prev.1 (id b)) && isArray h prev.2
      then [SocketEmit "drawingUpdate" prev.1 (Some prev.2)] else [] in
    let '(h1, empty) := alloc h (OArr []) in
    let '(h2, clear) := clearCanvas h1 in
    (h2,
     with_listensConnect
       (with_retryCount (with_authorized (with_ref b (id b, empty)) true) 0)
       (negb connected),
     save ++ clear
       ++ [SocketOn "receiveDrawingUpdate"; SocketOn "loadCanvas"; SocketOn "unauthorized"]
       ++ (if connected then [SetTimeout (JoinCanvas (id b)) 300]
           else [SocketOn "connect"])).

(** The cleanup the socket effect returns when it ran with an [id]; it
    takes the connect listener away with the others. *)
Definition socketCleanup : list effect :=
  [SocketOff "receiveDrawingUpdate"; SocketOff "loadCanvas";
   SocketOff "unauthorized"; SocketOff "connect"].

(** The effect that keeps the side reference in sync (dependencies: [id],
    [elements]); [id != null]. *)
Definition syncRefEffect (b : Board) : Board :=
  if negb (strict_eq (id b) VNull) && negb (strict_eq (id b) VUndef)
  then with_ref b (id b, elements (boardState b))
  else b.

(** The synchronous part of the load effect (dependency: [id]); [token] is
    the stored credential after cleaning. *)
Definition loadEffect (h : heap) (b : Board) (token : val) : heap * list effect :=
  let '(h1, clear) := clearCanvas h in
  if negb (truthy (id b)) then (h1, clear)
  else if negb (truthy token) then (h1, clear ++ [ConsoleLog "No token found"])
  else (h1, clear ++ [HttpGet (id b)]).

(** Committing a render with the props [newId] and the store state
    [newState]: the cleanup of the socket effect and then the effects whose
    dependencies changed, in the order of their declaration. *)
Definition commit (h : heap) (b : Board) (newId : val) (newState : BoardState)
    (connected : bool) (token : val) : heap * Board * list effect :=
  let idChanged := negb (strict_eq (id b) newId) in
  let elementsChanged :=
    negb (strict_eq (elements (boardState b)) (elements newState)) in
  let cleanup := if idChanged && truthy (id b) then socketCleanup else [] in
  let b0 :=
    with_render (if idChanged && truthy (id b) then with_listensConnect b false else b)
      newId newState in
  let '(h1, b1, out1) :=
    if idChanged then socketEffect h b0 connected else (h, b0, []) in
  let b2 := if idChanged || elementsChanged then syncRefEffect b1 else b1 in
  let '(h2, out3) := if idChanged then loadEffect h1 b2 token else (h1, []) in
  (h2, b2, cleanup ++ out1 ++ out3).

(** The first commit: every effect runs; the side reference starts as
    [{ id: null, elements: [] }]. *)
Definition mount (h : heap) (newId : val) (newState : BoardState)
    (connected : bool) (token : val) : heap * Board * list effect :=
  let '(h0, empty) := alloc h (OArr []) in
  let b0 := mkBoard newId newState true (VNull, empty) 0 false in
  let '(h1, b1, out1) := socketEffect h0 b0 connected in
  let b2 := syncRefEffect b1 in
  let '(h2, out3) := loadEffect h1 b2 token in
  (h2, b2, out1 ++ out3).

(** What can happen during the session of one canvas (the [id] stays). *)
Inductive session_event :=
  | Unauthorized (data : val)
  | MouseDown (canvas : option Rect) (event : MouseEvent)
  | MouseMove (canvas : option Rect) (event : MouseEvent)
  | MouseUp
  | TimerFires (callback : timer_callback)
  | Connect
  | KeyDown (ctrlKey : bool) (key : string)
  | ReceiveDrawingUpdate (payload : val)
  | LoadCanvas (payload : val)
  | LoadResponse (responseElements : val)
  | Rerender (newState : BoardState).

Section Session.

Variable toolboxState : val → option ToolStyle.

(** One event; a listener that throws leaves the component as it was. A
    re-render of the same canvas commits with the [id] unchanged, so that
    the connection state and the credential play no part. *)
Definition session_step (h : heap) (b : Board) (ev : session_event)
  : heap * Board * list effect :=
  match ev with
  | Unauthorized data =>
      match handleUnauthorized h b data with
      | Ok (b', out) => (h, b', out)
      | _ => (h, b, [])
      end
  | MouseDown canvas event => (h, b, handleMouseDown toolboxState b canvas event)
  | MouseMove canvas event => (h, b, handleMouseMove b canvas event)
  | MouseUp => (h, b, handleMouseUp b)
  | TimerFires (JoinCanvas canvasId) => (h, b, [SocketEmit "joinCanvas" canvasId None])
  | TimerFires (RetryJoinCanvas canvasId) =>
      (h, b, [SocketEmit "joinCanvas" canvasId None])
  | Connect =>
      if listensConnect b then (h, b, [SetTimeout (JoinCanvas (id b)) 300])
      else (h, b, [])
  | KeyDown ctrlKey key =>
      if ctrlKey && String.eqb key "z" then (h, b, [Dispatch UNDO])
      else if ctrlKey && String.eqb key "y" then (h, b, [Dispatch REDO])
      else (h, b, [])
  | ReceiveDrawingUpdate payload =>
      let '(h', out) := receiveDrawingUpdate h payload in (h', b, out)
  | LoadCanvas payload =>
      let '(h', out) := loadCanvas h payload in (h', b, out)
  | LoadResponse responseElements =>
      let '(h', out) := loadResponse h (id b) responseElements in (h', b, out)
  | Rerender newState => commit h b (id b) newState true VUndef
  end.

Fixpoint session_run (h : heap) (b : Board) (evs : list session_event)
  : heap * Board * list effect :=
  match evs with
  | [] => (h, b, [])
  | ev :: evs' =>
      let '(h1, b1, out1) := session_step h b ev in
      let '(h2, b2, out2) := session_run h1 b1 evs' in
      (h2, b2, out1 ++ out2)
  end.

End Session.

(** Observations on a trace. *)
Definition is_broadcast (e : effect) : bool :=
  match e with
  | SocketEmit ev _ _ => String.eqb ev "drawingUpdate"
  | _ => false
  end.
Definition is_join_retry (e : effect) : bool :=
  match e with
  | SetTimeout (RetryJoinCanvas _) _ => true
  | _ => false
  end.
Definition is_denial (e : effect) : bool :=
  match e with
  | Alert _ => true
  | _ => false
  end.
Definition is_clear (e : effect) : bool :=
  match e with
  | Dispatch (SET_CANVAS_ELEMENTS _) | Dispatch (SET_HISTORY _) => true
  | _ => false
  end.

(** ** Predicates of the specification *)

Definition array_of (h : heap) (v : val) : option (list val) :=
  match v with
  | VRef l => match h !! l with Some (OArr xs) => Some xs | _ => None end
  | _ => None
  end.

Definition object_of (h : heap) (v : val) : option (gmap string val) :=
  match v with
  | VRef l => match h !! l with Some (OObj m) => Some m | _ => None end
  | _ => None
  end.

(** A value that is not a reference to a location outside the heap. *)
Definition allocated (h : heap) (v : val) : bool :=
  match v with
  | VRef l => bool_decide (l < length h)
  | _ => true
  end.

(** The [type] of an element, [undefined] when there is none to read. *)
Definition type_of (h : heap) (el : val) : val :=
  if truthy el then
    match get_prop h el "type" with Ok t => t | _ => VUndef end
  else VUndef.

(** An element of the data model with a recognized type: a plain object
    whose [points], when an array, holds plain objects. *)
Definition point_ok (h : heap) (p : val) : bool :=
  bool_decide (is_Some (object_of h p)).

Definition element_ok (h : heap) (el : val) : bool :=
  match object_of h el with
  | Some m =>
      recognized_type (default VUndef (m !! "type"))
      && match m !! "points" with
         | Some pv =>
             allocated h pv
             && match array_of h pv with
                | Some ps => forallb (point_ok h) ps
                | None => true
                end
         | None => true
         end
  | None => false
  end.

Definition collection_ok (h : heap) (v : val) : bool :=
  match array_of h v with
  | Some xs => forallb (element_ok h) xs
  | None => false
  end.

(** The content of a collection as the deep copy sees it: per element its
    own properties and, for a point sequence, the properties of each point.
    Two collections are equal when their contents are. *)
Definition element_view (h : heap) (el : val)
  : gmap string val * option (list (gmap string val)) :=
  let m := own_props h el in
  match m !! "points" ≫= array_of h with
  | Some ps => (delete "points" m, Some (own_props h <$> ps))
  | None => (m, None)
  end.

Definition collection_view (h : heap) (v : val)
  : option (list (gmap string val * option (list (gmap string val)))) :=
  match array_of h v with
  | Some xs => Some (element_view h <$> xs)
  | None => None
  end.

Definition same_collection (h : heap) (a b : val) : bool :=
  bool_decide (is_Some (collection_view h a))
  && bool_decide (collection_view h a = collection_view h b).

(** [history[index]] equals the live collection. *)
Definition history_matches (h : heap) (s : BoardState) : bool :=
  same_collection h (get_index h (history s) (Some (index s))) (elements s).

(** [0 <= index < history.length] *)
Definition index_in_bounds (h : heap) (s : BoardState) : bool :=
  match array_of h (history s) with
  | Some hs => (0 <=? index s)%Z && (index s <? Z.of_nat (length hs))%Z
  | None => false
  end.

(** Every element of the board state, live or stored, has a recognized
    type. *)
Definition board_ok (h : heap) (s : BoardState) : bool :=
  collection_ok h (elements s)
  && match array_of h (history s) with
     | Some hs => forallb (collection_ok h) hs
     | None => false
     end.

Definition history_invariant (h : heap) (s : BoardState) : bool :=
  board_ok h s && index_in_bounds h s && history_matches h s.

(** The history log is a sequence, or absent. *)
Definition history_typed (h : heap) (s : BoardState) : bool :=
  negb (truthy (history s)) || isArray h (history s).

(** A snapshot that is present and a sequence. *)
Definition valid_snapshot (h : heap) (v : val) : bool := truthy v && isArray h v.

Definition history_length (h : heap) (s : BoardState) : Z :=
  match array_of h (history s) with
  | Some hs => Z.of_nat (length hs)
  | None => 0
  end.

Definition snapshot_at (h : heap) (s : BoardState) (i : Z) : val :=
  get_index h (history s) (Some i).




Fixpoint dispatch_all (near : heap → val → Z → Z → bool) (h : heap) (s : BoardState)
    (acts : list action) : result (heap * BoardState) :=
  match acts with
  | [] => Ok (h, s)
  | a :: acts' =>
      '(h1, s1) ← boardReducer near h s a;
      dispatch_all near h1 s1 acts'
  end.

(** The last element of the live collection and what [DRAW_MOVE] can do
    with it. *)
Definition last_element (h : heap) (s : BoardState) : val :=
  match array_of h (elements s) with
  | Some xs => List.last xs VUndef
  | None => VUndef
  end.

Definition drawable_type (t : val) : bool :=
  shape_type t || strict_eq t TOOL_ITEMS.BRUSH.

(** A freehand element carries a point sequence. *)
Definition brush_has_points (h : heap) (el : val) : bool :=
  if strict_eq (type_of h el) TOOL_ITEMS.BRUSH then
    match object_of h el with
    | Some m => isArray h (default VUndef (m !! "points"))
    | None => false
    end
  else true.

(** A fresh copy [c], made in [h'], of the element [el] of [h]: a new plain
    object with the properties of [el], but for [points]. *)
Definition is_copy_of (h h' : heap) (el c : val) : Prop :=
  ∃ l m, c = VRef l ∧ length h ≤ l ∧ h' !! l = Some (OObj m)
         ∧ ∀ k, k ≠ "points" → m !! k = own_props h el !! k.

(** ** Concrete states *)

Definition never_near : heap → val → Z → Z → bool := λ _ _ _ _, false.

(** initialBoardState: no elements, the history [[[]]], the cursor at 0. *)
Definition initialHeap : heap := [OArr []; OArr []; OArr [VRef 1]].
Definition initialBoardState : BoardState :=
  mkBoardState TOOL_ITEMS.BRUSH TOOL_ACTION_TYPES.NONE (VRef 0) (VRef 2) 0 (VStr "") false.

Definition props (kvs : list (string * val)) : obj := OObj (list_to_map kvs).

(** The mixed list [[{type:"line",...}, {foo:1}, null]]. *)
Definition mixedHeap : heap :=
  [props [("type", VStr "line"); ("x1", VNum 0); ("y1", VNum 0);
          ("x2", VNum 5); ("y2", VNum 5)];
   props [("foo", VNum 1)]].
Definition mixedList : list val := [VRef 0; VRef 1; VNull].

(** An element whose type is none of the six. *)
Definition hexagonHeap : heap := [props [("type", VStr "hexagon")]].

(** The payload of an event is there to be read. *)
Definition has_payload (data : val) : bool :=
  negb (strict_eq data VNull) && negb (strict_eq data VUndef).

Definition is_unauthorized (ev : session_event) : bool :=
  match ev with
  | Unauthorized _ => true
  | _ => false
  end.

(** The side reference holds the canvas and the elements of the last
    render. *)
Definition ref_in_sync (b : Board) : Prop :=
  currentCanvasRef b = (id b, elements (boardState b)).

(** ** The cells a deep copy allocates *)

Definition history_entries (h : heap) (s : BoardState) : list val :=
  default [] (array_of h (history s)).

Fixpoint point_cells (h : heap) (ps : list val) : list obj :=
  match ps with
  | [] => []
  | p :: ps' =>
      OObj (own_props h p) :: point_cells (h ++ [OObj (own_props h p)]) ps'
  end.

(** The copy of one element: the object itself and, for a point sequence,
    the copies of the points followed by the new array of them. *)
Definition copy_cells (h : heap) (el : val) : list obj :=
  let m := own_props h el in
  match m !! "points" ≫= array_of h with
  | Some ps =>
      OObj (<["points" := VRef (length h + 1 + length ps)]> m)
      :: point_cells (h ++ [OObj m]) ps
      ++ [OArr (VRef <$> seq (S (length h)) (length ps))]
  | None => [OObj m]
  end.

Fixpoint copies_cells (h : heap) (els : list val) : list obj :=
  match els with
  | [] => []
  | el :: els' => copy_cells h el ++ copies_cells (h ++ copy_cells h el) els'
  end.

Fixpoint copies_refs (h : heap) (els : list val) : list val :=
  match els with
  | [] => []
  | el :: els' => VRef (length h) :: copies_refs (h ++ copy_cells h el) els'
  end.

(** A canvas with one line, already pushed to the history. *)
Definition lineElement : obj :=
  props [("id", VNum 0); ("type", VStr "line"); ("x1", VNum 0); ("y1", VNum 0);
         ("x2", VNum 5); ("y2", VNum 5)].
Definition lineHeap : heap :=
  [lineElement; OArr [VRef 0]; lineElement; OArr [VRef 2]; OArr []; OArr [VRef 4; VRef 3]].
Definition lineState : BoardState :=
  mkBoardState TOOL_ITEMS.LINE TOOL_ACTION_TYPES.ERASING (VRef 1) (VRef 5) 1 (VStr "a") true.

(** A history of five snapshots with the cursor on the last; the array at 5
    serves as a changed live collection too. *)
Definition fiveHeap : heap :=
  [lineElement; lineElement; lineElement; lineElement;
   OArr []; OArr [VRef 0]; OArr [VRef 0; VRef 1]; OArr [VRef 0; VRef 1; VRef 2];
   OArr [VRef 0; VRef 1; VRef 2; VRef 3];
   OArr [VRef 4; VRef 5; VRef 6; VRef 7; VRef 8];
   lineElement; lineElement; lineElement; lineElement;
   OArr [VRef 10; VRef 11; VRef 12; VRef 13]].
Definition fiveState : BoardState :=
  mkBoardState TOOL_ITEMS.LINE TOOL_ACTION_TYPES.NONE (VRef 14) (VRef 9) 4 (VStr "a") true.





(** A canvas with one freehand stroke of one point, nothing pushed yet. *)
Definition brushHeap : heap :=
  [props [("x", VNum 1); ("y", VNum 1)];
   OArr [VRef 0];
   props [("id", VNum 0); ("type", VStr "brush"); ("points", VRef 1)];
   OArr [VRef 2];
   OArr [];
   OArr [VRef 4]].
Definition brushState : BoardState :=
  mkBoardState TOOL_ITEMS.ERASER TOOL_ACTION_TYPES.ERASING (VRef 3) (VRef 5) 0 (VStr "a") true.

(** The content of the collection [v] is the same in both heaps. *)
Definition content_unchanged (h h' : heap) (v : val) : bool :=
  bool_decide (collection_view h v = collection_view h' v).

(** A canvas whose last element is a text. *)
Definition textHeap : heap :=
  [props [("id", VNum 0); ("type", VStr "text"); ("x1", VNum 3); ("y1", VNum 4);
          ("x2", VNum 3); ("y2", VNum 4); ("text", VStr "hi")];
   OArr [VRef 0];
   OArr [];
   OArr [VRef 2]].
Definition textState : BoardState :=
  mkBoardState TOOL_ITEMS.LINE TOOL_ACTION_TYPES.DRAWING (VRef 1) (VRef 3) 0 (VStr "a") true.

(** The point [{ x: clientX, y: clientY }] of [DRAW_MOVE]. *)
Definition point_props (x y : Z) : gmap string val :=
  <["x" := VNum x]> (<["y" := VNum y]> ∅).



(** A line being dragged out, and a freehand stroke being drawn. *)
Definition dragHeap : heap := [lineElement; OArr [VRef 0]; OArr []; OArr [VRef 2]].
Definition dragState : BoardState :=
  mkBoardState TOOL_ITEMS.LINE TOOL_ACTION_TYPES.DRAWING (VRef 1) (VRef 3) 0 (VStr "a") true.
Definition strokeState : BoardState :=
  mkBoardState TOOL_ITEMS.BRUSH TOOL_ACTION_TYPES.DRAWING (VRef 3) (VRef 5) 0 (VStr "a") true.

(** The component showing canvas "a" with one line, freshly joined. *)
Definition noToolbox : val → option ToolStyle := λ _, None.
Definition boardA : Board :=
  mkBoard (VStr "a") lineState true (VStr "a", VRef 1) 0 false.

(** One gesture with the line tool on the empty board. *)
Definition lineGesture : list action :=
  [CHANGE_TOOL TOOL_ITEMS.LINE; DRAW_DOWN 1 2 (VStr "#000") VUndef (VNum 1);
   DRAW_MOVE 4 5; DRAW_MOVE 6 7; DRAW_UP].

(** The state a run ends in, when it ends in one. *)
Definition final_state (r : result (heap * BoardState)) : option BoardState :=
  match r with
  | Ok (_, s) => Some s
  | _ => None
  end.

Definition holds_after (P : heap → BoardState → bool) (r : result (heap * BoardState))
  : bool :=
  match r with
  | Ok (h, s) => P h s
  | _ => false
  end.
(** ** Further boards *)

(** The board with one line after an undo: the cursor on the empty
    snapshot, the line's snapshot ahead. *)
Definition undoneState : BoardState :=
  mkBoardState TOOL_ITEMS.LINE TOOL_ACTION_TYPES.NONE (VRef 4) (VRef 5) 0 (VStr "a") true.

(** ** The cells of a collection *)

(** The locations a collection is made of: its array, its elements, their
    point sequences and the points. *)
Definition value_cell (v : val) : list nat :=
  match v with
  | VRef l => [l]
  | _ => []
  end.

Definition element_cells (h : heap) (el : val) : list nat :=
  value_cell el
  ++ match own_props h el !! "points" with
     | Some pv =>
         match array_of h pv with
         | Some ps => value_cell pv ++ (ps ≫= value_cell)
         | None => []
         end
     | None => []
     end.

Definition collection_cells (h : heap) (v : val) : list nat :=
  value_cell v
  ++ match array_of h v with
     | Some xs => xs ≫= element_cells h
     | None => []
     end.

(** The two moves of the cursor. *)
Definition cursor_move (h : heap) (s : BoardState) (a : action) : bool :=
  match a with
  | UNDO => (0 <? index s)%Z
  | REDO => (index s <? history_length h s - 1)%Z
  | _ => false
  end.

(** ** Names and indices *)

(** A decimal digit: the characters the index-named properties of an array
    start with. *)
Definition digit (c : Ascii.ascii) : bool :=
  (48 <=? Ascii.nat_of_ascii c) && (Ascii.nat_of_ascii c <=? 57).

Definition starts_with_digit (k : string) : bool :=
  match k with
  | String c _ => digit c
  | EmptyString => false
  end.

(** The actions among the effects of a listener, in order. *)
Definition dispatched (out : list effect) : list action :=
  omap (λ e, match e with Dispatch a => Some a | _ => None end) out.

(** The actions that push a snapshot whatever the live collection holds. *)
Definition pushes (a : action) : bool :=
  match a with
  | DRAW_UP | ERASE _ _ => true
  | _ => false
  end.

(** ** The provider as a state machine *)

(** What reaches the provider: the pointer events of the canvas (each with
    the canvas element's rectangle, when the element is in the document),
    the blur of the text box, and the choice of a tool in the toolbar. *)
Inductive provider_event :=
  | PointerDown (canvas : option Rect) (event : MouseEvent)
  | PointerMove (canvas : option Rect) (event : MouseEvent)
  | PointerUp
  | TextBlur (text : string)
  | ToolChange (tool : val).

Section ProviderRun.

Variable isPointNearElement : heap → val → Z → Z → bool.
Variable toolboxState : val → option ToolStyle.

(** changeToolHandler *)
Definition changeToolHandler (tool : val) : list action := [CHANGE_TOOL tool].

(** The actions a handler dispatches; it reads the state of the last
    render. *)
Definition provider_actions (boardState : BoardState) (ev : provider_event)
  : list action :=
  match ev with
  | PointerDown canvas event => boardMouseDownHandler toolboxState boardState canvas event
  | PointerMove canvas event => boardMouseMoveHandler boardState canvas event
  | PointerUp => boardMouseUpHandler boardState
  | TextBlur text => textAreaBlurHandler text
  | ToolChange tool => changeToolHandler tool
  end.

(** One event: the reducer runs over the dispatched actions in order, and
    the component renders with the new state. *)
Definition provider_step (h : heap) (boardState : BoardState) (ev : provider_event)
  : result (heap * BoardState) :=
  dispatch_all isPointNearElement h boardState (provider_actions boardState ev).

Fixpoint provider_run (h : heap) (boardState : BoardState) (evs : list provider_event)
  : result (heap * BoardState) :=
  match evs with
  | [] => Ok (h, boardState)
  | ev :: evs' =>
      '(h1, s1) ← provider_step h boardState ev;
      provider_run h1 s1 evs'
  end.

End ProviderRun.

(** A drag of the pointer over the canvas: down, the moves, up. *)
Definition drag (canvas : Rect) (start : MouseEvent) (moves : list MouseEvent)
  : list provider_event :=
  PointerDown (Some canvas) start
  :: (PointerMove (Some canvas) <$> moves) ++ [PointerUp].

(** The board with one line and the eraser in hand. *)
Definition eraserState : BoardState :=
  mkBoardState TOOL_ITEMS.ERASER TOOL_ACTION_TYPES.NONE (VRef 1) (VRef 5) 1 (VStr "a") true.

(** The board with one line while the action type is WRITING: the live
    collection was replaced after the text box opened. *)
Definition writingState : BoardState :=
  mkBoardState TOOL_ITEMS.TEXT TOOL_ACTION_TYPES.WRITING (VRef 1) (VRef 5) 1 (VStr "a") true.

(** ** The component on the home route *)

(** What can happen while no canvas is shown: the socket effect returned
    before it registered a listener, so what is left are the pointer and the
    keyboard, re-renders, and the timers that were set before. *)
Definition home_event (ev : session_event) : bool :=
  match ev with
  | MouseDown _ _ | MouseMove _ _ | MouseUp | KeyDown _ _ | TimerFires _ | Rerender _ => true
  | _ => false
  end.

(** ** Shapes *)

(** Modelled from the spec: the properties of the element [createElement]
    makes for a type other than the freehand stroke, as [createElement]
    above has them. *)
Definition shape_props (id x1 y1 x2 y2 type stroke fill size : val) : gmap string val :=
  <["x1" := x1]> (<["y1" := y1]> (<["x2" := x2]> (<["y2" := y2]>
    (<["id" := id]> (<["type" := type]> (<["stroke" := stroke]>
      (<["fill" := fill]> (<["size" := size]> ∅)))))))).

(** Where the pointer is on the canvas. *)
Definition canvas_x (canvas : Rect) (event : MouseEvent) : Z := clientX event - left canvas.
Definition canvas_y (canvas : Rect) (event : MouseEvent) : Z := clientY event - top canvas.

(** The board with one line, the line tool in hand, nothing in progress. *)
Definition lineToolState : BoardState :=
  mkBoardState TOOL_ITEMS.LINE TOOL_ACTION_TYPES.NONE (VRef 1) (VRef 5) 1 (VStr "a") true.

(** ** The component and the store together *)

Section App.

Variable isPointNearElement : heap → val → Z → Z → bool.
Variable toolboxState : val → option ToolStyle.

(** One event of the session as the whole client handles it: the listener
    or handler of the component runs, the store reduces the actions it
    dispatched, in order, and the component renders with the new state. A
    transition that throws ends the run. *)
Definition app_step (h : heap) (b : Board) (ev : session_event)
  : result (heap * Board * list effect) :=
  let '(h1, b1, out) := session_step toolboxState h b ev in
  '(h2, s2) ← dispatch_all isPointNearElement h1 (boardState b1) (dispatched out);
  let '(h3, b3, out') := commit h2 b1 (id b1) s2 true VUndef in
  Ok (h3, b3, out ++ out').

Fixpoint app_run (h : heap) (b : Board) (evs : list session_event)
  : result (heap * Board * list effect) :=
  match evs with
  | [] => Ok (h, b, [])
  | ev :: evs' =>
      '(h1, b1, out1) ← app_step h b ev;
      '(h2, b2, out2) ← app_run h1 b1 evs';
      Ok (h2, b2, out1 ++ out2)
  end.

End App.

(** The component showing canvas "a" in the middle of a stroke. *)
Definition boardDrawing : Board :=
  mkBoard (VStr "a") strokeState true (VStr "a", VRef 3) 0 false.

(** The component showing canvas "a" with one line, the eraser pressed. *)
Definition boardErasing : Board :=
  mkBoard (VStr "a") lineState true (VStr "a", VRef 1) 0 false.

(** ** The stored credential *)

(** A JavaScript string as the sequence of its UTF-16 code units. *)
Abbreviation js_string := (list N) (only parsing).

(** The code units of a literal of the source (ASCII). *)
Definition units (s : string) : js_string :=
  (λ c, N.of_nat (Ascii.nat_of_ascii c)) <$> String.list_ascii_of_string s.

(** The code points [String.prototype.trim] strips: WhiteSpace (TAB, VT,
    FF, ZWNBSP and the space separators) and LineTerminator (LF, CR, LS,
    PS). *)
Definition WhiteSpace (u : N) : bool :=
  bool_decide (u ∈ [9; 11; 12; 32; 160; 5760; 8239; 8287; 12288; 65279]%N)
  || ((8192 <=? u) && (u <=? 8202))%N.

Definition LineTerminator (u : N) : bool :=
  bool_decide (u ∈ [10; 13; 8232; 8233]%N).

Definition trim_space (u : N) : bool := WhiteSpace u || LineTerminator u.

Fixpoint trimStart (s : js_string) : js_string :=
  match s with
  | [] => []
  | u :: s' => if trim_space u then trimStart s' else s
  end.

Definition trimEnd (s : js_string) : js_string := reverse (trimStart (reverse s)).

Definition trim (s : js_string) : js_string := trimEnd (trimStart s).

(** [s.startsWith(p)] and [s.substring(start)]. *)
Definition startsWith (s p : js_string) : bool := bool_decide (take (length p) s = p).

Definition substring (s : js_string) (start : nat) : js_string := drop start s.

(** A string as a condition: the empty string is falsy. *)
Definition nonempty (s : js_string) : bool :=
  match s with
  | [] => false
  | _ => true
  end.

(** A value that is a string, [null] or [undefined] as a condition. *)
Definition usable (token : option js_string) : bool :=
  match token with
  | Some t => nonempty t
  | None => false
  end.

(** [a || b] on such values. *)
Definition or_else (a b : option js_string) : option js_string :=
  if usable a then a else b.

(** [`Bearer ${token}`] *)
Definition bearer (token : js_string) : js_string := units "Bearer " ++ token.

(** What [localStorage.getItem("whiteboard_user_token")] returns: the
    stored string, or [null]. *)
Abbreviation storage := (option (list N)) (only parsing).

Module socket.

(** getAuthToken of utils/socket *)
Definition getAuthToken (stored : storage) : option js_string :=
  match stored with
  | None => None
  | Some token =>
      if negb (nonempty token) then None
      else
        let cleaned := trim token in
        if startsWith cleaned (units "Bearer ")
        then Some (trim (substring cleaned 7))
        else Some cleaned
  end.

(** A client socket: which [io()] call made it, and the Authorization
    header it was made with, if any. *)
Record Socket := mkSocket {
  sid : nat;
  Authorization : option (list N);
}.

(** The state of the module: [socketInstance], and the number of sockets
    made so far. *)
Record State := mkState {
  socketInstance : option Socket;
  made : nat;
}.

Inductive socket_effect :=
  | Io (s : Socket)
  | Disconnect (s : Socket).

(** [io(SOCKET_URL, { extraHeaders: token ? { Authorization: `Bearer ${token}` } : {}, ... })] *)
Definition io (m : State) (token : option js_string) : State * Socket :=
  let s := mkSocket (made m) (if usable token then bearer <$> token else None) in
  (mkState (Some s) (S (made m)), s).

(** reconnectSocket *)
Definition reconnectSocket (m : State) : State * list socket_effect :=
  match socketInstance m with
  | Some s => (mkState None (made m), [Disconnect s])
  | None => (m, [])
  end.

(** getSocket; [connected] is the state of the connections when it is
    called. *)
Definition getSocket (m : State) (stored : storage) (forceReconnect : bool)
    (connected : Socket → bool) : State * Socket * list socket_effect :=
  let token := getAuthToken stored in
  let '(m1, out1) :=
    match socketInstance m with
    | Some s =>
        if forceReconnect then (mkState None (made m), [Disconnect s]) else (m, [])
    | None => (m, [])
    end in
  match socketInstance m1 with
  | None =>
      let '(m2, s) := io m1 token in (m2, s, out1 ++ [Io s])
  | Some old =>
      if negb (connected old) then
        let '(m2, s) := io m1 token in (m2, s, out1 ++ [Disconnect old; Io s])
      else (m1, old, out1)
  end.

(** The calls the rest of the client makes. *)
Inductive call :=
  | GetSocket (stored : storage) (forceReconnect : bool) (connected : Socket → bool)
  | ReconnectSocket.

Definition step (m : State) (c : call) : State * list socket_effect :=
  match c with
  | GetSocket stored forceReconnect connected =>
      let '(m', _, out) := getSocket m stored forceReconnect connected in (m', out)
  | ReconnectSocket => reconnectSocket m
  end.

Fixpoint run (m : State) (cs : list call) : State * list socket_effect :=
  match cs with
  | [] => (m, [])
  | c :: cs' =>
      let '(m1, out1) := step m c in
      let '(m2, out2) := run m1 cs' in
      (m2, out1 ++ out2)
  end.

(** [let socketInstance = null] *)
Definition initial : State := mkState None 0.

(** The sockets of a trace that were made and not disconnected since. *)
Fixpoint open_sockets (out : list socket_effect) (acc : list nat) : list nat :=
  match out with
  | [] => acc
  | Io s :: out' => open_sockets out' (acc ++ [sid s])
  | Disconnect s :: out' =>
      open_sockets out' (List.filter (λ i, negb (i =? sid s)) acc)
  end.

(** The one socket the module holds, if any. *)
Definition held (m : State) : list nat :=
  match socketInstance m with
  | Some s => [sid s]
  | None => []
  end.

End socket.

(** The credential as loadCanvasFromAPI of the Board component cleans it,
    before its [if (!token)]. *)
Definition loadCanvasFromAPI_token (stored : storage) : option js_string :=
  if usable stored then
    (λ token,
       let token := trim token in
       if startsWith token (units "Bearer ") then trim (substring token 7) else token)
    <$> stored
  else stored.

Module Login.

(** The body of the login response: an object whose fields, when present,
    are strings. *)
Record Data := mkData {
  token : option (list N);
  accessToken : option (list N);
  access_token : option (list N);
  authToken : option (list N);
  message : option (list N);
}.

Inductive login_effect :=
  | SetItem (value : list N)
  | ReconnectSocket
  | SetUserLoginStatus (isUserLoggedIn : bool)
  | Navigate (path : string)
  | Alert (msg : list N)
  | ConsoleError
  | ConsoleLog.

(** handleSubmit after the request: [response] is [None] when the request
    or the parsing of its body failed, else [response.ok] and the body. *)
Definition handleSubmit (response : option (bool * Data)) : list login_effect :=
  match response with
  | None => [ConsoleError; Alert (units "An error occurred during login")]
  | Some (ok, data) =>
      if ok then
        let token :=
          or_else (or_else (or_else (token data) (accessToken data)) (access_token data))
            (authToken data) in
        match token with
        | Some t =>
            if nonempty t then
              [ConsoleLog; SetItem (trim t); ReconnectSocket; SetUserLoginStatus true;
               Navigate "/"]
            else [ConsoleError; Alert (units "Login successful but no token received")]
        | None => [ConsoleError; Alert (units "Login successful but no token received")]
        end
      else [Alert (default (units "Login failed")
                     (or_else (message data) (Some (units "Login failed"))))]
  end.

(** What the login does to the stored credential and to the socket
    module. *)
Definition perform (w : storage * socket.State) (e : login_effect)
  : storage * socket.State :=
  match e with
  | SetItem value => (Some value, w.2)
  | ReconnectSocket => (w.1, (socket.reconnectSocket w.2).1)
  | _ => w
  end.

End Login.

(** ** Credentials and responses for the examples *)

Definition paddedToken : js_string := units "  abc.def  ".
Definition prefixedToken : js_string := units "Bearer abc.def".
Definition always_connected : socket.Socket → bool := λ _, true.
Definition never_connected : socket.Socket → bool := λ _, false.
Definition loginResponse : option (bool * Login.Data) :=
  Some (true, Login.mkData None (Some paddedToken) None None None).
(** ** The canvas API *)

Module http.

Record Canvas := mkCanvas {
  _id : list N;
  title : option (list N);
  name : option (list N);
}.

(** The requests the client makes, each with its Authorization header. *)
Inductive request :=
  | GetList (authorization : list N)
  | PostCreate (authorization : list N)
  | Delete (canvasId : list N) (authorization : list N)
  | PutShare (canvasId email : list N) (authorization : list N)
  | PutUpdate (canvasId : list N) (elements : val) (authorization : list N)
  | GetLoad (canvasId : list N) (authorization : list N).

Definition authorization_of (r : request) : list N :=
  match r with
  | GetList a | PostCreate a | Delete _ a | PutShare _ _ a | PutUpdate _ _ a
  | GetLoad _ a => a
  end.

(** What the error of a rejected request carries:
    [error.response?.data?.message], [error.response?.data?.error],
    [error.message], [error.response?.status]. *)
Record AxiosError := mkError {
  data_message : option (list N);
  data_error : option (list N);
  error_message : option (list N);
  status : option N;
}.

(** The body of a response, by the shape the caller reads. *)
Inductive body :=
  | Canvases (canvasList : list Canvas)
  | Created (canvasId _id id : option (list N))
  | Message (message : option (list N))
  | Elements (elements : val)
  | NoBody.

Inductive response :=
  | Resolved (data : body)
  | Rejected (error : AxiosError).

(** The server: what it answers to a request, given the ones before it
    (the last of the list is the request answered). *)
Abbreviation server := (list request → response) (only parsing).

End http.

(** [a || d] where [d] is a non-empty literal. *)
Definition or_literal (a : option (list N)) (d : list N) : list N :=
  if usable a then default d a else d.

Module Sidebar.

Import http.

(** getToken of the Sidebar component *)
Definition getToken (stored : storage) : option js_string :=
  match stored with
  | None => None
  | Some token =>
      if negb (nonempty token) then None
      else
        let trimmed := trim token in
        if startsWith trimmed (units "Bearer ")
        then Some (trim (substring trimmed 7))
        else Some trimmed
  end.

(** What a handler of the sidebar does, in order: requests, state updates,
    navigation, timers that clear a message, the console, the storage. *)
Inductive sidebar_effect :=
  | Request (r : request)
  | SetCanvases (canvases : list Canvas)
  | SetCanvasId (canvasId : list N)
  | Navigate (path : list N)
  | SetError (msg : list N)
  | SetSuccess (msg : option (list N))
  | ClearError (timeout : N)
  | ClearSuccess (timeout : N)
  | ConsoleError
  | RemoveItem
  | SetUserLoginStatus (isUserLoggedIn : bool).

Abbreviation trace := (list sidebar_effect) (only parsing).

(** How a handler ends: it returns, or it is still running when the fuel
    is used up, or it met a response body of a shape it does not expect,
    which is not modelled. *)
Inductive outcome (A : Type) :=
  | Returns (a : A) (w : list sidebar_effect)
  | Pending (w : list sidebar_effect)
  | Unmodelled.
Arguments Returns {A} a w.
Arguments Pending {A} w.
Arguments Unmodelled {A}.

Definition trace_of {A} (o : outcome A) : option trace :=
  match o with
  | Returns _ w | Pending w => Some w
  | Unmodelled => None
  end.

Definition requests (w : trace) : list request :=
  omap (λ e, match e with Request r => Some r | _ => None end) w.

(** What the render the handlers belong to has in scope: the canvas id of
    the board context, the [id] of the route, the text of the email field,
    and the stored credential. *)
Record Env := mkEnv {
  canvasId : list N;
  id : option (list N);
  email : list N;
  stored : option (list N);
}.

Section Handlers.

Variable server : list request → response.

(** [await axios...]: the request goes out and the server answers. *)
Definition axios (w : trace) (r : request) : response * trace :=
  (server (requests w ++ [r]), w ++ [Request r]).

(** handleCanvasClick *)
Definition handleCanvasClick (canvasIdToOpen : list N) : sidebar_effect :=
  Navigate (units "/" ++ canvasIdToOpen).

(** [error.response?.status || 'N/A'] as text *)
Definition status_text (e : AxiosError) : list N :=
  match status e with
  | Some n => if (n =? 0)%N then units "N/A" else units (pretty n)
  | None => units "N/A"
  end.

(** handleCreateCanvas, given the fetchCanvases it awaits. *)
Definition handleCreateCanvas_with
    (fetchCanvases : trace → outcome (list Canvas)) (env : Env) (w : trace)
  : outcome (option Canvas) :=
  let token := getToken (stored env) in
  if negb (usable token) then
    Returns None (w ++ [SetError (units "Please login first"); ClearError 3000])
  else
    let '(response, w1) := axios w (PostCreate (bearer (default [] token))) in
    match response with
    | Resolved (Created a b c) =>
        let newCanvasId := or_else (or_else a b) c in
        if negb (usable newCanvasId) then
          Returns None
            (w1 ++ [ConsoleError;
                    SetError (units "Failed to create canvas: No ID returned")])
        else
          let newCanvasId := default [] newCanvasId in
          match fetchCanvases w1 with
          | Returns _ w2 =>
              Returns (Some (mkCanvas newCanvasId None None))
                (w2 ++ [SetCanvasId newCanvasId; handleCanvasClick newCanvasId;
                        SetSuccess (Some (units "Canvas created successfully!"));
                        ClearSuccess 3000])
          | Pending w2 => Pending w2
          | Unmodelled => Unmodelled
          end
    | Resolved _ => Unmodelled
    | Rejected error =>
        let errorMessage :=
          or_literal
            (or_else (or_else (data_message error) (data_error error))
               (error_message error))
            (units "Failed to create canvas") in
        Returns None
          (w1 ++ [ConsoleError;
                  SetError (units "Error: " ++ errorMessage ++ units " (Status: "
                            ++ status_text error ++ units ")");
                  ClearError 5000])
    end.

(** fetchCanvases; each call uses up one unit of fuel. *)
Fixpoint fetchCanvases (fuel : nat) (env : Env) (w : trace) : outcome (list Canvas) :=
  match fuel with
  | 0 => Pending w
  | S n =>
      let token := getToken (stored env) in
      if negb (usable token) then Returns [] (w ++ [ConsoleError])
      else
        let '(response, w1) := axios w (GetList (bearer (default [] token))) in
        match response with
        | Resolved (Canvases canvasList) =>
            let w2 := w1 ++ [SetCanvases canvasList] in
            match canvasList with
            | [] =>
                match handleCreateCanvas_with (fetchCanvases n env) env w2 with
                | Returns (Some newCanvas) w3 =>
                    Returns canvasList
                      (w3 ++ [SetCanvasId (_id newCanvas);
                              handleCanvasClick (_id newCanvas)])
                | Returns None w3 => Returns canvasList w3
                | Pending w3 => Pending w3
                | Unmodelled => Unmodelled
                end
            | first :: _ =>
                if negb (nonempty (canvasId env)) && negb (usable (id env)) then
                  Returns canvasList
                    (w2 ++ [SetCanvasId (_id first); handleCanvasClick (_id first)])
                else Returns canvasList w2
            end
        | Resolved _ => Unmodelled
        | Rejected _ => Returns [] (w1 ++ [ConsoleError])
        end
  end.

Definition handleCreateCanvas (fuel : nat) (env : Env) (w : trace)
  : outcome (option Canvas) :=
  handleCreateCanvas_with (fetchCanvases fuel env) env w.

(** handleDeleteCanvas *)
Definition handleDeleteCanvas (fuel : nat) (env : Env) (canvasIdToDelete : list N)
    (w : trace) : outcome unit :=
  let token := getToken (stored env) in
  if negb (usable token) then Returns () (w ++ [SetError (units "Please login first")])
  else
    let '(response, w1) :=
      axios w (Delete canvasIdToDelete (bearer (default [] token))) in
    match response with
    | Resolved _ =>
        match fetchCanvases fuel env w1 with
        | Returns updatedCanvases w2 =>
            if bool_decide (canvasIdToDelete = canvasId env) then
              match updatedCanvases with
              | first :: _ =>
                  Returns () (w2 ++ [SetCanvasId (_id first); handleCanvasClick (_id first)])
              | [] => Returns () (w2 ++ [SetCanvasId []; Navigate (units "/")])
              end
            else Returns () w2
        | Pending w2 => Pending w2
        | Unmodelled => Unmodelled
        end
    | Rejected error =>
        let errorMessage :=
          or_literal
            (or_else (or_else (data_message error) (data_error error))
               (error_message error))
            (units "Failed to delete canvas") in
        Returns () (w1 ++ [ConsoleError; SetError errorMessage; ClearError 5000])
    end.

(** handleShare *)
Definition handleShare (env : Env) (w : trace) : outcome unit :=
  if negb (nonempty (trim (email env))) then
    Returns () (w ++ [SetError (units "Please enter an email.")])
  else
    let w0 := w ++ [SetError []; SetSuccess (Some [])] in
    let token := getToken (stored env) in
    if negb (usable token) then Returns () (w0 ++ [SetError (units "Please login first")])
    else
      let '(response, w1) :=
        axios w0 (PutShare (canvasId env) (email env) (bearer (default [] token))) in
      match response with
      | Resolved (Message message) =>
          Returns () (w1 ++ [SetSuccess message; ClearSuccess 5000])
      | Resolved _ => Unmodelled
      | Rejected error =>
          Returns ()
            (w1 ++ [SetError (or_literal (data_error error)
                                (units "Failed to share canvas."));
                    ClearError 5000])
      end.

(** The effect on [isUserLoggedIn]. *)
Definition loginEffect (fuel : nat) (env : Env) (isUserLoggedIn : bool) (w : trace)
  : outcome unit :=
  if isUserLoggedIn then
    match fetchCanvases fuel env w with
    | Returns _ w' => Returns () w'
    | Pending w' => Pending w'
    | Unmodelled => Unmodelled
    end
  else Returns () w.

(** The operations of the sidebar that talk to the server. *)
Inductive operation :=
  | FetchCanvases
  | CreateCanvas
  | DeleteCanvas (canvasIdToDelete : list N)
  | Share
  | LoggedIn (isUserLoggedIn : bool).

Definition run (fuel : nat) (env : Env) (op : operation) (w : trace) : option trace :=
  match op with
  | FetchCanvases => trace_of (fetchCanvases fuel env w)
  | CreateCanvas => trace_of (handleCreateCanvas fuel env w)
  | DeleteCanvas canvasIdToDelete =>
      trace_of (handleDeleteCanvas fuel env canvasIdToDelete w)
  | Share => trace_of (handleShare env w)
  | LoggedIn isUserLoggedIn => trace_of (loginEffect fuel env isUserLoggedIn w)
  end.

End Handlers.

(** handleLogout and handleLogin *)
Definition handleLogout : trace :=
  [RemoveItem; SetCanvases []; SetUserLoginStatus false; Navigate (units "/")].
Definition handleLogin : trace := [Navigate (units "/login")].

(** The request carries [Bearer ] and the cleaned credential, and that is
    a non-empty string without white space around it. *)
Definition authorized (stored : storage) (r : request) : Prop :=
  ∃ t, getToken stored = Some t ∧ nonempty t = true ∧ trim t = t
       ∧ authorization_of r = bearer t.

(** The trace [w'] continues [w], and the requests it adds are
    authorized. *)
Definition continues (stored : storage) (w w' : trace) : Prop :=
  w `prefix_of` w' ∧ ∀ r, r ∈ requests w' → r ∈ requests w ∨ authorized stored r.

(** The last navigation of a trace, and the last canvas id it set. *)
Definition last_navigation (w : trace) : option (list N) :=
  List.last (omap (λ e, match e with Navigate p => Some (Some p) | _ => None end) w) None.
Definition last_canvasId (w : trace) : option (list N) :=
  List.last (omap (λ e, match e with SetCanvasId c => Some (Some c) | _ => None end) w)
    None.

(** A server that keeps the canvases: the list is what was there at
    first and what was created, without what was deleted; the [n]-th canvas
    created gets the id [c<n>]. *)
Definition fresh_id (n : nat) : list N := units "c" ++ units (pretty n).

Definition created (history : list request) : nat :=
  length (List.filter (λ r, match r with PostCreate _ => true | _ => false end) history).

Fixpoint kept (canvases : list Canvas) (n : nat) (history : list request) : list Canvas :=
  match history with
  | [] => canvases
  | PostCreate _ :: history' =>
      kept (canvases ++ [mkCanvas (fresh_id n) None None]) (S n) history'
  | Delete c _ :: history' =>
      kept (List.filter (λ x, negb (bool_decide (_id x = c))) canvases) n history'
  | _ :: history' => kept canvases n history'
  end.

Definition keeping (initial : list Canvas) (history : list request) : response :=
  match List.last (Some <$> history) None with
  | Some (GetList _) => Resolved (Canvases (kept initial 0 history))
  | Some (PostCreate _) => Resolved (Created (Some (fresh_id (created history - 1))) None None)
  | Some (PutShare _ _ _) => Resolved (Message (Some (units "Canvas shared")))
  | _ => Resolved NoBody
  end.

(** A server on which the list stays empty although canvases are
    created. *)
Definition forgetting (history : list request) : response :=
  match List.last (Some <$> history) None with
  | Some (GetList _) => Resolved (Canvases [])
  | Some (PostCreate _) => Resolved (Created (Some (fresh_id (created history - 1))) None None)
  | _ => Resolved NoBody
  end.

(** A logged-in sidebar with nothing selected, and one showing canvas c0. *)
Definition someToken : list N := units "abc.def".
Definition freshEnv : Env := mkEnv [] None [] (Some someToken).
Definition onlyCanvas : Canvas := mkCanvas (units "only") None None.
Definition onlyEnv : Env := mkEnv (units "only") (Some (units "only")) [] (Some someToken).

End Sidebar.

Module api.

Import http.

(** getAuthToken of utils/api *)
Definition getAuthToken (stored : storage) : option js_string :=
  match stored with
  | None => None
  | Some token =>
      if negb (nonempty token) then None
      else
        let token := trim token in
        let token :=
          if startsWith token (units "Bearer ") then trim (substring token 7) else token in
        Some token
  end.

Inductive api_effect :=
  | Request (r : request)
  | ConsoleError (msg : string)
  | ConsoleLog (msg : string).

(** updateCanvas: what it does and what its promise resolves to
    ([None] is [undefined]); [answer] is the server's answer to the request,
    if one is made. *)
Definition updateCanvas (stored : storage) (canvasId : list N) (elements : val)
    (answer : response) : list api_effect * option body :=
  let token := getAuthToken stored in
  if negb (usable token) then ([ConsoleError "No token available for updateCanvas"], None)
  else
    let r := PutUpdate canvasId elements (bearer (default [] token)) in
    match answer with
    | Resolved data =>
        ([Request r; ConsoleLog "Canvas updated successfully in the database!"], Some data)
    | Rejected _ => ([Request r], None)
    end.

(** fetchInitialCanvasElements *)
Definition fetchInitialCanvasElements (stored : storage) (canvasId : list N)
    (answer : response) : list api_effect * option val :=
  let token := getAuthToken stored in
  if negb (usable token) then
    ([ConsoleError "No token available for fetchInitialCanvasElements"], None)
  else
    let r := GetLoad canvasId (bearer (default [] token)) in
    match answer with
    | Resolved (Elements elements) => ([Request r], Some elements)
    | Resolved _ => ([Request r], None)
    | Rejected _ =>
        ([Request r; ConsoleError "Error fetching initial canvas elements:"], None)
    end.

End api.

(** * Proofs *)

(** ** The heap *)

Lemma array_of_as_array h v xs : array_of h v = Some xs → as_array h v = Ok xs.
Proof.
  destruct v as [| | | | |l]; simpl; try done.
  destruct (h !! l) as [[]|]; naive_solver.
Qed.

Lemma as_array_array_of h v xs : as_array h v = Ok xs → array_of h v = Some xs.
Proof.
  destruct v as [| | | | |l]; simpl; try done.
  destruct (h !! l) as [[]|]; naive_solver.
Qed.

Lemma array_of_iterate h v xs : array_of h v = Some xs → iterate h v = Ok xs.
Proof.
  destruct v as [| | | | |l]; simpl; try done.
  destruct (h !! l) as [[]|]; naive_solver.
Qed.

Lemma isArray_array_of h v : isArray h v = true ↔ is_Some (array_of h v).
Proof.
  destruct v as [| | | | |l]; simpl; try (split; [done | by intros [? ?]]).
  destruct (h !! l) as [[]|]; split; try done; try (by intros [? ?]); eauto.
Qed.

Lemma isArray_truthy h v : isArray h v = true → truthy v = true.
Proof. by destruct v. Qed.

Lemma array_of_length h v xs :
  array_of h v = Some xs → get_prop h v "length" = Ok (VNum (Z.of_nat (length xs))).
Proof.
  destruct v as [| | | | |l]; simpl; try done.
  destruct (h !! l) as [[]|]; naive_solver.
Qed.

Lemma array_of_ext h h' v xs :
  h `prefix_of` h' → array_of h v = Some xs → array_of h' v = Some xs.
Proof.
  intros Hp. destruct v as [| | | | |l]; simpl; try done.
  destruct (h !! l) as [o|] eqn:E; [|done].
  by rewrite (prefix_lookup_Some _ _ _ _ E Hp).
Qed.

Lemma object_of_ext h h' v m :
  h `prefix_of` h' → object_of h v = Some m → object_of h' v = Some m.
Proof.
  intros Hp. destruct v as [| | | | |l]; simpl; try done.
  destruct (h !! l) as [o|] eqn:E; [|done].
  by rewrite (prefix_lookup_Some _ _ _ _ E Hp).
Qed.

Lemma allocated_ext h h' v : h `prefix_of` h' → allocated h v = true → allocated h' v = true.
Proof.
  intros Hp. destruct v; simpl; try done.
  rewrite !bool_decide_eq_true. apply prefix_length in Hp. lia.
Qed.

Lemma lookup_allocated (h h' : heap) (l : loc) :
  h `prefix_of` h' → l < length h → h' !! l = h !! l.
Proof.
  intros [k ->] Hl. by rewrite lookup_app_l.
Qed.

Lemma own_props_ext h h' v :
  h `prefix_of` h' → allocated h v = true → own_props h' v = own_props h v.
Proof.
  intros Hp. destruct v as [| | | | |l]; simpl; try done.
  rewrite bool_decide_eq_true. intros Hl. by rewrite (lookup_allocated h h').
Qed.

Lemma get_prop_ext h h' v k :
  h `prefix_of` h' → allocated h v = true → get_prop h' v k = get_prop h v k.
Proof.
  intros Hp. destruct v as [| | | | |l]; simpl; try done.
  rewrite bool_decide_eq_true. intros Hl. by rewrite (lookup_allocated h h').
Qed.

Lemma isArray_ext h h' v :
  h `prefix_of` h' → allocated h v = true → isArray h' v = isArray h v.
Proof.
  intros Hp. destruct v as [| | | | |l]; simpl; try done.
  rewrite bool_decide_eq_true. intros Hl. by rewrite (lookup_allocated h h').
Qed.

Lemma array_of_ext_eq h h' v :
  h `prefix_of` h' → allocated h v = true → array_of h' v = array_of h v.
Proof.
  intros Hp. destruct v as [| | | | |l]; simpl; try done.
  rewrite bool_decide_eq_true. intros Hl. by rewrite (lookup_allocated h h').
Qed.

Lemma object_of_allocated h v m : object_of h v = Some m → allocated h v = true.
Proof.
  destruct v as [| | | | |l]; simpl; try done.
  destruct (h !! l) eqn:E; [|done]. intros _.
  apply bool_decide_eq_true. by eapply lookup_lt_Some.
Qed.

Lemma array_of_allocated h v xs : array_of h v = Some xs → allocated h v = true.
Proof.
  destruct v as [| | | | |l]; simpl; try done.
  destruct (h !! l) eqn:E; [|done]. intros _.
  apply bool_decide_eq_true. by eapply lookup_lt_Some.
Qed.

Lemma object_of_own_props h v m : object_of h v = Some m → own_props h v = m.
Proof.
  destruct v as [| | | | |l]; simpl; try done.
  by destruct (h !! l) as [[]|]; intros [= ->].
Qed.

(** Reading a property other than [length] goes through the own
    properties. *)
Lemma get_prop_own h v k :
  truthy v = true → k ≠ "length" →
  get_prop h v k = Ok (default VUndef (own_props h v !! k)).
Proof.
  intros Ht Hk. destruct v as [| | | | |l]; simpl in *; try done.
  - destruct (String.eqb_spec k "length"); done.
  - destruct (h !! l) as [[]|]; try done.
    destruct (String.eqb_spec k "length"); done.
Qed.

(** ** The "valid elements" filter *)

Lemma valid_element_truthy h el : valid_element h el = true → truthy el = true.
Proof. unfold valid_element. by destruct (truthy el). Qed.

Lemma valid_element_type_of h el :
  valid_element h el = truthy el && truthy (type_of h el).
Proof.
  unfold valid_element, type_of. destruct (truthy el) eqn:E; [|done].
  rewrite get_prop_own; done.
Qed.

Lemma valid_element_allocated h el : valid_element h el = true → allocated h el = true.
Proof.
  rewrite valid_element_type_of. unfold type_of.
  destruct el as [| | | | |l]; simpl; try done.
  destruct (h !! l) eqn:E; [intros _; apply bool_decide_eq_true; by eapply lookup_lt_Some|].
  done.
Qed.

Lemma valid_element_ext h h' el :
  h `prefix_of` h' → allocated h el = true → valid_element h' el = valid_element h el.
Proof.
  intros Hp Ha. unfold valid_element. by rewrite (get_prop_ext h h').
Qed.

Lemma recognized_type_truthy t : recognized_type t = true → truthy t = true.
Proof.
  unfold recognized_type, strict_eq.
  rewrite !orb_true_iff, !bool_decide_eq_true. intros H.
  repeat destruct H as [H|H]; by subst.
Qed.

Lemma validElements_sublist h xs : validElements h xs `sublist_of` xs.
Proof.
  unfold validElements. induction xs as [|x xs IH]; simpl; [constructor|].
  destruct (valid_element h x); [by apply sublist_skip | by apply sublist_cons].
Qed.

(** C6, as the code has it: the filter keeps, in order, the entries that are
    truthy and carry a truthy [type], whatever that type is; the inbound
    handlers hand over exactly the filtered payload; the mixed list of the
    specification filters to its one line element. *)
Theorem valid_elements_have_type (h : heap) (xs : list val) (payload : val) :
  forallb (λ el, truthy el && truthy (type_of h el)) (validElements h xs) = true
  ∧ validElements h xs `sublist_of` xs
  ∧ validElements h xs = List.filter (λ el, truthy el && truthy (type_of h el)) xs
  ∧ match array_of h payload with
    | Some ys =>
        receiveDrawingUpdate h payload
        = (h ++ [OArr (validElements h ys)], [setElements (VRef (length h))])
        ∧ loadCanvas h payload
          = (h ++ [OArr (validElements h ys)] ++ [OArr [VRef (length h)]],
             [setElements (VRef (length h)); setHistory (VRef (S (length h)))])
    | None => receiveDrawingUpdate h payload = (h, []) ∧ loadCanvas h payload = (h, [])
    end
  ∧ validElements mixedHeap mixedList = [VRef 0].
Proof.
  assert (Hf : validElements h xs
               = List.filter (λ el, truthy el && truthy (type_of h el)) xs).
  { unfold validElements. apply List.filter_ext. intros el. apply valid_element_type_of. }
  split_and!.
  - rewrite Hf. apply forallb_forall. intros el Hin.
    by apply List.filter_In in Hin as [_ ?].
  - apply validElements_sublist.
  - done.
  - destruct (array_of h payload) as [ys|] eqn:E.
    + unfold receiveDrawingUpdate, loadCanvas.
      assert (isArray h payload = true) as Ha by (apply isArray_array_of; eauto).
      rewrite Ha, (isArray_truthy _ _ Ha), (array_of_as_array _ _ _ E). simpl.
      rewrite length_app, <- app_assoc. simpl.
      by replace (length h + 1) with (S (length h)) by lia.
    + unfold receiveDrawingUpdate, loadCanvas.
      destruct (isArray h payload) eqn:Ha.
      * apply isArray_array_of in Ha as [? ?]. congruence.
      * by rewrite andb_false_r.
  - by vm_compute.
Qed.

(** C6, as the specification words it, fails: an element whose [type] is
    not one of the six passes the filter. *)
Lemma valid_elements_not_all_recognized :
  ¬ (∀ (h : heap) (xs : list val),
       forallb (λ el, recognized_type (type_of h el)) (validElements h xs) = true).
Proof.
  intros H. specialize (H hexagonHeap [VRef 0]). by vm_compute in H.
Qed.

(** ** The canvas session *)

Lemma strict_eq_refl v : strict_eq v v = true.
Proof. by apply bool_decide_eq_true. Qed.

Lemma strict_eq_true a b : strict_eq a b = true ↔ a = b.
Proof. apply bool_decide_eq_true. Qed.

Lemma strict_eq_false a b : strict_eq a b = false ↔ a ≠ b.
Proof. apply bool_decide_eq_false. Qed.

(** A re-render of the same canvas runs neither the socket effect nor the
    load effect. *)
Lemma commit_same_id h b newState connected token :
  commit h b (id b) newState connected token
  = (h,
     (if negb (strict_eq (elements (boardState b)) (elements newState))
      then syncRefEffect (with_render b (id b) newState)
      else with_render b (id b) newState),
     []).
Proof. unfold commit. by rewrite strict_eq_refl. Qed.

Lemma syncRefEffect_fields b :
  id (syncRefEffect b) = id b
  ∧ isAuthorized (syncRefEffect b) = isAuthorized b
  ∧ unauthorizedRetryCount (syncRefEffect b) = unauthorizedRetryCount b
  ∧ boardState (syncRefEffect b) = boardState b.
Proof. unfold syncRefEffect. by case_match. Qed.

Lemma handleUnauthorized_payload h b data :
  has_payload data = true →
  handleUnauthorized h b data
  = if bool_decide (unauthorizedRetryCount b = 0) then
      Ok (with_retryCount b (S (unauthorizedRetryCount b)),
          [ConsoleLog "Unauthorized access:"; SetTimeout (RetryJoinCanvas (id b)) 500])
    else
      Ok (with_authorized b false,
          [ConsoleLog "Unauthorized access:";
           Alert "Access Denied: You cannot edit this canvas."]).
Proof.
  intros Hd. unfold handleUnauthorized.
  destruct data as [| | | | |l]; try done.
  simpl. by destruct (h !! l) as [[]|].
Qed.

Lemma filter_dispatch (p : effect → bool) (acts : list action) :
  (∀ a, p (Dispatch a) = false) → List.filter p (Dispatch <$> acts) = [].
Proof.
  intros Hp. induction acts as [|a acts IH]; simpl; [done|]. by rewrite Hp.
Qed.

(** Outside the unauthorized listener nothing touches the retry counter,
    the authorization flag or the canvas identity, and nothing schedules a
    join or raises a notice. *)
Lemma session_step_quiet tb h b ev :
  is_unauthorized ev = false →
  let '(_, b', out) := session_step tb h b ev in
  id b' = id b ∧ isAuthorized b' = isAuthorized b
  ∧ unauthorizedRetryCount b' = unauthorizedRetryCount b
  ∧ List.filter is_join_retry out = [] ∧ List.filter is_denial out = [].
Proof.
  intros Hev. destruct ev as [d|c e|c e| |[c|c]| |ck key|p|p|p|st]; try done; simpl.
  - split_and!; try done; unfold handleMouseDown;
      destruct (isAuthorized b); simpl; try done; by apply filter_dispatch.
  - split_and!; try done; unfold handleMouseMove;
      destruct (isAuthorized b); simpl; try done;
      rewrite List.filter_app, filter_dispatch; done.
  - split_and!; try done; unfold handleMouseUp;
      destruct (isAuthorized b); simpl; try done;
      rewrite List.filter_app, filter_dispatch; done.
  - by destruct (listensConnect b).
  - destruct (ck && (key =? "z")%string); [done|].
    by destruct (ck && (key =? "y")%string).
  - unfold receiveDrawingUpdate.
    destruct (truthy p && isArray h p); [|done]. by destruct (as_array h p).
  - unfold loadCanvas.
    destruct (truthy p && isArray h p); [|done]. by destruct (as_array h p).
  - unfold loadResponse.
    destruct (truthy p); [|done]. by destruct (as_array h p).
  - rewrite commit_same_id. case_match; [|done].
    destruct (syncRefEffect_fields (with_render b (id b) st)) as (-> & -> & -> & _).
    done.
Qed.

Lemma session_run_quiet tb evs : ∀ h b,
  forallb (λ ev, negb (is_unauthorized ev)) evs = true →
  let '(_, b', out) := session_run tb h b evs in
  id b' = id b ∧ isAuthorized b' = isAuthorized b
  ∧ unauthorizedRetryCount b' = unauthorizedRetryCount b
  ∧ List.filter is_join_retry out = [] ∧ List.filter is_denial out = [].
Proof.
  induction evs as [|ev evs IH]; intros h b Hq; simpl; [done|].
  simpl in Hq. apply andb_true_iff in Hq as [Hev Hq]. apply negb_true_iff in Hev.
  pose proof (session_step_quiet tb h b ev Hev) as Hs.
  destruct (session_step tb h b ev) as [[h1 b1] out1].
  specialize (IH h1 b1 Hq).
  destruct (session_run tb h1 b1 evs) as [[h2 b2] out2].
  destruct Hs as (E1 & E2 & E3 & Hj & Hd), IH as (F1 & F2 & F3 & Hj' & Hd').
  rewrite !List.filter_app, Hj, Hj', Hd, Hd', F1, F2, F3. done.
Qed.

(** Once the authorization flag is down, no event of the session raises it
    and no pointer handler broadcasts. *)
Lemma session_step_read_only tb h b ev :
  isAuthorized b = false →
  let '(_, b', out) := session_step tb h b ev in
  isAuthorized b' = false ∧ List.filter is_broadcast out = [].
Proof.
  intros Ha. destruct ev as [d|c e|c e| |[c|c]| |ck key|p|p|p|st]; simpl.
  - unfold handleUnauthorized.
    destruct (get_prop h d "message"); simpl; try done.
    case_bool_decide; done.
  - unfold handleMouseDown. by rewrite Ha.
  - unfold handleMouseMove. by rewrite Ha.
  - unfold handleMouseUp. by rewrite Ha.
  - done.
  - done.
  - by destruct (listensConnect b).
  - destruct (ck && (key =? "z")%string); [done|].
    by destruct (ck && (key =? "y")%string).
  - unfold receiveDrawingUpdate.
    destruct (truthy p && isArray h p); [|done]. by destruct (as_array h p).
  - unfold loadCanvas.
    destruct (truthy p && isArray h p); [|done]. by destruct (as_array h p).
  - unfold loadResponse.
    destruct (truthy p); [|done]. by destruct (as_array h p).
  - rewrite commit_same_id. case_match; [|done].
    destruct (syncRefEffect_fields (with_render b (id b) st)) as (_ & -> & _).
    done.
Qed.

Lemma session_run_read_only tb evs : ∀ h b,
  isAuthorized b = false →
  List.filter is_broadcast (session_run tb h b evs).2 = [].
Proof.
  induction evs as [|ev evs IH]; intros h b Ha; simpl; [done|].
  pose proof (session_step_read_only tb h b ev Ha) as Hs.
  destruct (session_step tb h b ev) as [[h1 b1] out1].
  destruct Hs as [Ha1 Hb1]. specialize (IH h1 b1 Ha1).
  destruct (session_run tb h1 b1 evs) as [[h2 b2] out2].
  simpl in *. by rewrite List.filter_app, Hb1, IH.
Qed.

Lemma session_run_app tb evs1 evs2 h b :
  session_run tb h b (evs1 ++ evs2)
  = let '(h1, b1, out1) := session_run tb h b evs1 in
    let '(h2, b2, out2) := session_run tb h1 b1 evs2 in
    (h2, b2, out1 ++ out2).
Proof.
  revert h b. induction evs1 as [|ev evs1 IH]; intros h b; simpl.
  - by destruct (session_run tb h b evs2) as [[? ?] ?].
  - destruct (session_step tb h b ev) as [[h1 b1] out1].
    rewrite IH.
    destruct (session_run tb h1 b1 evs1) as [[h2 b2] out2].
    destruct (session_run tb h2 b2 evs2) as [[h3 b3] out3].
    by rewrite app_assoc.
Qed.

(** C7: in a session that has not yet been refused, a first authorization
    failure schedules exactly one join retry (after 500 ms) and no notice;
    the next failure, whatever else happens in between, raises the one
    denial notice and schedules nothing; from then on no event of the
    session makes a pointer handler broadcast. *)
Theorem second_unauthorized_is_terminal
    (toolboxState : val → option ToolStyle) (h : heap) (b : Board)
    (data1 data2 : val) (between : list session_event) :
  unauthorizedRetryCount b = 0 →
  has_payload data1 = true →
  has_payload data2 = true →
  forallb (λ ev, negb (is_unauthorized ev)) between = true →
  ∃ h' b' out,
    session_run toolboxState h b (Unauthorized data1 :: between ++ [Unauthorized data2])
    = (h', b', out)
    ∧ List.filter is_join_retry out = [SetTimeout (RetryJoinCanvas (id b)) 500]
    ∧ List.filter is_denial out = [Alert "Access Denied: You cannot edit this canvas."]
    ∧ List.filter is_broadcast
        (session_step toolboxState h b (Unauthorized data1)).2 = []
    ∧ isAuthorized b' = false
    ∧ ∀ h'' later,
        List.filter is_broadcast (session_run toolboxState h'' b' later).2 = [].
Proof.
  intros Hc Hd1 Hd2 Hq.
  cbn [session_run session_step].
  rewrite (handleUnauthorized_payload _ _ _ Hd1), Hc. simpl bool_decide. cbv iota.
  rewrite session_run_app.
  set (b1 := with_retryCount b 1).
  pose proof (session_run_quiet toolboxState between h b1 Hq) as Hb.
  destruct (session_run toolboxState h b1 between) as [[h2 b2] out2].
  destruct Hb as (Hid & Hau & Hrc & Hj & Hd).
  cbn [session_run session_step].
  rewrite (handleUnauthorized_payload _ _ _ Hd2), Hrc. simpl.
  eexists _, _, _. split; [reflexivity|].
  split_and!.
  - simpl. by rewrite List.filter_app, Hj.
  - simpl. by rewrite List.filter_app, Hd.
  - done.
  - done.
  - intros h'' later. by apply session_run_read_only.
Qed.

(** ** Switching canvases *)

Lemma socketEffect_fields h b connected :
  id (socketEffect h b connected).1.2 = id b
  ∧ boardState (socketEffect h b connected).1.2 = boardState b.
Proof. unfold socketEffect. by destruct (truthy (id b)). Qed.

Lemma syncRefEffect_in_sync b :
  has_payload (id b) = true → ref_in_sync (syncRefEffect b).
Proof.
  unfold has_payload, ref_in_sync, syncRefEffect. by intros ->.
Qed.

(** The side reference follows every render of a canvas: the sync effect
    runs whenever the canvas or the elements change. *)
Lemma commit_ref_in_sync h b newId newState connected token :
  has_payload newId = true →
  ref_in_sync b →
  ref_in_sync (commit h b newId newState connected token).1.2.
Proof.
  intros Hid Hb. unfold commit.
  destruct (strict_eq (id b) newId) eqn:Ei; cbn [negb andb orb].
  - apply strict_eq_true in Ei.
    destruct (strict_eq (elements (boardState b)) (elements newState)) eqn:Ee;
      cbn [negb andb orb fst snd].
    + apply strict_eq_true in Ee. unfold ref_in_sync in *. simpl. by rewrite Hb, Ei, Ee.
    + by apply syncRefEffect_in_sync.
  - set (b0 := with_render _ newId newState).
    destruct (socketEffect_fields h b0 connected) as [E1 E2].
    destruct (socketEffect h b0 connected) as [[h1 b1] out1]. simpl in E1, E2.
    destruct (loadEffect h1 (syncRefEffect b1) token) as [h2 out3].
    cbn [fst snd]. apply syncRefEffect_in_sync. by rewrite E1.
Qed.

Lemma mount_ref_in_sync h newId newState connected token :
  has_payload newId = true →
  ref_in_sync (mount h newId newState connected token).1.2.
Proof.
  intros Hid. unfold mount. cbn [alloc].
  set (b0 := mkBoard newId newState _ _ _ _).
  destruct (socketEffect_fields (h ++ [OArr []]) b0 connected) as [E1 E2].
  destruct (socketEffect (h ++ [OArr []]) b0 connected) as [[h1 b1] out1].
  simpl in E1, E2.
  destruct (loadEffect h1 (syncRefEffect b1) token) as [h2 out3].
  cbn [fst snd]. apply syncRefEffect_in_sync. by rewrite E1.
Qed.

Lemma loadEffect_trace h b token :
  ∃ h' e1 e2 tail,
    loadEffect h b token = (h', [setElements e1; setHistory e2] ++ tail)
    ∧ List.filter is_broadcast tail = []
    ∧ List.filter is_clear tail = [].
Proof.
  unfold loadEffect. cbn [alloc clearCanvas].
  destruct (truthy (id b)); cbn [negb].
  - destruct (truthy token); cbn [negb]; eexists _, _, _, _; split; try reflexivity; done.
  - eexists _, _, _, []; split; try reflexivity; done.
Qed.


(** ** The deep copy *)

Lemma result_bind_ok {A B} (f : A → result B) (a : A) : Ok a ≫= f = f a.
Proof. done. Qed.

Lemma lookup_alloc (h : heap) (o : obj) : (h ++ [o]) !! length h = Some o.
Proof. by rewrite lookup_app_r, Nat.sub_diag. Qed.

Lemma array_of_alloc_obj (h : heap) m v : array_of (h ++ [OObj m]) v = array_of h v.
Proof.
  destruct v as [| | | | |l]; simpl; try done.
  destruct (decide (l < length h)) as [Hl|Hl].
  - by rewrite lookup_app_l.
  - rewrite (lookup_ge_None_2 h l) by lia.
    destruct (decide (l = length h)) as [->|].
    + by rewrite lookup_alloc.
    + rewrite lookup_ge_None_2; [done|]. rewrite length_app. simpl. lia.
Qed.

Lemma own_props_self_alloc (h : heap) el :
  own_props (h ++ [OObj (own_props h el)]) el = own_props h el.
Proof.
  destruct el as [| | | | |l]; simpl; try done.
  destruct (decide (l < length h)) as [Hl|Hl].
  - by rewrite lookup_app_l.
  - rewrite (lookup_ge_None_2 h l) by lia.
    destruct (decide (l = length h)) as [->|].
    + by rewrite lookup_alloc.
    + rewrite lookup_ge_None_2; [done|]. rewrite length_app. simpl. lia.
Qed.

Lemma copy_point_eq h p :
  copy_point h p = Ok (h ++ [OObj (own_props h p)], VRef (length h)).
Proof. done. Qed.

Lemma copy_points_exact ps : ∀ h,
  map_heap copy_point h ps
  = Ok (h ++ point_cells h ps, VRef <$> seq (length h) (length ps)).
Proof.
  induction ps as [|p ps IH]; intros h; cbn [map_heap point_cells].
  - by rewrite app_nil_r.
  - rewrite copy_point_eq, result_bind_ok.
    rewrite IH, result_bind_ok, <- app_assoc, length_app. simpl.
    by rewrite Nat.add_1_r.
Qed.

Lemma point_cells_length ps : ∀ h, length (point_cells h ps) = length ps.
Proof. induction ps as [|p ps IH]; intros h; simpl; [done|]. by rewrite IH. Qed.

Lemma point_cells_allocated ps : ∀ h,
  forallb (allocated h) ps = true →
  point_cells h ps = (λ p, OObj (own_props h p)) <$> ps.
Proof.
  induction ps as [|p ps IH]; intros h Hps; simpl; [done|].
  simpl in Hps. apply andb_true_iff in Hps as [Hp Hps].
  assert (Hpre : h `prefix_of` h ++ [OObj (own_props h p)]) by by eexists.
  rewrite IH.
  - f_equal. apply list_fmap_ext. intros i q Hq. f_equal.
    apply own_props_ext; [done|].
    eapply forallb_forall in Hps; [done|]. apply list_elem_of_In. by eapply list_elem_of_lookup_2.
  - apply forallb_forall. intros q Hq. eapply allocated_ext; [done|].
    eapply forallb_forall in Hps; done.
Qed.

Lemma copy_element_exact h el :
  truthy el = true →
  copy_element h el = Ok (h ++ copy_cells h el, VRef (length h)).
Proof.
  intros Ht. unfold copy_element, copy_cells. cbn [alloc].
  rewrite get_prop_own by done. rewrite result_bind_ok, own_props_self_alloc.
  set (m := own_props h el).
  destruct (m !! "points") as [pv|] eqn:Ep; simpl; [|done].
  destruct (array_of h pv) as [ps|] eqn:Ea; simpl.
  - assert (Ha1 : array_of (h ++ [OObj m]) pv = Some ps) by by rewrite array_of_alloc_obj.
    assert (isArray (h ++ [OObj m]) pv = true) as Hi by (apply isArray_array_of; eauto).
    rewrite Hi, (isArray_truthy _ _ Hi). simpl.
    rewrite (array_of_as_array _ _ _ Ha1), result_bind_ok.
    rewrite copy_points_exact, result_bind_ok.
    rewrite <- !app_assoc. rewrite lookup_app_r by lia. rewrite Nat.sub_diag. simpl.
    rewrite insert_app_r_alt by lia. rewrite Nat.sub_diag. simpl.
    rewrite !length_app. cbn [length]. rewrite point_cells_length.
    replace (length h + S (length ps)) with (length h + 1 + length ps) by lia.
    by rewrite (Nat.add_1_r (length h)).
  - destruct (isArray (h ++ [OObj m]) pv) eqn:Hi.
    + apply isArray_array_of in Hi as [ps Hps]. rewrite array_of_alloc_obj in Hps. congruence.
    + by rewrite andb_false_r.
Qed.

Lemma copy_elements_exact els : ∀ h,
  forallb truthy els = true →
  map_heap copy_element h els = Ok (h ++ copies_cells h els, copies_refs h els).
Proof.
  induction els as [|el els IH]; intros h Hels; cbn [map_heap copies_cells copies_refs].
  - by rewrite app_nil_r.
  - simpl in Hels. apply andb_true_iff in Hels as [Hel Hels].
    rewrite copy_element_exact, result_bind_ok by done.
    rewrite IH, result_bind_ok, <- app_assoc by done. done.
Qed.

Lemma validElements_truthy h xs : forallb truthy (validElements h xs) = true.
Proof.
  apply forallb_forall. intros el Hin. apply List.filter_In in Hin as [_ Hv].
  by eapply valid_element_truthy.
Qed.

(** ** The reducer, case by case *)

Lemma history_typed_entries h s :
  history_typed h s = true →
  currentHistory h s = Ok (history_entries h s).
Proof.
  unfold history_typed, currentHistory, history_entries. intros Ht.
  destruct (truthy (history s)) eqn:E; simpl in Ht.
  - apply isArray_array_of in Ht as [hs Hs]. rewrite Hs. simpl.
    by apply array_of_as_array.
  - destruct (history s); simpl in *; try done.
Qed.

Lemma history_typed_ext h h' s :
  h `prefix_of` h' → history_typed h s = true →
  history_typed h' s = true ∧ history_entries h' s = history_entries h s.
Proof.
  unfold history_typed, history_entries. intros Hp Ht.
  destruct (truthy (history s)) eqn:E; simpl in *.
  - apply isArray_array_of in Ht as [hs Hs].
    assert (Hs' := array_of_ext _ _ _ _ Hp Hs). rewrite Hs, Hs'. split; [|done].
    apply isArray_array_of. eauto.
  - destruct (history s); simpl in *; try done.
Qed.

Lemma push_history_exact h s snapshot :
  history_typed h s = true →
  push_history h s snapshot
  = Ok (h ++ [OArr (slice0 (history_entries h s) (index s + 1) ++ [snapshot])],
        VRef (length h)).
Proof.
  intros Ht. unfold push_history. by rewrite history_typed_entries.
Qed.

Section ReducerCases.

Variable near : heap → val → Z → Z → bool.

(** [DRAW_UP]: the heap grows by the copies of the valid elements, the
    array of them and the new history array. *)
Lemma draw_up_exact h s xs :
  array_of h (elements s) = Some xs →
  history_typed h s = true →
  let valid := validElements h xs in
  let h1 := h ++ copies_cells h valid in
  boardReducer near h s DRAW_UP
  = Ok (h1 ++ [OArr (copies_refs h valid)]
           ++ [OArr (slice0 (history_entries h s) (index s + 1)
                     ++ [VRef (length h1)])],
        with_history s (VRef (S (length h1))) (index s + 1)).
Proof.
  intros Hx Ht valid h1. cbn [boardReducer].
  rewrite (array_of_as_array _ _ _ Hx), result_bind_ok.
  rewrite copy_elements_exact, result_bind_ok by apply validElements_truthy.
  cbn [alloc]. fold valid. fold h1.
  assert (Hp : h `prefix_of` h1 ++ [OArr (copies_refs h valid)]).
  { unfold h1. rewrite <- app_assoc. by eexists. }
  destruct (history_typed_ext _ _ _ Hp Ht) as [Ht' He'].
  rewrite push_history_exact, result_bind_ok by done.
  rewrite He', length_app, <- app_assoc. simpl. by rewrite Nat.add_1_r.
Qed.

(** [ERASE]: one new array, which is both the live collection and the
    snapshot pushed. *)
Lemma erase_exact h s x y xs :
  array_of h (elements s) = Some xs →
  history_typed h s = true →
  boardReducer near h s (ERASE x y)
  = Ok (h ++ [OArr (List.filter (erase_keeps near h x y) xs)]
          ++ [OArr (slice0 (history_entries h s) (index s + 1)
                    ++ [VRef (length h)])],
        with_history (with_elements s (VRef (length h))) (VRef (S (length h)))
          (index s + 1)).
Proof.
  intros Hx Ht. cbn [boardReducer].
  rewrite (array_of_as_array _ _ _ Hx), result_bind_ok. cbn [alloc].
  assert (Hp : h `prefix_of` h ++ [OArr (List.filter (erase_keeps near h x y) xs)])
    by by eexists.
  destruct (history_typed_ext _ _ s Hp Ht) as [Ht' He'].
  rewrite push_history_exact, result_bind_ok by done.
  rewrite He', length_app, <- app_assoc. simpl. by rewrite Nat.add_1_r.
Qed.

(** The common path of [UNDO] and [REDO]. *)
Lemma restore_exact h s snapshot xs i :
  array_of h snapshot = Some xs →
  let valid := validElements h xs in
  let h1 := h ++ copies_cells h valid in
  restore h s snapshot i
  = Ok (h1 ++ [OArr (copies_refs h valid)],
        with_index (with_elements s (VRef (length h1))) i).
Proof.
  intros Hx valid h1. unfold restore.
  rewrite (array_of_as_array _ _ _ Hx), result_bind_ok.
  rewrite copy_elements_exact, result_bind_ok by apply validElements_truthy.
  done.
Qed.

End ReducerCases.

Lemma slice0_length {A} (xs : list A) (e : Z) :
  (0 ≤ e ≤ Z.of_nat (length xs))%Z → length (slice0 xs e) = Z.to_nat e.
Proof.
  intros He. unfold slice0. destruct (Z.ltb_spec e 0); [lia|].
  rewrite length_take. lia.
Qed.

Lemma slice0_take {A} (xs : list A) (e : Z) :
  (0 ≤ e)%Z → slice0 xs e = take (Z.to_nat e) xs.
Proof. intros He. unfold slice0. by destruct (Z.ltb_spec e 0); [lia|]. Qed.

Lemma history_entries_with_history h s l i hs :
  h !! l = Some (OArr hs) →
  history_entries h (with_history s (VRef l) i) = hs.
Proof. unfold history_entries. simpl. by intros ->. Qed.

Lemma history_length_entries h s :
  history_length h s = Z.of_nat (length (history_entries h s)).
Proof. unfold history_length, history_entries. by destruct (array_of h (history s)). Qed.



Section HistoryMoves.

Variable near : heap → val → Z → Z → bool.

Lemma get_index_array h v xs i x :
  array_of h v = Some xs → (0 ≤ i)%Z → xs !! Z.to_nat i = Some x →
  get_index h v (Some i) = x.
Proof.
  intros Hv Hi Hx. destruct v as [| | | | |l]; simpl in *; try done.
  destruct (h !! l) as [[]|]; simplify_eq.
  destruct (Z.ltb_spec i 0); [lia|]. by rewrite Hx.
Qed.

Lemma get_index_array_out h v xs i :
  array_of h v = Some xs → (i < 0 ∨ Z.of_nat (length xs) ≤ i)%Z →
  get_index h v (Some i) = VUndef.
Proof.
  intros Hv Hi. destruct v as [| | | | |l]; simpl in *; try done.
  destruct (h !! l) as [[]|]; simplify_eq.
  destruct (Z.ltb_spec i 0); [done|].
  rewrite lookup_ge_None_2; [done|lia].
Qed.

Lemma array_of_truthy h v xs : array_of h v = Some xs → truthy v = true.
Proof. by destruct v. Qed.

(** [UNDO] with a cursor above 0 and a target that is a sequence. *)
Lemma undo_restores h s hs snapshot xs :
  array_of h (history s) = Some hs →
  (0 < index s)%Z →
  hs !! Z.to_nat (index s - 1) = Some snapshot →
  array_of h snapshot = Some xs →
  boardReducer near h s UNDO = restore h s snapshot (index s - 1).
Proof.
  intros Hh Hi Hs Hx. cbn [boardReducer].
  rewrite (array_of_truthy _ _ _ Hh). cbn [negb].
  rewrite (array_of_length _ _ _ Hh), result_bind_ok.
  assert (length hs ≠ 0) by (apply lookup_lt_Some in Hs; lia).
  unfold strict_eq at 1. rewrite bool_decide_eq_false_2 by (intros [=]; lia).
  destruct (Z.leb_spec (index s) 0); [lia|].
  rewrite (get_index_array _ _ _ _ snapshot Hh) by (done || lia).
  rewrite (array_of_truthy _ _ _ Hx).
  assert (isArray h snapshot = true) as -> by (apply isArray_array_of; eauto).
  done.
Qed.

(** [REDO] with a cursor below the last index and a target that is a
    sequence. *)
Lemma redo_restores h s hs snapshot xs :
  array_of h (history s) = Some hs →
  (index s < Z.of_nat (length hs) - 1)%Z →
  get_index h (history s) (Some (index s + 1)%Z) = snapshot →
  array_of h snapshot = Some xs →
  boardReducer near h s REDO = restore h s snapshot (index s + 1).
Proof.
  intros Hh Hi Hs Hx. cbn [boardReducer].
  rewrite (array_of_truthy _ _ _ Hh). cbn [negb].
  rewrite (array_of_length _ _ _ Hh), result_bind_ok.
  destruct (decide (length hs = 0)) as [E0|E0].
  { exfalso. rewrite (get_index_array_out _ _ hs) in Hs by (done || lia).
    by subst. }
  unfold strict_eq at 1. rewrite bool_decide_eq_false_2 by (intros [=]; lia).
  cbn [minus_one]. rewrite result_bind_ok. cbn [geb_nan].
  destruct (Z.leb_spec (Z.of_nat (length hs) - 1) (index s)); [lia|].
  rewrite Hs, (array_of_truthy _ _ _ Hx).
  assert (isArray h snapshot = true) as -> by (apply isArray_array_of; eauto).
  done.
Qed.

(** What a restore leaves behind: the old heap untouched, a fresh live
    array, the history array where it was. *)
Lemma restore_moves h s snapshot xs i :
  array_of h snapshot = Some xs →
  ∃ h' l,
    restore h s snapshot i = Ok (h', with_index (with_elements s (VRef l)) i)
    ∧ h `prefix_of` h'
    ∧ length h ≤ l
    ∧ h' !! l = Some (OArr (copies_refs h (validElements h xs))).
Proof.
  intros Hx. rewrite (restore_exact h s snapshot xs i Hx).
  eexists _, _. split; [reflexivity|]. split_and!.
  - rewrite <- app_assoc. by eexists.
  - rewrite length_app. lia.
  - by rewrite lookup_app_r, Nat.sub_diag.
Qed.

(** What a push leaves behind. *)
Lemma draw_up_pushes h s xs :
  array_of h (elements s) = Some xs →
  history_typed h s = true →
  ∃ h' l snapshot,
    boardReducer near h s DRAW_UP
    = Ok (h', with_history s (VRef l) (index s + 1))
    ∧ h `prefix_of` h'
    ∧ length h ≤ l
    ∧ h' !! l = Some (OArr (slice0 (history_entries h s) (index s + 1) ++ [VRef snapshot]))
    ∧ length h ≤ snapshot
    ∧ h' !! snapshot = Some (OArr (copies_refs h (validElements h xs)))
    ∧ (h ++ copies_cells h (validElements h xs)) `prefix_of` h'.
Proof.
  intros Hx Ht. rewrite (draw_up_exact near h s xs Hx Ht).
  eexists _, _, _. split; [reflexivity|].
  set (h1 := h ++ copies_cells h (validElements h xs)). split_and!.
  - unfold h1. rewrite <- app_assoc. by eexists.
  - unfold h1. rewrite length_app. lia.
  - rewrite app_assoc, lookup_app_r; rewrite length_app; simpl; [|lia].
    by replace (S (length h1) - (length h1 + 1)) with 0 by lia.
  - unfold h1. rewrite length_app. lia.
  - fold h1. rewrite lookup_app_r by lia. by rewrite Nat.sub_diag.
  - by eexists.
Qed.

End HistoryMoves.

Lemma history_length_array h s :
  history_length h s ≠ 0%Z →
  array_of h (history s) = Some (history_entries h s).
Proof.
  unfold history_length, history_entries.
  by destruct (array_of h (history s)).
Qed.

Lemma array_of_history_typed h s hs :
  array_of h (history s) = Some hs → history_typed h s = true.
Proof.
  intros Hh. unfold history_typed.
  assert (isArray h (history s) = true) as -> by (apply isArray_array_of; eauto).
  apply orb_true_r.
Qed.

Lemma index_in_bounds_array h s :
  index_in_bounds h s = true →
  array_of h (history s) = Some (history_entries h s)
  ∧ (0 ≤ index s < Z.of_nat (length (history_entries h s)))%Z.
Proof.
  unfold index_in_bounds, history_entries.
  destruct (array_of h (history s)) as [hs|]; [|done]. simpl.
  rewrite andb_true_iff, Z.leb_le, Z.ltb_lt. done.
Qed.

Lemma valid_snapshot_array h v :
  valid_snapshot h v = true → ∃ xs, array_of h v = Some xs.
Proof.
  unfold valid_snapshot. rewrite andb_true_iff. intros [_ Ha].
  by apply isArray_array_of in Ha.
Qed.

(** C2: with the cursor inside the log, a push keeps the entries up to the
    cursor, appends the new snapshot and leaves the cursor on it; from five
    snapshots with the cursor on the last, two undos (cursor at 2) and a
    push give four snapshots with the cursor at 3. *)
Theorem push_prunes_redo_branch
    (near : heap → val → Z → Z → bool) (h : heap) (s : BoardState) :
  (∀ xs, array_of h (elements s) = Some xs →
         index_in_bounds h s = true →
         ∃ h' s' snapshot,
           boardReducer near h s DRAW_UP = Ok (h', s')
           ∧ history_entries h' s'
             = take (S (Z.to_nat (index s))) (history_entries h s) ++ [snapshot]
           ∧ index s' = (history_length h' s' - 1)%Z)
  ∧ (history_length h s = 5%Z →
     index s = 4%Z →
     forallb (valid_snapshot h) (history_entries h s) = true →
     ∃ h2 s2 h3 s3,
       dispatch_all near h s [UNDO; UNDO] = Ok (h2, s2)
       ∧ index s2 = 2%Z
       ∧ boardReducer near h2 s2 DRAW_UP = Ok (h3, s3)
       ∧ history_length h3 s3 = 4%Z
       ∧ index s3 = 3%Z).
Proof.
  split.
  - intros xs Hx Hb. apply index_in_bounds_array in Hb as [Hh Hi].
    destruct (draw_up_pushes near h s xs Hx (array_of_history_typed _ _ _ Hh))
      as (h' & l & snap & -> & Hp & Hl & Hhist & _).
    eexists _, _, _. split; [reflexivity|].
    rewrite history_length_entries.
    rewrite (history_entries_with_history _ _ _ _ _ Hhist).
    rewrite slice0_take by lia. split.
    + by replace (Z.to_nat (index s + 1)) with (S (Z.to_nat (index s))) by lia.
    + cbn [index with_history]. rewrite length_app, length_take. simpl. lia.
  - intros Hlen Hidx Hvalid.
    assert (Hh : array_of h (history s) = Some (history_entries h s))
      by (apply history_length_array; lia).
    set (hs := history_entries h s) in *.
    rewrite history_length_entries in Hlen. fold hs in Hlen.
    assert (Hsnap : ∀ i, i < 5 → ∃ v xs, hs !! i = Some v ∧ array_of h v = Some xs).
    { intros i Hi. destruct (lookup_lt_is_Some_2 hs i) as [v Hv]; [lia|].
      exists v. eapply forallb_forall in Hvalid;
        [|apply list_elem_of_In; by eapply list_elem_of_lookup_2].
      apply valid_snapshot_array in Hvalid as [xs Hxs]. eauto. }
    (* first undo *)
    destruct (Hsnap 3) as (v3 & xs3 & Hv3 & Hx3); [lia|].
    cbn [dispatch_all].
    rewrite (undo_restores near h s hs v3 xs3) by (done || lia || (rewrite Hidx; done)).
    destruct (restore_moves h s v3 xs3 (index s - 1) Hx3) as (h1 & l1 & -> & Hp1 & _ & Hl1).
    rewrite result_bind_ok. set (s1 := with_index (with_elements s (VRef l1)) (index s - 1)).
    (* second undo *)
    destruct (Hsnap 2) as (v2 & xs2 & Hv2 & Hx2); [lia|].
    assert (Hh1 : array_of h1 (history s1) = Some hs) by by eapply array_of_ext.
    assert (Hx2' : array_of h1 v2 = Some xs2) by by eapply array_of_ext.
    rewrite (undo_restores near h1 s1 hs v2 xs2)
      by (done || (cbn; lia) || (cbn; rewrite Hidx; done)).
    destruct (restore_moves h1 s1 v2 xs2 (index s1 - 1) Hx2')
      as (h2 & l2 & -> & Hp2 & _ & Hl2).
    rewrite result_bind_ok.
    set (s2 := with_index (with_elements s1 (VRef l2)) (index s1 - 1)).
    (* the push *)
    assert (Hh2 : array_of h2 (history s2) = Some hs) by by eapply array_of_ext.
    assert (He2 : array_of h2 (elements s2) = Some (copies_refs h1 (validElements h1 xs2))).
    { cbn. by rewrite Hl2. }
    destruct (draw_up_pushes near h2 s2 _ He2 (array_of_history_typed _ _ _ Hh2))
      as (h3 & l3 & snap & Hup & _ & _ & Hhist & _).
    eexists _, _, _, _. split; [reflexivity|]. split; [cbn; lia|].
    split; [exact Hup|].
    rewrite history_length_entries.
    rewrite (history_entries_with_history _ _ _ _ _ Hhist).
    assert (Hi2 : index s2 = 2%Z) by (cbn; lia).
    assert (He : history_entries h2 s2 = hs) by (unfold history_entries; by rewrite Hh2).
    rewrite He, Hi2. cbn [index with_history].
    rewrite length_app, slice0_length by lia. simpl. lia.
Qed.

Section UndoRedo.

Variable near : heap → val → Z → Z → bool.






End UndoRedo.


(** ** Gesture end: what is copied and what is not *)


Lemma is_copy_of_ext h h' h'' el c :
  h' `prefix_of` h'' → is_copy_of h h' el c → is_copy_of h h'' el c.
Proof.
  intros Hp (l & m & -> & Hl & Hm & Hk). exists l, m. split_and!; try done.
  by eapply prefix_lookup_Some.
Qed.


Lemma validElements_allocated h xs : forallb (allocated h) (validElements h xs) = true.
Proof.
  apply forallb_forall. intros el Hin. apply List.filter_In in Hin as [_ Hv].
  by apply valid_element_allocated.
Qed.



(** ** Erasing shares the live collection with the history *)

Lemma lookup_alloc2 (h : heap) (a b : obj) : (h ++ [a; b]) !! S (length h) = Some b.
Proof.
  rewrite lookup_app_r by lia. by replace (S (length h) - length h) with 1 by lia.
Qed.

(** After an erase pass the snapshot under the cursor is the very array
    that is the live collection. *)
Lemma erase_snapshot_is_live_array
    (near : heap → val → Z → Z → bool) (h : heap) (s : BoardState)
    (x y : Z) (xs : list val) :
  array_of h (elements s) = Some xs →
  index_in_bounds h s = true →
  ∃ h' s', boardReducer near h s (ERASE x y) = Ok (h', s')
           ∧ snapshot_at h' s' (index s') = elements s'.
Proof.
  intros Hx Hb. apply index_in_bounds_array in Hb as [Hh Hi].
  rewrite (erase_exact near h s x y xs Hx (array_of_history_typed _ _ _ Hh)).
  eexists _, _. split; [reflexivity|].
  unfold snapshot_at. cbn [history index elements with_history with_elements].
  eapply get_index_array.
  - simpl. by rewrite lookup_alloc2.
  - lia.
  - rewrite lookup_app_r; rewrite slice0_length by lia; [|lia].
    by replace (Z.to_nat (index s + 1) - Z.to_nat (index s + 1)) with 0 by lia.
Qed.

(** C8 at the failing input: the erase pass over a canvas with one freehand
    stroke pushes the live array itself; writing to the stroke's point in
    the live collection then changes the content of the stored snapshot. *)
Theorem erase_snapshot_shares_live_collection :
  ∃ h' s' h'',
    boardReducer never_near brushHeap brushState (ERASE 100 100) = Ok (h', s')
    ∧ array_of h' (elements s') = Some [VRef 2]
    ∧ snapshot_at h' s' (index s') = elements s'
    ∧ set_prop h' (VRef 0) "x" (VNum 99) = Ok h''
    ∧ content_unchanged h' h'' (snapshot_at h' s' (index s')) = false.
Proof.
  eexists _, _, _. split; [by vm_compute|]. split; [by vm_compute|].
  split; [by vm_compute|]. split; [by vm_compute|]. by vm_compute.
Qed.

(** ** Moving while drawing *)

Lemma last_lookup_Z (xs : list val) (d : val) :
  default d (xs !! Z.to_nat (Z.of_nat (length xs) - 1)) = List.last xs d
  ∨ xs = [].
Proof.
  destruct xs as [|x xs] using rev_ind; [by right|left].
  rewrite List.last_last, length_app. simpl.
  replace (Z.to_nat (Z.of_nat (length xs + 1) - 1)) with (length xs) by lia.
  by rewrite lookup_app_r, Nat.sub_diag.
Qed.

Lemma type_of_falsy h el : truthy el = false → type_of h el = VUndef.
Proof. unfold type_of. by intros ->. Qed.

Lemma get_prop_falsy_type h el :
  truthy el = false →
  get_prop h el "type" = Throw TypeError ∨ get_prop h el "type" = Ok VUndef.
Proof.
  destruct el as [| |b|n|str|l]; simpl; try (by left); try (by right).
  destruct str; [|done]. intros _. by right.
Qed.

Section DrawMove.

Variable near : heap → val → Z → Z → bool.

(** The first steps of [DRAW_MOVE]: the copy of the array and the read of
    the last element's type. *)
Lemma draw_move_start h s xs :
  array_of h (elements s) = Some xs →
  forallb (allocated h) xs = true →
  let h1 := h ++ [OArr xs] in
  let last := last_element h s in
  get_index h1 (VRef (length h)) (Some (Z.of_nat (length xs) - 1)%Z) = last
  ∧ allocated h last = true
  ∧ (truthy last = true → get_prop h1 last "type" = Ok (type_of h last)).
Proof.
  intros Hx Hal h1 last. unfold last, last_element. rewrite Hx.
  assert (Hl : allocated h (List.last xs VUndef) = true).
  { destruct xs as [|x0 xs0] using rev_ind; [done|].
    rewrite List.last_last. rewrite forallb_app in Hal.
    apply andb_true_iff in Hal as [_ Hal]. simpl in Hal.
    by apply andb_true_iff in Hal as [? _]. }
  split_and!.
  - cbn [get_index]. unfold h1. rewrite lookup_alloc.
    destruct (Z.ltb_spec (Z.of_nat (length xs) - 1) 0).
    + destruct xs; [done|]. simpl in *. lia.
    + destruct (last_lookup_Z xs VUndef) as [->| ->]; [done|]. simpl in *. lia.
  - done.
  - intros Htr. unfold type_of. rewrite Htr.
    rewrite (get_prop_ext h h1) by (done || by eexists).
    rewrite get_prop_own; done.
Qed.

End DrawMove.
Lemma createElement_cases h id x1 y1 x2 y2 t st fi sz :
    ∃ cells l m,
      createElement h id x1 y1 x2 y2 t st fi sz = (h ++ cells, VRef l)
      ∧ length h ≤ l
      ∧ length cells ≤ 2
      ∧ (h ++ cells) !! l = Some (OObj m)
      ∧ m !! "type" = Some t
      ∧ (strict_eq t TOOL_ITEMS.BRUSH = false →
         m !! "x1" = Some x1 ∧ m !! "y1" = Some y1
         ∧ m !! "x2" = Some x2 ∧ m !! "y2" = Some y2).
  Proof.
    unfold createElement. destruct (strict_eq t TOOL_ITEMS.BRUSH) eqn:E.
    - unfold alloc. rewrite <- app_assoc. eexists _, _, _. split; [reflexivity|].
      split_and!; [rewrite length_app; simpl; lia|simpl; lia| | |done].
      + rewrite length_app. simpl. rewrite Nat.add_1_r. apply lookup_alloc2.
      + by simplify_map_eq.
    - unfold alloc. eexists _, _, _. split; [reflexivity|].
      split_and!; [lia|simpl; lia|apply lookup_alloc| |].
      + by simplify_map_eq.
      + intros _. by simplify_map_eq.
  Qed.



Section DrawMoveCases.

Variable near : heap → val → Z → Z → bool.

(** After the common prefix, [DRAW_MOVE] is a switch on the type read
    from the last element. *)
Lemma draw_move_prefix h s x y xs :
  array_of h (elements s) = Some xs →
  boardReducer near h s (DRAW_MOVE x y)
  = let h1 := h ++ [OArr xs] in
    let newElements := VRef (length h) in
    let index := Some (Z.of_nat (length xs) - 1)%Z in
    let last := get_index h1 newElements index in
    type ← get_prop h1 last "type";
    if shape_type type then
      x1 ← get_prop h1 last "x1";
      y1 ← get_prop h1 last "y1";
      stroke ← get_prop h1 last "stroke";
      fill ← get_prop h1 last "fill";
      size ← get_prop h1 last "size";
      id ← num_val index;
      let '(h2, newElement) :=
        createElement h1 id x1 y1 (VNum x) (VNum y)
          (activeToolItem s) stroke fill size in
      h3 ← set_index h2 newElements index newElement;
      Ok (h3, with_elements s newElements)
    else if strict_eq type TOOL_ITEMS.BRUSH then
      points ← get_prop h1 last "points";
      ps ← iterate h1 points;
      let '(h2, p) := alloc h1 (OObj (point_props x y)) in
      let '(h3, arr) := alloc h2 (OArr (ps ++ [p])) in
      h4 ← set_prop h3 last "points" arr;
      Ok (h4, with_elements s newElements)
    else Throw (Error "Type not recognized").
Proof.
  intros Hx. cbn [boardReducer].
  rewrite (array_of_iterate _ _ _ Hx), result_bind_ok. cbn [alloc].
  assert (Hx1 : array_of (h ++ [OArr xs]) (elements s) = Some xs).
  { eapply array_of_ext; [|done]. by eexists. }
  rewrite (array_of_length _ _ _ Hx1), result_bind_ok.
  cbn [minus_one]. by rewrite result_bind_ok.
Qed.

(** Anything but a shape or a freehand stroke at the end makes the move
    throw. *)
Lemma draw_move_other h s x y xs :
  array_of h (elements s) = Some xs →
  forallb (allocated h) xs = true →
  drawable_type (type_of h (last_element h s)) = false →
  throws (boardReducer near h s (DRAW_MOVE x y)) = true.
Proof.
  intros Hx Hal Hd. rewrite (draw_move_prefix h s x y xs Hx). cbv zeta.
  destruct (draw_move_start h s xs Hx Hal) as (-> & _ & Htype).
  destruct (truthy (last_element h s)) eqn:Htr.
  - rewrite (Htype eq_refl), result_bind_ok.
    unfold drawable_type in Hd. apply orb_false_iff in Hd as [-> ->]. done.
  - destruct (get_prop_falsy_type (h ++ [OArr xs]) _ Htr) as [-> | ->]; done.
Qed.

End DrawMoveCases.

Section DrawMoveDrawable.

Variable near : heap → val → Z → Z → bool.

Lemma truthy_last_nonempty (xs : list val) :
  truthy (List.last xs VUndef) = true →
  ∃ init, xs = init ++ [List.last xs VUndef].
Proof.
  destruct xs as [|x0 xs0] using rev_ind; [done|].
  rewrite List.last_last. eauto.
Qed.

Lemma drawable_truthy h el : drawable_type (type_of h el) = true → truthy el = true.
Proof.
  destruct (truthy el) eqn:E; [done|]. by rewrite type_of_falsy.
Qed.

(** A shape at the end: a new array whose last entry is a new element
    built from the old corner and the pointer. *)
Lemma draw_move_shape h s x y xs :
  array_of h (elements s) = Some xs →
  forallb (allocated h) xs = true →
  shape_type (type_of h (last_element h s)) = true →
  ∃ h' l new init,
    boardReducer near h s (DRAW_MOVE x y) = Ok (h', with_elements s (VRef l))
    ∧ xs = init ++ [last_element h s]
    ∧ h `prefix_of` h'
    ∧ length h ≤ l
    ∧ h' !! l = Some (OArr (init ++ [new]))
    ∧ type_of h' new = activeToolItem s
    ∧ (strict_eq (activeToolItem s) TOOL_ITEMS.BRUSH = false →
       get_prop h' new "x1" = get_prop h (last_element h s) "x1"
       ∧ get_prop h' new "y1" = get_prop h (last_element h s) "y1"
       ∧ get_prop h' new "x2" = Ok (VNum x)
       ∧ get_prop h' new "y2" = Ok (VNum y)).
Proof.
  intros Hx Hal Hs. rewrite (draw_move_prefix near h s x y xs Hx). cbv zeta.
  destruct (draw_move_start h s xs Hx Hal) as (-> & Hall & Htype).
  set (last := last_element h s) in *.
  assert (Htr : truthy last = true).
  { apply (drawable_truthy h). unfold drawable_type. by rewrite Hs. }
  rewrite (Htype Htr), result_bind_ok, Hs.
  assert (Hp1 : h `prefix_of` h ++ [OArr xs]) by by eexists.
  rewrite !(get_prop_ext h (h ++ [OArr xs])) by done.
  rewrite !(get_prop_own h last) by done. rewrite !result_bind_ok.
  cbn [num_val]. rewrite result_bind_ok.
  match goal with |- context [createElement ?a ?b ?c ?d ?e ?f ?g ?i ?j ?k] =>
    destruct (createElement_cases a b c d e f g i j k)
      as (cells & l & m & -> & Hl & Hcl & Hm & Hty & Hgeo)
  end.
  assert (Hinit : ∃ init, xs = init ++ [last]).
  { unfold last, last_element in *. rewrite Hx in *. by apply truthy_last_nonempty. }
  destruct Hinit as [init Hinit].
  assert (Hlen : length xs = S (length init)).
  { rewrite Hinit, length_app. simpl. lia. }
  unfold set_index. rewrite <- app_assoc.
  rewrite lookup_app_r by lia. rewrite Nat.sub_diag. cbn [lookup list_lookup app].
  destruct (Z.leb_spec 0 (Z.of_nat (length xs) - 1)); [|lia].
  destruct (Z.ltb_spec (Z.of_nat (length xs) - 1) (Z.of_nat (length xs))); [|lia].
  cbn [andb]. rewrite result_bind_ok.
  rewrite insert_app_r_alt by lia. rewrite Nat.sub_diag. cbn [insert list_insert app].
  replace (Z.to_nat (Z.of_nat (length xs) - 1)) with (length init) by lia.
  assert (Hins : <[length init:=VRef l]> xs = init ++ [VRef l]).
  { rewrite Hinit, insert_app_r_alt by lia. by rewrite Nat.sub_diag. }
  rewrite Hins.
  set (h' := h ++ OArr (init ++ [VRef l]) :: cells).
  assert (Hnew : h' !! l = Some (OObj m)).
  { rewrite length_app in Hl. simpl in Hl. rewrite <- app_assoc in Hm.
    unfold h'. rewrite lookup_app_r in Hm |- * by lia.
    destruct (l - length h) as [|k] eqn:Ek; [lia|]. done. }
  exists h', (length h), (VRef l), init. split_and!; try done.
  - by eexists.
  - unfold h'. by rewrite lookup_app_r, Nat.sub_diag by lia.
  - unfold type_of. cbn [truthy get_prop]. rewrite Hnew. cbn [own_props].
    by rewrite Hnew, Hty.
  - intros Hb. destruct (Hgeo Hb) as (G1 & G2 & G3 & G4).
    cbn [get_prop]. rewrite Hnew. cbn [own_props]. rewrite Hnew.
    by rewrite G1, G2, G3, G4.
Qed.

(** A freehand stroke at the end: the same entries in a new array, and
    the stroke itself now points to a new sequence, the old points
    followed by the pointer. *)
Lemma draw_move_brush h s x y xs :
  array_of h (elements s) = Some xs →
  forallb (allocated h) xs = true →
  strict_eq (type_of h (last_element h s)) TOOL_ITEMS.BRUSH = true →
  brush_has_points h (last_element h s) = true →
  ∃ h' l ps p points',
    boardReducer near h s (DRAW_MOVE x y) = Ok (h', with_elements s (VRef l))
    ∧ length h ≤ l
    ∧ h' !! l = Some (OArr xs)
    ∧ (get_prop h (last_element h s) "points" ≫= as_array h) = Ok ps
    ∧ get_prop h' (last_element h s) "points" = Ok points'
    ∧ array_of h' points' = Some (ps ++ [p])
    ∧ own_props h' p = point_props x y.
Proof.
  intros Hx Hal Hb Hpts. rewrite (draw_move_prefix near h s x y xs Hx). cbv zeta.
  destruct (draw_move_start h s xs Hx Hal) as (-> & Hall & Htype).
  set (last := last_element h s) in *.
  assert (Htr : truthy last = true).
  { apply (drawable_truthy h). unfold drawable_type. fold last. rewrite Hb.
    apply orb_true_r. }
  rewrite (Htype Htr), result_bind_ok.
  apply strict_eq_true in Hb as Hb'. rewrite Hb'.
  change (shape_type TOOL_ITEMS.BRUSH) with false.
  change (strict_eq TOOL_ITEMS.BRUSH TOOL_ITEMS.BRUSH) with true. cbv iota.
  unfold brush_has_points in Hpts. fold last in Hpts. rewrite Hb in Hpts.
  destruct (object_of h last) as [m|] eqn:Hobj; [|done].
  apply isArray_array_of in Hpts as [ps Hps].
  assert (Hp1 : h `prefix_of` h ++ [OArr xs]) by by eexists.
  rewrite (get_prop_ext h (h ++ [OArr xs])) by done.
  rewrite (get_prop_own h last) by done. rewrite result_bind_ok.
  rewrite (object_of_own_props _ _ _ Hobj).
  rewrite (array_of_iterate (h ++ [OArr xs]) _ ps) by by eapply array_of_ext.
  rewrite result_bind_ok. cbn [alloc].
  destruct last as [| | | | |ll] eqn:Elast; try done.
  simpl in Hobj. destruct (h !! ll) as [[|m']|] eqn:Hll; try done.
  injection Hobj as ->.
  assert (Hlt : ll < length h) by by eapply lookup_lt_Some.
  unfold set_prop. rewrite <- !app_assoc. rewrite lookup_app_l by done.
  rewrite Hll, result_bind_ok.
  rewrite insert_app_l by done.
  rewrite !length_app. cbn [length app].
  replace (length h + (1 + 1)) with (length h + 2) by lia.
  set (h0 := <[ll:=OObj (<["points":=VRef (length h + 2)]> m)]> h).
  assert (Hlen : length h0 = length h) by apply length_insert.
  set (h' := h0 ++ _).
  exists h', (length h), ps, (VRef (length h + 1)), (VRef (length h + 2)).
  split; [reflexivity|]. split_and!.
  - done.
  - unfold h'. rewrite lookup_app_r by lia. by rewrite Hlen, Nat.sub_diag.
  - rewrite result_bind_ok. by apply array_of_as_array.
  - cbn [get_prop]. unfold h'. rewrite lookup_app_l by lia.
    unfold h0. rewrite list_lookup_insert_eq by done. cbn [own_props].
    rewrite lookup_app_l by (rewrite length_insert; lia).
    rewrite list_lookup_insert_eq by done.
    by rewrite lookup_insert_eq.
  - cbn [array_of]. unfold h'. rewrite lookup_app_r by lia. rewrite Hlen.
    by replace (length h + 2 - length h) with 2 by lia.
  - cbn [own_props]. unfold h'. rewrite lookup_app_r by lia. rewrite Hlen.
    by replace (length h + 1 - length h) with 1 by lia.
Qed.

End DrawMoveDrawable.

(** C4, as the code has it: with a live collection whose entries are in
    the heap and whose freehand stroke, if it ends the collection, carries a
    point sequence, a move throws exactly when the last element is not a
    line, rectangle, circle, arrow or freehand stroke (a text throws too);
    on a shape it puts a new element with the old first corner and the
    pointer as second corner at the end of a new array; on a freehand stroke
    it appends the pointer to the stroke's points. *)
Theorem draw_move_throws_iff_not_drawable
    (near : heap → val → Z → Z → bool) (h : heap) (s : BoardState)
    (x y : Z) (xs : list val) :
  array_of h (elements s) = Some xs →
  forallb (allocated h) xs = true →
  brush_has_points h (last_element h s) = true →
  throws (boardReducer near h s (DRAW_MOVE x y))
  = negb (drawable_type (type_of h (last_element h s)))
  ∧ is_ok (boardReducer near h s (DRAW_MOVE x y))
    = drawable_type (type_of h (last_element h s))
  ∧ (shape_type (type_of h (last_element h s)) = true →
     ∃ h' l new init,
       boardReducer near h s (DRAW_MOVE x y) = Ok (h', with_elements s (VRef l))
       ∧ xs = init ++ [last_element h s]
       ∧ h `prefix_of` h'
       ∧ length h ≤ l
       ∧ h' !! l = Some (OArr (init ++ [new]))
       ∧ type_of h' new = activeToolItem s
       ∧ (strict_eq (activeToolItem s) TOOL_ITEMS.BRUSH = false →
          get_prop h' new "x1" = get_prop h (last_element h s) "x1"
          ∧ get_prop h' new "y1" = get_prop h (last_element h s) "y1"
          ∧ get_prop h' new "x2" = Ok (VNum x)
          ∧ get_prop h' new "y2" = Ok (VNum y)))
  ∧ (strict_eq (type_of h (last_element h s)) TOOL_ITEMS.BRUSH = true →
     ∃ h' l ps p points',
       boardReducer near h s (DRAW_MOVE x y) = Ok (h', with_elements s (VRef l))
       ∧ length h ≤ l
       ∧ h' !! l = Some (OArr xs)
       ∧ (get_prop h (last_element h s) "points" ≫= as_array h) = Ok ps
       ∧ get_prop h' (last_element h s) "points" = Ok points'
       ∧ array_of h' points' = Some (ps ++ [p])
       ∧ own_props h' p = point_props x y).
Proof.
  intros Hx Hal Hpts.
  assert (Hshape := draw_move_shape near h s x y xs Hx Hal).
  assert (Hbrush := λ Hb, draw_move_brush near h s x y xs Hx Hal Hb Hpts).
  assert (Hother := draw_move_other near h s x y xs Hx Hal).
  split_and!; [| |done|done].
  - unfold drawable_type in *.
    destruct (shape_type (type_of h (last_element h s))).
    + by destruct (Hshape eq_refl) as (? & ? & ? & ? & -> & _).
    + destruct (strict_eq (type_of h (last_element h s)) TOOL_ITEMS.BRUSH).
      * by destruct (Hbrush eq_refl) as (? & ? & ? & ? & ? & -> & _).
      * by apply Hother.
  - unfold drawable_type in *.
    destruct (shape_type (type_of h (last_element h s))).
    + by destruct (Hshape eq_refl) as (? & ? & ? & ? & -> & _).
    + destruct (strict_eq (type_of h (last_element h s)) TOOL_ITEMS.BRUSH).
      * by destruct (Hbrush eq_refl) as (? & ? & ? & ? & ? & -> & _).
      * specialize (Hother eq_refl).
        by destruct (boardReducer near h s (DRAW_MOVE x y)).
Qed.

(** C4, as the specification words it, fails: text is a recognized type,
    and a move over a collection that ends with a text throws. *)
Lemma draw_move_throws_on_text :
  ¬ (∀ (near : heap → val → Z → Z → bool) (h : heap) (s : BoardState) (x y : Z),
       throws (boardReducer near h s (DRAW_MOVE x y))
       = negb (recognized_type (type_of h (last_element h s)))).
Proof.
  intros H. specialize (H never_near textHeap textState 1%Z 1%Z).
  by vm_compute in H.
Qed.

(** ** The history invariant *)

Lemma point_ok_allocated h p : point_ok h p = true → allocated h p = true.
Proof.
  unfold point_ok. rewrite bool_decide_eq_true. intros [m Hm].
  by eapply object_of_allocated.
Qed.

Lemma point_ok_ext h h' p : h `prefix_of` h' → point_ok h p = true → point_ok h' p = true.
Proof.
  unfold point_ok. rewrite !bool_decide_eq_true. intros Hp [m Hm].
  exists m. by eapply object_of_ext.
Qed.

Lemma element_ok_object h el :
  element_ok h el = true → ∃ m, object_of h el = Some m.
Proof. unfold element_ok. destruct (object_of h el); eauto. done. Qed.

Lemma element_ok_valid h el : element_ok h el = true → valid_element h el = true.
Proof.
  unfold element_ok. destruct (object_of h el) as [m|] eqn:Hm; [|done].
  rewrite andb_true_iff. intros [Hr _]. apply recognized_type_truthy in Hr.
  destruct el as [| | | | |l]; try done. simpl in Hm.
  destruct (h !! l) as [[|m']|] eqn:Hl; try done. injection Hm as ->.
  unfold valid_element. cbn [truthy]. rewrite get_prop_own by done.
  cbn [own_props]. by rewrite Hl.
Qed.

Lemma element_ok_ext h h' el :
  h `prefix_of` h' → element_ok h el = true →
  element_ok h' el = true ∧ element_view h' el = element_view h el.
Proof.
  intros Hp Hok. unfold element_ok, element_view in *.
  destruct (object_of h el) as [m|] eqn:Hm; [|done].
  rewrite (object_of_ext _ _ _ _ Hp Hm).
  rewrite (object_of_own_props _ _ _ Hm).
  rewrite (object_of_own_props _ _ _ (object_of_ext _ _ _ _ Hp Hm)).
  apply andb_true_iff in Hok as [Hr Hpts]. rewrite Hr. cbn [andb].
  destruct (m !! "points") as [pv|] eqn:Epv; [|done]. cbn [mbind option_bind].
  apply andb_true_iff in Hpts as [Hal Hps].
  rewrite (allocated_ext _ _ _ Hp Hal), (array_of_ext_eq _ _ _ Hp Hal). cbn [andb].
  destruct (array_of h pv) as [ps|]; [|done]. split.
  - apply forallb_forall. intros p Hin. eapply point_ok_ext; [done|].
    eapply forallb_forall in Hps; done.
  - do 2 f_equal. apply list_fmap_ext. intros i p Hi.
    apply own_props_ext; [done|]. apply point_ok_allocated.
    eapply forallb_forall in Hps; [done|].
    apply list_elem_of_In. by eapply list_elem_of_lookup_2.
Qed.

Lemma elements_ok_ext h h' (xs : list val) :
  h `prefix_of` h' → forallb (element_ok h) xs = true →
  forallb (element_ok h') xs = true
  ∧ element_view h' <$> xs = element_view h <$> xs.
Proof.
  intros Hp Hok. split.
  - apply forallb_forall. intros el Hin.
    eapply forallb_forall in Hok; [|done]. by apply (element_ok_ext h h').
  - apply list_fmap_ext. intros i el Hi.
    apply (element_ok_ext h h'); [done|].
    eapply forallb_forall in Hok; [done|].
    apply list_elem_of_In. by eapply list_elem_of_lookup_2.
Qed.

Lemma collection_ok_array h v :
  collection_ok h v = true →
  ∃ xs, array_of h v = Some xs ∧ forallb (element_ok h) xs = true.
Proof. unfold collection_ok. destruct (array_of h v); eauto. done. Qed.

Lemma collection_ok_ext h h' v :
  h `prefix_of` h' → collection_ok h v = true →
  collection_ok h' v = true ∧ collection_view h' v = collection_view h v.
Proof.
  intros Hp Hok. apply collection_ok_array in Hok as (xs & Hx & Hxs).
  unfold collection_ok, collection_view.
  rewrite Hx, (array_of_ext _ _ _ _ Hp Hx).
  destruct (elements_ok_ext h h' xs Hp Hxs) as [-> ->]. done.
Qed.

Lemma elements_ok_valid h (xs : list val) :
  forallb (element_ok h) xs = true → validElements h xs = xs.
Proof.
  intros Hok. unfold validElements. induction xs as [|x xs IH]; [done|].
  simpl in Hok |- *. apply andb_true_iff in Hok as [Hx Hxs].
  by rewrite (element_ok_valid _ _ Hx), IH.
Qed.

Lemma refs_view (h' : heap) (g : val → gmap string val) (b : nat) (ps : list val) :
  (∀ i p, ps !! i = Some p → h' !! (b + i) = Some (OObj (g p))) →
  own_props h' <$> (VRef <$> seq b (length ps)) = g <$> ps
  ∧ forallb (point_ok h') (VRef <$> seq b (length ps)) = true.
Proof.
  intros Hlk. split.
  - apply list_eq. intros i. rewrite !list_lookup_fmap.
    destruct (ps !! i) as [p|] eqn:Ep.
    + rewrite lookup_seq_lt by (by eapply lookup_lt_Some). simpl.
      by rewrite (Hlk i p Ep).
    + rewrite lookup_seq_ge; [done|]. by apply lookup_ge_None.
  - apply forallb_forall. intros v Hin. apply list_elem_of_In in Hin.
    apply list_elem_of_fmap in Hin as (j & -> & Hj).
    apply elem_of_seq in Hj as [Hj1 Hj2].
    destruct (lookup_lt_is_Some_2 ps (j - b)) as [p Hp]; [lia|].
    specialize (Hlk _ _ Hp). replace (b + (j - b)) with j in Hlk by lia.
    unfold point_ok. apply bool_decide_eq_true. simpl. rewrite Hlk. eauto.
Qed.

(** The copy of an element of the data model is one, with the same
    content, in every heap that holds the cells of the copy and in which the
    values of the old heap are arrays as before: the copy is read from its
    own cells alone. *)
Lemma copy_cells_ok_frame h el h' :
  element_ok h el = true →
  (∀ i o, length h ≤ i → (h ++ copy_cells h el) !! i = Some o → h' !! i = Some o) →
  (∀ v, allocated h v = true → allocated h' v = true ∧ array_of h' v = array_of h v) →
  element_ok h' (VRef (length h)) = true
  ∧ element_view h' (VRef (length h)) = element_view h el.
Proof.
  intros Hok Hp Harr. destruct (element_ok_object _ _ Hok) as [m Hm].
  unfold element_ok in Hok. rewrite Hm in Hok.
  apply andb_true_iff in Hok as [Hr Hpts].
  unfold copy_cells in Hp. unfold element_view at 2.
  rewrite (object_of_own_props _ _ _ Hm) in *.
  destruct (m !! "points") as [pv|] eqn:Epv; cbn [mbind option_bind] in *.
  - apply andb_true_iff in Hpts as [Hal Hps].
    destruct (array_of h pv) as [ps|] eqn:Eps.
    + (* a point sequence: the points are copied *)
      assert (Hpre : h `prefix_of` h ++ [OObj m]) by by eexists.
      rewrite point_cells_allocated in Hp.
      2:{ apply forallb_forall. intros p Hin. eapply allocated_ext; [done|].
          apply point_ok_allocated. eapply forallb_forall in Hps; done. }
      set (m' := <["points":=VRef (length h + 1 + length ps)]> m) in *.
      set (refs := VRef <$> seq (S (length h)) (length ps)) in *.
      assert (H0 : h' !! length h = Some (OObj m')).
      { apply Hp; [done|]. by rewrite lookup_app_r, Nat.sub_diag by lia. }
      assert (H1 : ∀ i p, ps !! i = Some p →
                          h' !! (S (length h) + i) = Some (OObj (own_props h p))).
      { intros i p Hi. apply Hp; [lia|].
        rewrite lookup_app_r by lia.
        replace (S (length h) + i - length h) with (S i) by lia.
        rewrite lookup_cons_ne_0 by done. rewrite Nat.pred_succ.
        rewrite lookup_app_l by (rewrite length_fmap; by eapply lookup_lt_Some).
        rewrite list_lookup_fmap, Hi. simpl. do 2 f_equal.
        apply own_props_ext; [done|]. apply point_ok_allocated.
        eapply forallb_forall in Hps; [done|].
        apply list_elem_of_In. by eapply list_elem_of_lookup_2. }
      assert (H2 : h' !! (length h + 1 + length ps) = Some (OArr refs)).
      { apply Hp; [lia|].
        rewrite lookup_app_r by lia.
        replace (length h + 1 + length ps - length h) with (S (length ps)) by lia.
        rewrite lookup_cons_ne_0 by done. rewrite Nat.pred_succ.
        rewrite lookup_app_r by (rewrite length_fmap; lia).
        by rewrite length_fmap, Nat.sub_diag. }
      destruct (refs_view h' (own_props h) (S (length h)) ps H1) as [Hv Hpo].
      fold refs in Hv, Hpo.
      assert (Hty : m' !! "type" = m !! "type") by by apply lookup_insert_ne.
      assert (Hpt : m' !! "points" = Some (VRef (length h + 1 + length ps)))
        by apply lookup_insert_eq.
      assert (Hdel : delete "points" m' = delete "points" m) by apply delete_insert_eq.
      unfold element_ok, element_view. cbn [object_of own_props]. rewrite H0.
      rewrite Hty, Hr, Hpt, Hdel. cbn [mbind option_bind array_of allocated andb].
      rewrite H2, Hpo, Hv. split; [|done].
      rewrite andb_true_iff. split; [|done]. apply bool_decide_eq_true.
      by eapply lookup_lt_Some.
    + (* [points] is not a sequence: it is shared as it is *)
      assert (H0 : h' !! length h = Some (OObj m)).
      { apply Hp; [done|]. by rewrite lookup_app_r, Nat.sub_diag by lia. }
      destruct (Harr pv Hal) as [Hal' Harr'].
      unfold element_ok, element_view. cbn [object_of own_props]. rewrite H0, Hr, Epv.
      cbn [mbind option_bind andb]. rewrite Hal', Harr', Eps. done.
  - assert (H0 : h' !! length h = Some (OObj m)).
    { apply Hp; [done|]. by rewrite lookup_app_r, Nat.sub_diag by lia. }
    unfold element_ok, element_view. cbn [object_of own_props]. rewrite H0, Hr, Epv.
    done.
Qed.

Lemma copies_cells_ok_frame els : ∀ h0 h h',
  h0 `prefix_of` h →
  (∀ i o, length h ≤ i → (h ++ copies_cells h els) !! i = Some o → h' !! i = Some o) →
  (∀ v, allocated h v = true → allocated h' v = true ∧ array_of h' v = array_of h v) →
  forallb (element_ok h0) els = true →
  forallb (element_ok h') (copies_refs h els) = true
  ∧ element_view h' <$> copies_refs h els = element_view h0 <$> els.
Proof.
  induction els as [|el els IH]; intros h0 h h' Hp0 Hp Harr Hok; [done|].
  cbn [copies_cells copies_refs forallb fmap list_fmap] in *.
  apply andb_true_iff in Hok as [Hel Hels].
  rewrite app_assoc in Hp.
  set (hi := h ++ copy_cells h el) in *.
  assert (Hpi : h `prefix_of` hi) by by eexists.
  destruct (element_ok_ext h0 h el Hp0 Hel) as [Hel' Hview'].
  destruct (copy_cells_ok_frame h el h' Hel') as [Hc Hv]; [|done|].
  { intros i o Hi Hlk. apply Hp; [done|]. by apply lookup_app_l_Some. }
  destruct (IH h0 hi h') as [Hcs Hvs]; [| | |done|].
  { by etrans. }
  { intros i o Hi Hlk. apply Hp; [|done]. apply prefix_length in Hpi. lia. }
  { intros v Hv'. destruct v as [| | | | |k]; try done. simpl in Hv'.
    apply bool_decide_eq_true in Hv'.
    destruct (decide (k < length h)) as [Hk|Hk].
    - destruct (Harr (VRef k)) as [Ha ->]; [by apply bool_decide_eq_true|].
      split; [done|]. symmetry. apply array_of_ext_eq; [done|].
      by apply bool_decide_eq_true.
    - destruct (lookup_lt_is_Some_2 hi k Hv') as [o Ho].
      assert (Ho' : h' !! k = Some o).
      { apply Hp; [lia|]. by apply lookup_app_l_Some. }
      split; [apply bool_decide_eq_true; by eapply lookup_lt_Some|].
      simpl. by rewrite Ho, Ho'. }
  rewrite Hc, Hcs. split; [done|].
  change (element_view h' (VRef (length h)) :: (element_view h' <$> copies_refs hi els)
          = element_view h0 el :: (element_view h0 <$> els)).
  by rewrite Hv, Hview', Hvs.
Qed.

Lemma copies_cells_ok els h0 h h' :
  h0 `prefix_of` h →
  (h ++ copies_cells h els) `prefix_of` h' →
  forallb (element_ok h0) els = true →
  forallb (element_ok h') (copies_refs h els) = true
  ∧ element_view h' <$> copies_refs h els = element_view h0 <$> els.
Proof.
  intros Hp0 Hp Hok. apply copies_cells_ok_frame; [done| | |done].
  - intros i o _ Hlk. by eapply prefix_lookup_Some.
  - assert (Hp' : h `prefix_of` h') by (etrans; [|exact Hp]; by eexists).
    intros v Hv. split; [by eapply allocated_ext|by apply array_of_ext_eq].
Qed.

Lemma history_invariant_elim h s :
  history_invariant h s = true →
  ∃ xs hs snapshot,
    array_of h (elements s) = Some xs
    ∧ forallb (element_ok h) xs = true
    ∧ array_of h (history s) = Some hs
    ∧ forallb (collection_ok h) hs = true
    ∧ (0 ≤ index s < Z.of_nat (length hs))%Z
    ∧ hs !! Z.to_nat (index s) = Some snapshot
    ∧ collection_view h snapshot = Some (element_view h <$> xs).
Proof.
  unfold history_invariant, board_ok, index_in_bounds, history_matches, same_collection.
  rewrite !andb_true_iff. intros [[[Hel Hhs] Hb] [Hsome Hview]].
  apply collection_ok_array in Hel as (xs & Hx & Hxs).
  destruct (array_of h (history s)) as [hs|] eqn:Hh; [|done].
  apply andb_true_iff in Hb as [Hb1 Hb2]. apply Z.leb_le in Hb1. apply Z.ltb_lt in Hb2.
  destruct (lookup_lt_is_Some_2 hs (Z.to_nat (index s))) as [snap Hsnap]; [lia|].
  rewrite (get_index_array h (history s) hs (index s) snap) in Hview by done.
  apply bool_decide_eq_true in Hview.
  exists xs, hs, snap. split_and!; try done.
  rewrite Hview. unfold collection_view. by rewrite Hx.
Qed.

Lemma history_invariant_intro h s xs hs snapshot :
  array_of h (elements s) = Some xs →
  forallb (element_ok h) xs = true →
  array_of h (history s) = Some hs →
  forallb (collection_ok h) hs = true →
  (0 ≤ index s < Z.of_nat (length hs))%Z →
  hs !! Z.to_nat (index s) = Some snapshot →
  collection_view h snapshot = Some (element_view h <$> xs) →
  history_invariant h s = true.
Proof.
  intros Hx Hxs Hh Hhs Hb Hsnap Hview.
  assert (collection_ok h (elements s) = true) as Hc
    by (unfold collection_ok; by rewrite Hx).
  unfold history_invariant, board_ok, index_in_bounds, history_matches, same_collection.
  rewrite Hc, Hh, Hhs.
  rewrite (get_index_array h (history s) hs (index s) snapshot) by (done || lia).
  rewrite Hview. unfold collection_view. rewrite Hx.
  rewrite !andb_true_iff, Z.leb_le, Z.ltb_lt, !bool_decide_eq_true.
  split_and!; try done; try lia; eauto.
Qed.

Lemma collections_ok_ext h h' (hs : list val) :
  h `prefix_of` h' → forallb (collection_ok h) hs = true →
  forallb (collection_ok h') hs = true.
Proof.
  intros Hp Hok. apply forallb_forall. intros v Hin.
  eapply forallb_forall in Hok; [|done]. by apply (collection_ok_ext h h').
Qed.

(** Materializing a well-formed snapshot re-establishes the invariant at
    its index. *)
Lemma restore_invariant h s hs snapshot i :
  array_of h (history s) = Some hs →
  forallb (collection_ok h) hs = true →
  (0 ≤ i)%Z →
  hs !! Z.to_nat i = Some snapshot →
  ∃ h' s', restore h s snapshot i = Ok (h', s')
           ∧ h `prefix_of` h'
           ∧ history_invariant h' s' = true.
Proof.
  intros Hh Hhs Hi Hsnap.
  assert (Hok : collection_ok h snapshot = true).
  { eapply forallb_forall in Hhs; [done|].
    apply list_elem_of_In. by eapply list_elem_of_lookup_2. }
  destruct (collection_ok_array _ _ Hok) as (xs & Hx & Hxs).
  rewrite (restore_exact h s snapshot xs i Hx), (elements_ok_valid _ _ Hxs).
  set (h1 := h ++ copies_cells h xs). set (h' := h1 ++ _).
  assert (Hp1 : h1 `prefix_of` h') by by eexists.
  assert (Hp : h `prefix_of` h') by (etrans; [|exact Hp1]; by eexists).
  destruct (copies_cells_ok xs h h h') as [Hcs Hvs]; [done|done|done|].
  eexists _, _. split; [reflexivity|]. split; [done|].
  apply (history_invariant_intro _ _ (copies_refs h xs) hs snapshot).
  - cbn. unfold h'. by rewrite lookup_app_r, Nat.sub_diag by lia.
  - done.
  - cbn [history with_index with_history with_elements]. by eapply array_of_ext.
  - by apply (collections_ok_ext h h').
  - cbn [index with_index with_history]. apply lookup_lt_Some in Hsnap. lia.
  - done.
  - destruct (collection_ok_ext h h' snapshot Hp Hok) as [_ ->].
    unfold collection_view. by rewrite Hx, Hvs.
Qed.

Lemma dispatch_all_app near acts1 acts2 : ∀ h s,
  dispatch_all near h s (acts1 ++ acts2)
  = '(h1, s1) ← dispatch_all near h s acts1; dispatch_all near h1 s1 acts2.
Proof.
  induction acts1 as [|a acts1 IH]; intros h s; [done|].
  cbn [app dispatch_all].
  destruct (boardReducer near h s a) as [[h1 s1]| |]; [|done..].
  rewrite !result_bind_ok. apply IH.
Qed.


Section Invariant.

Variable near : heap → val → Z → Z → bool.

(** A push establishes the invariant whatever the live collection was,
    as long as its elements are well formed and the cursor is inside the
    log. *)
Lemma push_establishes h s :
  board_ok h s = true →
  index_in_bounds h s = true →
  ∃ h' s', boardReducer near h s DRAW_UP = Ok (h', s')
           ∧ h `prefix_of` h'
           ∧ history_invariant h' s' = true.
Proof.
  intros Hok Hb. unfold board_ok in Hok. apply andb_true_iff in Hok as [Hel Hhs].
  apply collection_ok_array in Hel as (xs & Hx & Hxs).
  apply index_in_bounds_array in Hb as [Hh Hb].
  rewrite Hh in Hhs. set (hs := history_entries h s) in *.
  destruct (draw_up_pushes near h s xs Hx (array_of_history_typed _ _ _ Hh))
    as (h' & l & new & -> & Hp & Hl & Hhist & Hnl & Hnew & Hp1).
  rewrite (elements_ok_valid _ _ Hxs) in *.
  fold hs in Hhist. rewrite slice0_take in Hhist by lia.
  destruct (copies_cells_ok xs h h h') as [Hcs Hvs]; [done|done|done|].
  destruct (elements_ok_ext h h' xs Hp Hxs) as [Hxs' Hvx].
  eexists _, _. split; [reflexivity|]. split; [done|].
  apply (history_invariant_intro _ _ xs
           (take (Z.to_nat (index s + 1)) hs ++ [VRef new]) (VRef new)).
  - exact (array_of_ext _ _ _ _ Hp Hx).
  - done.
  - cbn. by rewrite Hhist.
  - rewrite forallb_app. apply andb_true_iff. split.
    + apply (collections_ok_ext h h'); [done|].
      apply forallb_forall. intros v Hin.
      apply (proj1 (forallb_forall _ _) Hhs).
      apply list_elem_of_In. apply list_elem_of_In in Hin.
      by apply (subseteq_take (Z.to_nat (index s + 1)) hs).
    + cbn. unfold collection_ok. cbn. by rewrite Hnew, Hcs.
  - cbn [index with_history]. rewrite length_app, length_take. simpl. lia.
  - cbn [index with_history]. rewrite lookup_app_r; rewrite length_take; [|lia].
    by replace (Z.to_nat (index s + 1) - Z.to_nat (index s + 1) `min` length hs)
      with 0 by lia.
  - unfold collection_view. cbn. by rewrite Hnew, Hvs, Hvx.
Qed.




End Invariant.

(** ** The snapshot of a push is isolated from the live collection

    What the deep copy of DRAW_UP is for: after the push, a write to any
    object the board held before it (an element of the live collection, a
    point of a stroke) leaves the content of the new snapshot as it was. *)
Lemma draw_up_snapshot_isolated
    (near : heap → val → Z → Z → bool) (h : heap) (s : BoardState)
    (l : nat) (m m' : gmap string val) :
  board_ok h s = true →
  index_in_bounds h s = true →
  h !! l = Some (OObj m) →
  ∃ h' s', boardReducer near h s DRAW_UP = Ok (h', s')
           ∧ content_unchanged h' (<[l:=OObj m']> h')
               (snapshot_at h' s' (index s')) = true.
Proof.
  intros Hok Hb Hl. unfold board_ok in Hok. apply andb_true_iff in Hok as [Hel _].
  apply collection_ok_array in Hel as (xs & Hx & Hxs).
  apply index_in_bounds_array in Hb as [Hh Hb].
  destruct (draw_up_pushes near h s xs Hx (array_of_history_typed _ _ _ Hh))
    as (h' & top & new & -> & Hp & Htop & Hhist & Hnl & Hnew & Hp1).
  rewrite (elements_ok_valid _ _ Hxs) in *.
  assert (Hlt : l < length h) by by eapply lookup_lt_Some.
  eexists _, _. split; [reflexivity|].
  assert (Hsnap : snapshot_at h' (with_history s (VRef top) (index s + 1)) (index s + 1)
                  = VRef new).
  { unfold snapshot_at. cbn [history with_history]. eapply get_index_array.
    - simpl. by rewrite Hhist.
    - lia.
    - rewrite lookup_app_r; rewrite slice0_length by lia; [|lia].
      by replace (Z.to_nat (index s + 1) - Z.to_nat (index s + 1)) with 0 by lia. }
  cbn [index with_history]. rewrite Hsnap.
  destruct (copies_cells_ok xs h h h') as [_ Hv]; [done|done|done|].
  destruct (copies_cells_ok_frame xs h h (<[l:=OObj m']> h')) as [_ Hv'];
    [done| | |done|].
  { intros i o Hi Hlk. rewrite list_lookup_insert_ne by lia.
    by eapply prefix_lookup_Some. }
  { intros v Hal. destruct v as [| | | | |k]; try done.
    simpl in Hal. apply bool_decide_eq_true in Hal. split.
    - apply bool_decide_eq_true. rewrite length_insert.
      apply prefix_length in Hp. lia.
    - simpl. destruct (decide (k = l)) as [->|Hne].
      + rewrite list_lookup_insert_eq by (apply prefix_length in Hp; lia).
        by rewrite Hl.
      + rewrite list_lookup_insert_ne by done.
        destruct (lookup_lt_is_Some_2 h k Hal) as [o Ho].
        by rewrite (prefix_lookup_Some _ _ _ _ Ho Hp), Ho. }
  unfold content_unchanged, collection_view. apply bool_decide_eq_true.
  cbn [array_of]. rewrite list_lookup_insert_ne by lia. rewrite Hnew.
  by rewrite Hv, Hv'.
Qed.

(** On the canvas with one freehand stroke: after a push, the write to the
    stroke's point that changes the snapshot of an erase pass leaves the
    snapshot of the push as it was. *)
Example draw_up_snapshot_isolated_stroke :
  ∃ h' s' h'',
    boardReducer never_near brushHeap brushState DRAW_UP = Ok (h', s')
    ∧ set_prop h' (VRef 0) "x" (VNum 99) = Ok h''
    ∧ content_unchanged h' h'' (snapshot_at h' s' (index s')) = true
    ∧ content_unchanged h' h'' (elements s') = false.
Proof.
  eexists _, _, _. split; [by vm_compute|]. split; [by vm_compute|].
  split; by vm_compute.
Qed.



(** ** The theorems at concrete boards *)

(** The initial board satisfies the history invariant, and so does the
    board after a whole gesture; in the middle of a gesture the live
    collection runs ahead of the history, and an undo at the first snapshot
    leaves it so. *)
Lemma initial_state_invariant : history_invariant initialHeap initialBoardState = true.
Proof. by vm_compute. Qed.

Example gesture_keeps_invariant :
  holds_after history_invariant
    (dispatch_all never_near initialHeap initialBoardState lineGesture) = true
  ∧ index <$> final_state
      (dispatch_all never_near initialHeap initialBoardState lineGesture) = Some 1%Z.
Proof. split; by vm_compute. Qed.

Example undo_in_mid_gesture :
  holds_after history_matches
    (dispatch_all never_near initialHeap initialBoardState
       [CHANGE_TOOL TOOL_ITEMS.LINE; DRAW_DOWN 1 2 VUndef VUndef VUndef; UNDO]) = false.
Proof. by vm_compute. Qed.

Example gesture_then_undo_redo :
  holds_after history_invariant
    (dispatch_all never_near initialHeap initialBoardState
       (lineGesture ++ [UNDO; REDO; UNDO; UNDO])) = true
  ∧ index <$> final_state
      (dispatch_all never_near initialHeap initialBoardState
         (lineGesture ++ [UNDO; REDO; UNDO; UNDO])) = Some 0%Z.
Proof. split; by vm_compute. Qed.


(** The pruning scenario on the board with five snapshots. *)
Lemma push_prunes_redo_branch_witness :
  array_of fiveHeap (elements fiveState) = Some [VRef 10; VRef 11; VRef 12; VRef 13]
  ∧ index_in_bounds fiveHeap fiveState = true
  ∧ history_length fiveHeap fiveState = 5%Z
  ∧ index fiveState = 4%Z
  ∧ forallb (valid_snapshot fiveHeap) (history_entries fiveHeap fiveState) = true
  ∧ (∃ h' s', boardReducer never_near fiveHeap fiveState DRAW_UP = Ok (h', s')
              ∧ index s' = (history_length h' s' - 1)%Z)
  ∧ (∃ h2 s2 h3 s3,
       dispatch_all never_near fiveHeap fiveState [UNDO; UNDO] = Ok (h2, s2)
       ∧ index s2 = 2%Z
       ∧ boardReducer never_near h2 s2 DRAW_UP = Ok (h3, s3)
       ∧ history_length h3 s3 = 4%Z
       ∧ index s3 = 3%Z).
Proof.
  split; [vm_compute; reflexivity|]. split; [vm_compute; reflexivity|].
  split; [vm_compute; reflexivity|]. split; [reflexivity|].
  split; [vm_compute; reflexivity|].
  destruct (push_prunes_redo_branch never_near fiveHeap fiveState) as [Hpush Hscenario].
  split.
  - destruct (Hpush [VRef 10; VRef 11; VRef 12; VRef 13])
      as (h' & s' & snapshot & H1 & _ & H3); [vm_compute; reflexivity..|].
    exists h', s'. auto.
  - apply Hscenario; vm_compute; reflexivity.
Defined.


(** A move over a line being dragged, and over a stroke being drawn. *)
Lemma draw_move_throws_iff_not_drawable_witness :
  array_of dragHeap (elements dragState) = Some [VRef 0]
  ∧ forallb (allocated dragHeap) [VRef 0] = true
  ∧ brush_has_points dragHeap (last_element dragHeap dragState) = true
  ∧ is_ok (boardReducer never_near dragHeap dragState (DRAW_MOVE 7 9)) = true
  ∧ array_of brushHeap (elements strokeState) = Some [VRef 2]
  ∧ forallb (allocated brushHeap) [VRef 2] = true
  ∧ brush_has_points brushHeap (last_element brushHeap strokeState) = true
  ∧ throws (boardReducer never_near brushHeap strokeState (DRAW_MOVE 7 9)) = false.
Proof.
  split; [vm_compute; reflexivity|]. split; [vm_compute; reflexivity|].
  split; [vm_compute; reflexivity|]. split.
  { destruct (draw_move_throws_iff_not_drawable never_near dragHeap dragState 7 9 [VRef 0])
      as (_ & -> & _); vm_compute; reflexivity. }
  split; [vm_compute; reflexivity|]. split; [vm_compute; reflexivity|].
  split; [vm_compute; reflexivity|].
  destruct (draw_move_throws_iff_not_drawable never_near brushHeap strokeState 7 9 [VRef 2])
    as (-> & _); vm_compute; reflexivity.
Defined.


(** Two refusals with the retry in between, then pointer events. *)
Lemma second_unauthorized_is_terminal_witness :
  unauthorizedRetryCount boardA = 0
  ∧ has_payload (VStr "denied") = true
  ∧ ∃ h' b' out,
      session_run noToolbox lineHeap boardA
        (Unauthorized (VStr "denied")
         :: [TimerFires (RetryJoinCanvas (VStr "a")); Connect]
            ++ [Unauthorized (VStr "denied")])
      = (h', b', out)
      ∧ List.filter is_denial out = [Alert "Access Denied: You cannot edit this canvas."]
      ∧ List.filter is_broadcast
          (session_run noToolbox h' b'
             [MouseMove (Some {| left := 0; top := 0 |}) {| clientX := 1; clientY := 1 |};
              MouseUp]).2 = [].
Proof.
  split; [reflexivity|]. split; [reflexivity|].
  destruct (second_unauthorized_is_terminal noToolbox lineHeap boardA
              (VStr "denied") (VStr "denied")
              [TimerFires (RetryJoinCanvas (VStr "a")); Connect])
    as (h' & b' & out & H1 & _ & H3 & _ & _ & H6); [reflexivity..|].
  exists h', b', out. split; [exact H1|]. split; [exact H3|]. apply H6.
Defined.


(** ** Undo and redo are inverse to each other *)

Lemma restore_cursor h s hs snapshot i :
  array_of h (history s) = Some hs →
  forallb (collection_ok h) hs = true →
  (0 ≤ i)%Z →
  hs !! Z.to_nat i = Some snapshot →
  ∃ h' l,
    restore h s snapshot i = Ok (h', with_index (with_elements s (VRef l)) i)
    ∧ h `prefix_of` h'
    ∧ length h ≤ l
    ∧ history_invariant h' (with_index (with_elements s (VRef l)) i) = true.
Proof.
  intros Hh Hhs Hi Hsnap.
  destruct (restore_invariant h s hs snapshot i Hh Hhs Hi Hsnap)
    as (h' & s' & Hr & Hp & Hinv).
  assert (Hok : collection_ok h snapshot = true).
  { eapply forallb_forall in Hhs; [done|].
    apply list_elem_of_In. by eapply list_elem_of_lookup_2. }
  destruct (collection_ok_array _ _ Hok) as (xs & Hx & _).
  destruct (restore_moves h s snapshot xs i Hx) as (h'' & l & Hr' & _ & Hl & _).
  rewrite Hr in Hr'. injection Hr' as <- ->. by exists h', l.
Qed.

(** The content of the live collection is that of the snapshot under the
    cursor. *)
Lemma history_invariant_view h s :
  history_invariant h s = true →
  ∃ hs snapshot,
    array_of h (history s) = Some hs
    ∧ forallb (collection_ok h) hs = true
    ∧ (0 ≤ index s < Z.of_nat (length hs))%Z
    ∧ hs !! Z.to_nat (index s) = Some snapshot
    ∧ collection_view h (elements s) = collection_view h snapshot.
Proof.
  intros Hinv.
  destruct (history_invariant_elim _ _ Hinv)
    as (xs & hs & snap & Hx & Hxs & Hh & Hhs & Hb & Hsnap & Hview).
  exists hs, snap. split_and!; try (done || lia).
  rewrite Hview. unfold collection_view. by rewrite Hx.
Qed.

Section RoundTrip.

Variable near : heap → val → Z → Z → bool.

(** One step of the cursor to [i], a position of the log: the history is
    left as it is and the live collection gets the content of the
    snapshot there. *)
Lemma cursor_step h s hs snapshot i (a : action) :
  array_of h (history s) = Some hs →
  forallb (collection_ok h) hs = true →
  (0 ≤ i)%Z →
  hs !! Z.to_nat i = Some snapshot →
  boardReducer near h s a = restore h s snapshot i →
  ∃ h' s',
    boardReducer near h s a = Ok (h', s')
    ∧ h `prefix_of` h'
    ∧ history s' = history s
    ∧ index s' = i
    ∧ collection_view h' (elements s') = collection_view h snapshot
    ∧ history_invariant h' s' = true.
Proof.
  intros Hh Hhs Hi Hsnap ->.
  destruct (restore_cursor h s hs snapshot i Hh Hhs Hi Hsnap)
    as (h' & l & -> & Hp & Hl & Hinv).
  eexists _, _. split; [reflexivity|]. split_and!; try done.
  destruct (history_invariant_view _ _ Hinv) as (hs' & snap' & Hh' & _ & _ & Hs' & ->).
  cbn [history index with_index with_history with_elements] in Hh', Hs'.
  rewrite (array_of_ext _ _ _ _ Hp Hh) in Hh'. injection Hh' as <-.
  rewrite Hsnap in Hs'. injection Hs' as <-.
  apply collection_ok_ext; [done|].
  eapply forallb_forall in Hhs; [done|].
  apply list_elem_of_In. by eapply list_elem_of_lookup_2.
Qed.

Lemma undo_step h s :
  history_invariant h s = true →
  (0 < index s)%Z →
  ∃ h' s' snapshot,
    boardReducer near h s UNDO = Ok (h', s')
    ∧ h `prefix_of` h'
    ∧ history s' = history s
    ∧ index s' = (index s - 1)%Z
    ∧ history_entries h s !! Z.to_nat (index s - 1) = Some snapshot
    ∧ collection_view h' (elements s') = collection_view h snapshot
    ∧ history_invariant h' s' = true.
Proof.
  intros Hinv Hi.
  destruct (history_invariant_view _ _ Hinv) as (hs & snap & Hh & Hhs & Hb & Hsnap & Hv).
  assert (He : history_entries h s = hs) by (unfold history_entries; by rewrite Hh).
  destruct (lookup_lt_is_Some_2 hs (Z.to_nat (index s - 1))) as [prev Hprev]; [lia|].
  destruct (collection_ok_array h prev) as (ys & Hy & _).
  { eapply forallb_forall in Hhs; [done|].
    apply list_elem_of_In. by eapply list_elem_of_lookup_2. }
  destruct (cursor_step h s hs prev (index s - 1) UNDO) as (h' & s' & Hr & ?);
    [done|done|lia|done| |].
  { by apply (undo_restores near h s hs prev ys). }
  exists h', s', prev. rewrite He. by destruct_and!.
Qed.

Lemma redo_step h s :
  history_invariant h s = true →
  (index s < history_length h s - 1)%Z →
  ∃ h' s' snapshot,
    boardReducer near h s REDO = Ok (h', s')
    ∧ h `prefix_of` h'
    ∧ history s' = history s
    ∧ index s' = (index s + 1)%Z
    ∧ history_entries h s !! Z.to_nat (index s + 1) = Some snapshot
    ∧ collection_view h' (elements s') = collection_view h snapshot
    ∧ history_invariant h' s' = true.
Proof.
  intros Hinv Hi.
  destruct (history_invariant_view _ _ Hinv) as (hs & snap & Hh & Hhs & Hb & Hsnap & Hv).
  assert (He : history_entries h s = hs) by (unfold history_entries; by rewrite Hh).
  rewrite history_length_entries, He in Hi.
  destruct (lookup_lt_is_Some_2 hs (Z.to_nat (index s + 1))) as [next Hnext]; [lia|].
  destruct (collection_ok_array h next) as (ys & Hy & _).
  { eapply forallb_forall in Hhs; [done|].
    apply list_elem_of_In. by eapply list_elem_of_lookup_2. }
  destruct (cursor_step h s hs next (index s + 1) REDO) as (h' & s' & Hr & ?);
    [done|done|lia|done| |].
  { apply (redo_restores near h s hs next ys); try done.
    apply (get_index_array h _ hs); (done || lia). }
  exists h', s', next. rewrite He. by destruct_and!.
Qed.

End RoundTrip.

(** An undo followed by a redo brings the board back: the cursor and the
    history are the same, the live collection has the same content (in new
    objects), and the history invariant holds. *)
Theorem undo_then_redo_restores
    (near : heap → val → Z → Z → bool) (h : heap) (s : BoardState) :
  history_invariant h s = true →
  (0 < index s)%Z →
  ∃ h' s',
    dispatch_all near h s [UNDO; REDO] = Ok (h', s')
    ∧ index s' = index s
    ∧ history s' = history s
    ∧ history_entries h' s' = history_entries h s
    ∧ collection_view h' (elements s') = collection_view h (elements s)
    ∧ history_invariant h' s' = true.
Proof.
  intros Hinv Hi.
  destruct (history_invariant_view _ _ Hinv) as (hs & snap & Hh & Hhs & Hb & Hsnap & Hv).
  assert (He : history_entries h s = hs) by (unfold history_entries; by rewrite Hh).
  destruct (undo_step near h s Hinv Hi)
    as (h1 & s1 & prev & Hu & Hp1 & Hh1 & Hi1 & _ & _ & Hinv1).
  assert (He1 : history_entries h1 s1 = hs).
  { unfold history_entries. rewrite Hh1. by rewrite (array_of_ext _ _ _ _ Hp1 Hh). }
  destruct (redo_step near h1 s1 Hinv1)
    as (h2 & s2 & next & Hr & Hp2 & Hh2 & Hi2 & Hnext & Hv2 & Hinv2).
  { rewrite history_length_entries, He1. lia. }
  cbn [dispatch_all]. rewrite Hu, result_bind_ok, Hr, result_bind_ok.
  exists h2, s2. split; [done|]. split; [lia|]. split; [congruence|].
  assert (Hp : h `prefix_of` h2) by by etrans.
  split.
  { rewrite He. unfold history_entries. rewrite Hh2, Hh1.
    by rewrite (array_of_ext _ _ _ _ Hp Hh). }
  split; [|done].
  rewrite Hv2, Hv. rewrite He1, Hi1 in Hnext.
  replace (index s - 1 + 1)%Z with (index s) in Hnext by lia.
  rewrite Hsnap in Hnext. injection Hnext as <-.
  apply collection_ok_ext; [done|].
  eapply forallb_forall in Hhs; [done|].
  apply list_elem_of_In. by eapply list_elem_of_lookup_2.
Qed.

(** A redo followed by an undo brings the board back likewise. *)
Theorem redo_then_undo_restores
    (near : heap → val → Z → Z → bool) (h : heap) (s : BoardState) :
  history_invariant h s = true →
  (index s < history_length h s - 1)%Z →
  ∃ h' s',
    dispatch_all near h s [REDO; UNDO] = Ok (h', s')
    ∧ index s' = index s
    ∧ history s' = history s
    ∧ history_entries h' s' = history_entries h s
    ∧ collection_view h' (elements s') = collection_view h (elements s)
    ∧ history_invariant h' s' = true.
Proof.
  intros Hinv Hi.
  destruct (history_invariant_view _ _ Hinv) as (hs & snap & Hh & Hhs & Hb & Hsnap & Hv).
  assert (He : history_entries h s = hs) by (unfold history_entries; by rewrite Hh).
  destruct (redo_step near h s Hinv Hi)
    as (h1 & s1 & next & Hu & Hp1 & Hh1 & Hi1 & _ & _ & Hinv1).
  assert (He1 : history_entries h1 s1 = hs).
  { unfold history_entries. rewrite Hh1. by rewrite (array_of_ext _ _ _ _ Hp1 Hh). }
  destruct (undo_step near h1 s1 Hinv1)
    as (h2 & s2 & prev & Hr & Hp2 & Hh2 & Hi2 & Hprev & Hv2 & Hinv2); [lia|].
  cbn [dispatch_all]. rewrite Hu, result_bind_ok, Hr, result_bind_ok.
  exists h2, s2. split; [done|]. split; [lia|]. split; [congruence|].
  assert (Hp : h `prefix_of` h2) by by etrans.
  split.
  { rewrite He. unfold history_entries. rewrite Hh2, Hh1.
    by rewrite (array_of_ext _ _ _ _ Hp Hh). }
  split; [|done].
  rewrite Hv2, Hv. rewrite He1, Hi1 in Hprev.
  replace (index s + 1 - 1)%Z with (index s) in Hprev by lia.
  rewrite Hsnap in Hprev. injection Hprev as <-.
  apply collection_ok_ext; [done|].
  eapply forallb_forall in Hhs; [done|].
  apply list_elem_of_In. by eapply list_elem_of_lookup_2.
Qed.

(** The round trips on the board with one line: from the cursor on the
    line's snapshot, and from the cursor on the empty one. *)
Lemma undo_then_redo_restores_witness :
  history_invariant lineHeap lineState = true
  ∧ (0 < index lineState)%Z
  ∧ ∃ h' s',
      dispatch_all never_near lineHeap lineState [UNDO; REDO] = Ok (h', s')
      ∧ index s' = 1%Z
      ∧ collection_view h' (elements s') = collection_view lineHeap (VRef 1).
Proof.
  split; [vm_compute; reflexivity|]. split; [vm_compute; reflexivity|].
  destruct (undo_then_redo_restores never_near lineHeap lineState)
    as (h' & s' & H1 & H2 & _ & _ & H5 & _); [vm_compute; reflexivity..|].
  exists h', s'. split; [exact H1|]. split; [exact H2|exact H5].
Defined.

Lemma redo_then_undo_restores_witness :
  history_invariant lineHeap undoneState = true
  ∧ (index undoneState < history_length lineHeap undoneState - 1)%Z
  ∧ ∃ h' s',
      dispatch_all never_near lineHeap undoneState [REDO; UNDO] = Ok (h', s')
      ∧ index s' = 0%Z
      ∧ collection_view h' (elements s') = Some [].
Proof.
  split; [vm_compute; reflexivity|]. split; [vm_compute; reflexivity|].
  destruct (redo_then_undo_restores never_near lineHeap undoneState)
    as (h' & s' & H1 & H2 & _ & _ & H5 & _); [vm_compute; reflexivity..|].
  exists h', s'. split; [exact H1|]. split; [exact H2|exact H5].
Defined.

(** The isolation of a push on the canvas with one freehand stroke: the
    stroke's point is overwritten after the push. *)
Lemma draw_up_snapshot_isolated_witness :
  board_ok brushHeap brushState = true
  ∧ index_in_bounds brushHeap brushState = true
  ∧ brushHeap !! 0 = Some (props [("x", VNum 1); ("y", VNum 1)])
  ∧ ∃ h' s',
      boardReducer never_near brushHeap brushState DRAW_UP = Ok (h', s')
      ∧ content_unchanged h' (<[0:=props [("x", VNum 99); ("y", VNum 1)]]> h')
          (snapshot_at h' s' (index s')) = true.
Proof.
  split; [vm_compute; reflexivity|]. split; [vm_compute; reflexivity|].
  split; [reflexivity|].
  apply (draw_up_snapshot_isolated never_near brushHeap brushState 0
           (list_to_map [("x", VNum 1); ("y", VNum 1)])
           (list_to_map [("x", VNum 99); ("y", VNum 1)]));
    [vm_compute; reflexivity..|reflexivity].
Defined.

(** ** What undo and redo restore is made of new objects *)

Lemma prefix_insert_beyond (h h' : heap) (l : nat) (o : obj) :
  h `prefix_of` h' → length h ≤ l → h `prefix_of` <[l:=o]> h'.
Proof.
  intros [k ->] Hl. exists (<[l - length h:=o]> k).
  by rewrite insert_app_r_alt.
Qed.

(** The cells of the copy of an element are all new. *)
Lemma copy_cells_fresh h el h' :
  element_ok h el = true →
  (h ++ copy_cells h el) `prefix_of` h' →
  Forall (λ l, length h ≤ l) (element_cells h' (VRef (length h))).
Proof.
  intros Hok Hp. destruct (element_ok_object _ _ Hok) as [m Hm].
  unfold element_ok in Hok. rewrite Hm in Hok.
  apply andb_true_iff in Hok as [Hr Hpts].
  assert (Hph : h `prefix_of` h') by (etrans; [|exact Hp]; by eexists).
  unfold copy_cells in Hp. rewrite (object_of_own_props _ _ _ Hm) in Hp.
  unfold element_cells. cbn [value_cell own_props].
  destruct (m !! "points") as [pv|] eqn:Epv; cbn [mbind option_bind] in Hp.
  - apply andb_true_iff in Hpts as [Hal Hps].
    destruct (array_of h pv) as [ps|] eqn:Eps.
    + set (m' := <["points":=VRef (length h + 1 + length ps)]> m) in *.
      assert (H0 : h' !! length h = Some (OObj m')).
      { eapply prefix_lookup_Some; [|exact Hp].
        by rewrite lookup_app_r, Nat.sub_diag by lia. }
      assert (H2 : h' !! (length h + 1 + length ps)
                   = Some (OArr (VRef <$> seq (S (length h)) (length ps)))).
      { eapply prefix_lookup_Some; [|exact Hp].
        rewrite lookup_app_r by lia.
        replace (length h + 1 + length ps - length h) with (S (length ps)) by lia.
        rewrite lookup_cons_ne_0 by done. rewrite Nat.pred_succ.
        rewrite lookup_app_r by (rewrite point_cells_length; lia).
        by rewrite point_cells_length, Nat.sub_diag. }
      rewrite H0. unfold m'. rewrite lookup_insert_eq. cbn [array_of value_cell].
      rewrite H2. apply Forall_cons. split; [done|].
      apply Forall_cons. split; [lia|].
      apply Forall_forall. intros l Hin.
      apply list_elem_of_bind in Hin as (v & Hl & Hv).
      apply list_elem_of_fmap in Hv as (i & -> & Hi).
      apply elem_of_seq in Hi. simpl in Hl. apply list_elem_of_singleton in Hl. lia.
    + assert (H0 : h' !! length h = Some (OObj m)).
      { eapply prefix_lookup_Some; [|exact Hp].
        by rewrite lookup_app_r, Nat.sub_diag by lia. }
      rewrite H0, Epv, (array_of_ext_eq h h' pv Hph Hal), Eps.
      by apply Forall_cons.
  - assert (H0 : h' !! length h = Some (OObj m)).
    { eapply prefix_lookup_Some; [|exact Hp].
      by rewrite lookup_app_r, Nat.sub_diag by lia. }
    rewrite H0, Epv. by apply Forall_cons.
Qed.

Lemma copies_cells_fresh els : ∀ h0 h h',
  h0 `prefix_of` h →
  (h ++ copies_cells h els) `prefix_of` h' →
  forallb (element_ok h0) els = true →
  Forall (λ l, length h0 ≤ l) (copies_refs h els ≫= element_cells h').
Proof.
  induction els as [|el els IH]; intros h0 h h' Hp0 Hp Hok; [done|].
  cbn [copies_cells copies_refs forallb] in *.
  apply andb_true_iff in Hok as [Hel Hels].
  rewrite app_assoc in Hp.
  assert (Hpi : (h ++ copy_cells h el) `prefix_of` h') by (etrans; [|exact Hp]; by eexists).
  destruct (element_ok_ext h0 h el Hp0 Hel) as [Hel' _].
  rewrite bind_cons. apply Forall_app. split.
  - eapply Forall_impl; [by apply (copy_cells_fresh h el h')|].
    intros l Hl. apply prefix_length in Hp0. simpl in Hl. lia.
  - apply (IH h0 (h ++ copy_cells h el) h'); [|done|done].
    etrans; [exact Hp0|]. by eexists.
Qed.

(** The collection [restore] makes the live one consists of cells that
    were not there before. *)
Lemma restore_fresh h s snapshot i h' s' :
  collection_ok h snapshot = true →
  restore h s snapshot i = Ok (h', s') →
  Forall (λ l, length h ≤ l) (collection_cells h' (elements s')).
Proof.
  intros Hok. destruct (collection_ok_array _ _ Hok) as (xs & Hx & Hxs).
  rewrite (restore_exact h s snapshot xs i Hx), (elements_ok_valid _ _ Hxs).
  set (h1 := h ++ copies_cells h xs). intros [= <- <-].
  cbn [elements with_index with_history with_elements].
  unfold collection_cells. cbn [value_cell array_of].
  rewrite lookup_app_r, Nat.sub_diag by lia. cbn [lookup list_lookup].
  apply Forall_cons. split.
  { unfold h1. rewrite length_app. lia. }
  apply (copies_cells_fresh xs h h); [done| |done].
  by eexists.
Qed.

(** After an undo or a redo that moved the cursor, the live collection is
    made of cells that did not exist before, and overwriting any of them
    leaves the content of every snapshot of the history as it was. *)
Theorem restored_collection_is_fresh
    (near : heap → val → Z → Z → bool) (h : heap) (s : BoardState) (a : action) :
  history_invariant h s = true →
  cursor_move h s a = true →
  ∃ h' s',
    boardReducer near h s a = Ok (h', s')
    ∧ Forall (λ l, length h ≤ l) (collection_cells h' (elements s'))
    ∧ ∀ l o snapshot,
        l ∈ collection_cells h' (elements s') →
        snapshot ∈ history_entries h' s' →
        content_unchanged h' (<[l:=o]> h') snapshot = true.
Proof.
  intros Hinv Hmove.
  destruct (history_invariant_view _ _ Hinv) as (hs & snap & Hh & Hhs & Hb & Hsnap & Hv).
  assert (He : history_entries h s = hs) by (unfold history_entries; by rewrite Hh).
  assert (Hstep : ∃ h' s' target,
            boardReducer near h s a = Ok (h', s')
            ∧ h `prefix_of` h'
            ∧ history s' = history s
            ∧ target ∈ hs
            ∧ boardReducer near h s a = restore h s target (index s')).
  { destruct a; try done; simpl in Hmove.
    - apply Z.ltb_lt in Hmove.
      destruct (undo_step near h s Hinv Hmove)
        as (h' & s' & prev & Hu & Hp & Hh' & Hi' & Hprev & _).
      rewrite He in Hprev. exists h', s', prev. split_and!; try done.
      + by eapply list_elem_of_lookup_2.
      + destruct (collection_ok_array h prev) as (ys & Hy & _).
        { eapply forallb_forall in Hhs; [done|].
          apply list_elem_of_In. by eapply list_elem_of_lookup_2. }
        rewrite Hi'. by apply (undo_restores near h s hs prev ys).
    - apply Z.ltb_lt in Hmove.
      destruct (redo_step near h s Hinv Hmove)
        as (h' & s' & next & Hu & Hp & Hh' & Hi' & Hnext & _).
      rewrite He in Hnext. exists h', s', next. split_and!; try done.
      + by eapply list_elem_of_lookup_2.
      + destruct (collection_ok_array h next) as (ys & Hy & _).
        { eapply forallb_forall in Hhs; [done|].
          apply list_elem_of_In. by eapply list_elem_of_lookup_2. }
        rewrite Hi'. rewrite history_length_entries, He in Hmove.
        apply (redo_restores near h s hs next ys); try done.
        apply (get_index_array h _ hs); (done || lia). }
  destruct Hstep as (h' & s' & target & Hr & Hp & Hh' & Hin & Hrest).
  exists h', s'. split; [done|].
  assert (Hfresh : Forall (λ l, length h ≤ l) (collection_cells h' (elements s'))).
  { apply (restore_fresh h s target (index s')).
    - eapply forallb_forall in Hhs; [done|]. by apply list_elem_of_In.
    - by rewrite <- Hrest. }
  split; [done|].
  intros l o snapshot Hl Hs.
  assert (He' : history_entries h' s' = hs).
  { unfold history_entries. rewrite Hh'. by rewrite (array_of_ext _ _ _ _ Hp Hh). }
  rewrite He' in Hs.
  assert (Hok : collection_ok h snapshot = true).
  { eapply forallb_forall in Hhs; [done|]. by apply list_elem_of_In. }
  apply bool_decide_eq_true.
  destruct (collection_ok_ext h h' snapshot Hp Hok) as [_ ->].
  destruct (collection_ok_ext h (<[l:=o]> h') snapshot) as [_ ->]; [|done..].
  apply prefix_insert_beyond; [done|].
  by eapply Forall_forall in Hfresh.
Qed.

(** On the board with one line: an undo, then a write to the restored
    collection's array. *)
Lemma restored_collection_is_fresh_witness :
  history_invariant lineHeap lineState = true
  ∧ cursor_move lineHeap lineState UNDO = true
  ∧ ∃ h' s',
      boardReducer never_near lineHeap lineState UNDO = Ok (h', s')
      ∧ Forall (λ l, length lineHeap ≤ l) (collection_cells h' (elements s')).
Proof.
  split; [vm_compute; reflexivity|]. split; [vm_compute; reflexivity|].
  destruct (restored_collection_is_fresh never_near lineHeap lineState UNDO)
    as (h' & s' & H1 & H2 & _); [vm_compute; reflexivity..|].
  exists h', s'. split; [exact H1|exact H2].
Defined.

(** ** Committing a text *)

Lemma type_of_truthy h el : truthy (type_of h el) = true → truthy el = true.
Proof. unfold type_of. by destruct (truthy el). Qed.

Lemma type_of_get_prop h el :
  truthy el = true → get_prop h el "type" = Ok (type_of h el).
Proof.
  intros Htr. unfold type_of. rewrite Htr. by rewrite get_prop_own.
Qed.

Lemma type_of_allocated h el : truthy (type_of h el) = true → allocated h el = true.
Proof.
  intros Ht. destruct el as [| | | | |l]; try done. simpl.
  apply bool_decide_eq_true. apply lookup_lt_is_Some.
  unfold type_of in Ht. simpl in Ht.
  destruct (h !! l) as [o|] eqn:E; [by eexists|]. done.
Qed.

Lemma last_element_app h s init e :
  array_of h (elements s) = Some (init ++ [e]) → last_element h s = e.
Proof. intros Hx. unfold last_element. by rewrite Hx, List.last_last. Qed.

Lemma get_index_last h v init e :
  array_of h v = Some (init ++ [e]) →
  get_index h v (Some (Z.of_nat (length (init ++ [e])) - 1)%Z) = e.
Proof.
  intros Hx. apply (get_index_array h v (init ++ [e])); [done|rewrite length_app; simpl; lia|].
  rewrite length_app. simpl.
  replace (Z.to_nat (Z.of_nat (length init + 1) - 1)) with (length init) by lia.
  by rewrite lookup_app_r, Nat.sub_diag.
Qed.

Section ChangeText.

Variable near : heap → val → Z → Z → bool.

(** Without a text at the end of the live collection the state is
    returned as it is. *)
Lemma change_text_noop h s text xs :
  array_of h (elements s) = Some xs →
  strict_eq (type_of h (last_element h s)) TOOL_ITEMS.TEXT = false →
  boardReducer near h s (CHANGE_TEXT text) = Ok (h, s).
Proof.
  intros Hx Hty. cbn [boardReducer].
  rewrite (array_of_length _ _ _ Hx), result_bind_ok. cbn [minus_one].
  rewrite result_bind_ok. cbn [ltb0_nan].
  destruct xs as [|e init _] using rev_ind.
  { by destruct (Z.ltb_spec (Z.of_nat (length (@nil val)) - 1) 0); [|simpl in *; lia]. }
  rewrite (last_element_app _ _ _ _ Hx) in Hty.
  destruct (Z.ltb_spec (Z.of_nat (length (init ++ [e])) - 1) 0); [done|].
  rewrite (get_index_last _ _ _ _ Hx).
  destruct (truthy e) eqn:Htr; [|done]. cbn [negb].
  by rewrite (type_of_get_prop _ _ Htr), result_bind_ok, Hty.
Qed.

(** With a text at the end: the new live array, the copy of the text
    element with the text set, and the new history array, whose last entry
    is the new live array. *)
Lemma change_text_exact h s text init e :
  array_of h (elements s) = Some (init ++ [e]) →
  history_typed h s = true →
  type_of h e = TOOL_ITEMS.TEXT →
  boardReducer near h s (CHANGE_TEXT text)
  = Ok (h ++ [OArr (init ++ [VRef (S (length h))]);
              OObj (<["text":=VStr text]> (own_props h e));
              OArr (slice0 (history_entries h s) (index s + 1) ++ [VRef (length h)])],
        with_action_type
          (with_history (with_elements s (VRef (length h))) (VRef (S (S (length h))))
             (index s + 1))
          TOOL_ACTION_TYPES.NONE).
Proof.
  intros Hx Ht Hty. cbn [boardReducer].
  rewrite (array_of_length _ _ _ Hx), result_bind_ok. cbn [minus_one].
  rewrite result_bind_ok. cbn [ltb0_nan].
  destruct (Z.ltb_spec (Z.of_nat (length (init ++ [e])) - 1) 0) as [Hlt|Hge].
  { rewrite length_app in Hlt. simpl in Hlt. lia. }
  rewrite (get_index_last _ _ _ _ Hx).
  assert (Htt : truthy (type_of h e) = true) by by rewrite Hty.
  assert (Htr : truthy e = true) by by apply (type_of_truthy h).
  assert (Hal : allocated h e = true) by by apply type_of_allocated.
  rewrite Htr. cbn [negb].
  rewrite (type_of_get_prop _ _ Htr), result_bind_ok, Hty, strict_eq_refl. cbn [negb].
  rewrite (array_of_iterate _ _ _ Hx), result_bind_ok. cbn [alloc].
  rewrite (own_props_ext h (h ++ [OArr (init ++ [e])])) by (done || by eexists).
  unfold set_index. rewrite <- app_assoc.
  rewrite lookup_app_r by lia. rewrite Nat.sub_diag. cbn [lookup list_lookup app].
  destruct (Z.leb_spec 0 (Z.of_nat (length (init ++ [e])) - 1)); [|lia].
  destruct (Z.ltb_spec (Z.of_nat (length (init ++ [e])) - 1)
              (Z.of_nat (length (init ++ [e])))); [|lia].
  cbn [andb]. rewrite result_bind_ok.
  rewrite insert_app_r_alt by lia. rewrite Nat.sub_diag. cbn [insert list_insert app].
  assert (Hins : <[Z.to_nat (Z.of_nat (length (init ++ [e])) - 1):=
                     VRef (length (h ++ [OArr (init ++ [e])]))]> (init ++ [e])
                 = init ++ [VRef (S (length h))]).
  { rewrite !length_app. simpl.
    replace (Z.to_nat (Z.of_nat (length init + 1) - 1)) with (length init) by lia.
    rewrite insert_app_r_alt by lia. rewrite Nat.sub_diag. simpl.
    by rewrite Nat.add_1_r. }
  rewrite Hins.
  set (h3 := h ++ _).
  assert (Hp : h `prefix_of` h3) by by eexists.
  destruct (history_typed_ext _ _ s Hp Ht) as [Ht' He'].
  assert (Ht3 : history_typed h3 (with_elements s (VRef (length h))) = true) by done.
  rewrite (push_history_exact h3 s) by done. rewrite result_bind_ok.
  rewrite He'. unfold h3. rewrite <- app_assoc. simpl.
  rewrite length_app. simpl. by replace (length h + 2) with (S (S (length h))) by lia.
Qed.

End ChangeText.

(** The blur of the text box: unless the last element of the live
    collection is a text the state is returned as it is; otherwise the live
    collection becomes a new array whose last entry is a new copy of the
    text element with the text set, the old element being left as it was;
    the action type goes back to NONE, and the new live array itself is
    pushed on the history, which so shares it. *)
Theorem change_text_replaces_last
    (near : heap → val → Z → Z → bool) (h : heap) (s : BoardState)
    (text : string) (xs : list val) :
  array_of h (elements s) = Some xs →
  history_typed h s = true →
  if strict_eq (type_of h (last_element h s)) TOOL_ITEMS.TEXT then
    ∃ h' s' init changed,
      boardReducer near h s (CHANGE_TEXT text) = Ok (h', s')
      ∧ xs = init ++ [last_element h s]
      ∧ h `prefix_of` h'
      ∧ array_of h' (elements s') = Some (init ++ [changed])
      ∧ allocated h changed = false
      ∧ own_props h' changed = <["text":=VStr text]> (own_props h (last_element h s))
      ∧ toolActionType s' = TOOL_ACTION_TYPES.NONE
      ∧ index s' = (index s + 1)%Z
      ∧ history_entries h' s'
        = slice0 (history_entries h s) (index s + 1) ++ [elements s']
  else boardReducer near h s (CHANGE_TEXT text) = Ok (h, s).
Proof.
  intros Hx Ht.
  destruct (strict_eq (type_of h (last_element h s)) TOOL_ITEMS.TEXT) eqn:Hty;
    [|by apply (change_text_noop near h s text xs)].
  apply strict_eq_true in Hty.
  assert (Hinit : ∃ init, xs = init ++ [last_element h s]).
  { assert (Htr : truthy (last_element h s) = true).
    { apply (type_of_truthy h). by rewrite Hty. }
    unfold last_element in *. rewrite Hx in *. by apply truthy_last_nonempty. }
  destruct Hinit as [init Hinit]. set (e := last_element h s) in *.
  rewrite Hinit in Hx.
  rewrite (change_text_exact near h s text init e Hx Ht Hty).
  eexists _, _, init, (VRef (S (length h))). split; [reflexivity|].
  cbn [elements toolActionType index with_action_type with_history with_elements].
  split_and!; try done.
  - by eexists.
  - simpl. by rewrite lookup_app_r, Nat.sub_diag by lia.
  - simpl. apply bool_decide_eq_false. lia.
  - simpl. rewrite lookup_app_r by lia.
    by replace (S (length h) - length h) with 1 by lia.
  - unfold history_entries at 1. simpl. rewrite lookup_app_r by lia.
    by replace (S (S (length h)) - length h) with 2 by lia.
Qed.

(** The blur on the canvas whose last element is a text, and on the canvas
    with one line. *)
Lemma change_text_replaces_last_witness :
  array_of textHeap (elements textState) = Some [VRef 0]
  ∧ history_typed textHeap textState = true
  ∧ (∃ h' s', boardReducer never_near textHeap textState (CHANGE_TEXT "ok") = Ok (h', s')
              ∧ toolActionType s' = TOOL_ACTION_TYPES.NONE
              ∧ index s' = 1%Z)
  ∧ boardReducer never_near lineHeap lineState (CHANGE_TEXT "ok") = Ok (lineHeap, lineState).
Proof.
  split; [vm_compute; reflexivity|]. split; [vm_compute; reflexivity|].
  split.
  - pose proof (change_text_replaces_last never_near textHeap textState "ok" [VRef 0]) as H.
    destruct H as (h' & s' & init & changed & H1 & _ & _ & _ & _ & _ & H7 & H8 & _);
      [vm_compute; reflexivity..|].
    exists h', s'. split; [exact H1|]. split; [exact H7|exact H8].
  - apply (change_text_replaces_last never_near lineHeap lineState "ok" [VRef 0]);
      vm_compute; reflexivity.
Defined.

(** ** The reducer and the objects of the previous state *)

Lemma alloc_prefix (h : heap) (o : obj) : h `prefix_of` (alloc h o).1.
Proof. by eexists. Qed.

Lemma map_heap_prefix (f : heap → val → result (heap * val)) :
  (∀ h x h' y, f h x = Ok (h', y) → h `prefix_of` h') →
  ∀ xs h h' ys, map_heap f h xs = Ok (h', ys) → h `prefix_of` h'.
Proof.
  intros Hf. induction xs as [|x xs IH]; intros h h' ys; cbn [map_heap].
  - by intros [= <- _].
  - destruct (f h x) as [[h1 y]| |] eqn:E1; [|done..]. rewrite result_bind_ok.
    destruct (map_heap f h1 xs) as [[h2 zs]| |] eqn:E2; [|done..].
    rewrite result_bind_ok. intros [= <- _].
    etrans; [by eapply Hf|by eapply IH].
Qed.

Lemma copy_point_prefix h p h' c : copy_point h p = Ok (h', c) → h `prefix_of` h'.
Proof. rewrite copy_point_eq. intros [= <- _]. by eexists. Qed.

Lemma set_prop_beyond h0 h v k x h' :
  set_prop h v k x = Ok h' → h0 `prefix_of` h → allocated h0 v = false →
  h0 `prefix_of` h'.
Proof.
  intros Hs Hp Hal. destruct v as [| | | | |l]; try done. simpl in *.
  apply bool_decide_eq_false in Hal.
  destruct (h !! l) as [[|m]|]; try done. injection Hs as <-.
  apply prefix_insert_beyond; [done|lia].
Qed.

Lemma copy_element_prefix h el h' c : copy_element h el = Ok (h', c) → h `prefix_of` h'.
Proof.
  unfold copy_element. cbn [alloc].
  set (h1 := h ++ [OObj (own_props h el)]).
  assert (Hp1 : h `prefix_of` h1) by by eexists.
  destruct (get_prop h1 el "points") as [pts| |]; [|done..]. rewrite result_bind_ok.
  destruct (truthy pts && isArray h1 pts); [|by intros [= <- _]].
  destruct (as_array h1 pts) as [ps| |]; [|done..]. rewrite result_bind_ok.
  destruct (map_heap copy_point h1 ps) as [[h2 qs]| |] eqn:E2; [|done..].
  rewrite result_bind_ok.
  assert (Hp2 : h1 `prefix_of` h2) by (eapply map_heap_prefix; [apply copy_point_prefix|done]).
  destruct (set_prop (h2 ++ [OArr qs]) (VRef (length h)) "points" (VRef (length h2)))
    as [h4| |] eqn:E4; [|done..].
  rewrite result_bind_ok. intros [= <- _].
  eapply set_prop_beyond; [exact E4| |].
  - etrans; [exact Hp1|]. etrans; [exact Hp2|]. by eexists.
  - simpl. apply bool_decide_eq_false. lia.
Qed.

Lemma push_history_prefix h s v h' hi :
  push_history h s v = Ok (h', hi) → h `prefix_of` h'.
Proof.
  unfold push_history. destruct (currentHistory h s); [|done..].
  rewrite result_bind_ok. intros [= <- _]. by eexists.
Qed.

Lemma json_clone_prefix fuel : ∀ h v h' v',
  json_clone fuel h v = Ok (h', v') → h `prefix_of` h'.
Proof.
  induction fuel as [|n IH]; intros h v h' v'.
  - destruct v; simpl; try done; by intros [= <- _].
  - destruct v as [| | | | |l]; cbn [json_clone]; try (by intros [= <- _]).
    destruct (h !! l) as [[xs|m]|].
    + destruct (map_heap _ h xs) as [[h1 ys]| |] eqn:E; [|done..].
      rewrite result_bind_ok. intros [= <- _].
      etrans; [|by eexists].
      eapply map_heap_prefix; [|exact E]. intros ? ? ? ?. apply IH.
    + destruct (map_heap _ h _) as [[h1 ys]| |] eqn:E; [|done..].
      rewrite result_bind_ok. intros [= <- _].
      etrans; [|by eexists].
      eapply map_heap_prefix; [|exact E]. apply IH.
    + intros [= <- _]. by eexists.
Qed.

Lemma json_roundtrip_prefix h v h' v' :
  json_roundtrip h v = Ok (h', v') → h `prefix_of` h'.
Proof. destruct v; try done; apply json_clone_prefix. Qed.

Lemma restore_prefix h s snapshot i h' s' :
  restore h s snapshot i = Ok (h', s') → h `prefix_of` h'.
Proof.
  unfold restore. destruct (as_array h snapshot) as [xs| |]; [|done..].
  rewrite result_bind_ok.
  destruct (map_heap copy_element h _) as [[h1 cs]| |] eqn:E; [|done..].
  rewrite result_bind_ok. intros [= <- _].
  etrans; [|by eexists]. eapply map_heap_prefix; [apply copy_element_prefix|exact E].
Qed.

Lemma createElement_prefix h id x1 y1 x2 y2 t st fi sz :
  h `prefix_of` (createElement h id x1 y1 x2 y2 t st fi sz).1.
Proof.
  destruct (createElement_cases h id x1 y1 x2 y2 t st fi sz) as (cells & l & m & -> & _).
  by eexists.
Qed.

Lemma set_index_beyond h0 h v i x h' :
  set_index h v i x = Ok h' → h0 `prefix_of` h → allocated h0 v = false →
  h0 `prefix_of` h'.
Proof.
  intros Hs Hp Hal. destruct v as [| | | | |l]; try done. destruct i as [i|]; [|done].
  simpl in *. apply bool_decide_eq_false in Hal.
  destruct (h !! l) as [[xs|]|]; try done.
  destruct (_ && _); [|done]. injection Hs as <-.
  apply prefix_insert_beyond; [done|lia].
Qed.

(** Every transition but [DRAW_MOVE] leaves all the cells that were there
    as they were: what it builds, it builds in new cells. *)
Theorem reducer_keeps_previous_state
    (near : heap → val → Z → Z → bool) (h : heap) (s : BoardState) (a : action)
    (h' : heap) (s' : BoardState) :
  boardReducer near h s a = Ok (h', s') →
  (∀ x y, a ≠ DRAW_MOVE x y) →
  h `prefix_of` h'.
Proof.
  intros Hr Hmove.
  destruct a as [tool|ty|x y st fi sz|x y| |x y|text| | |els|cid|els|els|b| ];
    cbn [boardReducer] in Hr.
  - by injection Hr as <- _.
  - by injection Hr as <- _.
  - destruct (get_prop h (elements s) "length") as [len| |]; [|done..].
    rewrite result_bind_ok in Hr.
    match type of Hr with context [createElement ?a ?b ?c ?d ?e ?f ?g ?i ?j ?k] =>
      pose proof (createElement_prefix a b c d e f g i j k) as Hc;
      destruct (createElement a b c d e f g i j k) as [h1 newElement]
    end.
    destruct (iterate h1 (elements s)) as [prev| |]; [|done..].
    rewrite result_bind_ok in Hr. injection Hr as <- _.
    etrans; [exact Hc|]. by eexists.
  - by destruct (Hmove x y).
  - destruct (as_array h (elements s)) as [xs| |]; [|done..].
    rewrite result_bind_ok in Hr.
    destruct (map_heap copy_element h _) as [[h1 cs]| |] eqn:E; [|done..].
    rewrite result_bind_ok in Hr. cbn [alloc] in Hr.
    destruct (push_history _ s _) as [[h3 hi]| |] eqn:E3; [|done..].
    rewrite result_bind_ok in Hr. injection Hr as <- _.
    etrans; [eapply map_heap_prefix; [apply copy_element_prefix|exact E]|].
    etrans; [|by eapply push_history_prefix]. by eexists.
  - destruct (as_array h (elements s)) as [xs| |]; [|done..].
    rewrite result_bind_ok in Hr. cbn [alloc] in Hr.
    destruct (push_history _ s _) as [[h3 hi]| |] eqn:E3; [|done..].
    rewrite result_bind_ok in Hr. injection Hr as <- _.
    etrans; [|by eapply push_history_prefix]. by eexists.
  - destruct (get_prop h (elements s) "length") as [len| |]; [|done..].
    rewrite result_bind_ok in Hr.
    destruct (minus_one len) as [idx| |]; [|done..]. rewrite result_bind_ok in Hr.
    destruct (ltb0_nan idx); [by injection Hr as <- _|].
    destruct (negb (truthy _)); [by injection Hr as <- _|].
    destruct (get_prop h _ "type") as [t| |]; [|done..]. rewrite result_bind_ok in Hr.
    destruct (negb (strict_eq t TOOL_ITEMS.TEXT)); [by injection Hr as <- _|].
    destruct (iterate h (elements s)) as [xs| |]; [|done..].
    rewrite result_bind_ok in Hr. cbn [alloc] in Hr.
    destruct (set_index _ _ idx _) as [h3| |] eqn:E3; [|done..].
    rewrite result_bind_ok in Hr.
    destruct (push_history _ s _) as [[h4 hi]| |] eqn:E4; [|done..].
    rewrite result_bind_ok in Hr. injection Hr as <- _.
    etrans; [|by eapply push_history_prefix].
    eapply set_index_beyond; [exact E3| |].
    + rewrite <- app_assoc. by eexists.
    + simpl. apply bool_decide_eq_false. lia.
  - destruct (negb (truthy (history s))); [by injection Hr as <- _|].
    destruct (get_prop h (history s) "length") as [len| |]; [|done..].
    rewrite result_bind_ok in Hr.
    destruct (strict_eq len (VNum 0)); [by injection Hr as <- _|].
    destruct (index s <=? 0)%Z; [by injection Hr as <- _|].
    destruct (_ || _).
    + destruct (_ && _); by injection Hr as <- _.
    + by eapply restore_prefix.
  - destruct (negb (truthy (history s))); [by injection Hr as <- _|].
    destruct (get_prop h (history s) "length") as [len| |]; [|done..].
    rewrite result_bind_ok in Hr.
    destruct (strict_eq len (VNum 0)); [by injection Hr as <- _|].
    destruct (minus_one len) as [li| |]; [|done..]. rewrite result_bind_ok in Hr.
    destruct (geb_nan (index s) li); [by injection Hr as <- _|].
    destruct (_ || _).
    + destruct (_ && _); [|by injection Hr as <- _].
      destruct (json_roundtrip h _) as [[h1 c]| |] eqn:E; [|done..].
      rewrite result_bind_ok in Hr. destruct li; [|done].
      rewrite result_bind_ok in Hr. injection Hr as <- _.
      by eapply json_roundtrip_prefix.
    + by eapply restore_prefix.
  - destruct (truthy els); cbn [alloc] in Hr; injection Hr as <- _.
    + by eexists.
    + rewrite <- app_assoc. by eexists.
  - by injection Hr as <- _.
  - by injection Hr as <- _.
  - destruct (truthy els); cbn [alloc] in Hr; injection Hr as <- _.
    + by eexists.
    + rewrite <- app_assoc. by eexists.
  - by injection Hr as <- _.
  - by injection Hr as <- _.
Qed.

(** [DRAW_MOVE] over a freehand stroke is the exception: it writes to the
    last element of the previous state. The element that the previous
    collection holds has one point more after the transition, and the old
    heap is not a part of the new one. *)
Theorem brush_move_mutates_previous_state
    (near : heap → val → Z → Z → bool) (h : heap) (s : BoardState)
    (x y : Z) (xs : list val) :
  array_of h (elements s) = Some xs →
  forallb (allocated h) xs = true →
  strict_eq (type_of h (last_element h s)) TOOL_ITEMS.BRUSH = true →
  brush_has_points h (last_element h s) = true →
  ∃ h' s' ps p,
    boardReducer near h s (DRAW_MOVE x y) = Ok (h', s')
    ∧ last_element h s ∈ xs
    ∧ (get_prop h (last_element h s) "points" ≫= as_array h) = Ok ps
    ∧ (get_prop h' (last_element h s) "points" ≫= as_array h') = Ok (ps ++ [p])
    ∧ own_props h' p = point_props x y
    ∧ ¬ h `prefix_of` h'.
Proof.
  intros Hx Hal Hb Hpts.
  destruct (draw_move_brush near h s x y xs Hx Hal Hb Hpts)
    as (h' & l & ps & p & points' & Hr & Hl & Hnew & Hps & Hget & Harr & Hp).
  destruct (draw_move_start h s xs Hx Hal) as (_ & Hall & _).
  exists h', (with_elements s (VRef l)), ps, p. split_and!; try done.
  - assert (Htr : truthy (last_element h s) = true).
    { apply (drawable_truthy h). unfold drawable_type. rewrite Hb. apply orb_true_r. }
    unfold last_element in *. rewrite Hx in *.
    destruct (truthy_last_nonempty xs Htr) as [init Hinit].
    rewrite Hinit at 2. apply elem_of_app. right. by apply list_elem_of_singleton.
  - rewrite Hget, result_bind_ok. by apply array_of_as_array.
  - intros Hpre.
    rewrite (get_prop_ext h h') in Hget by done. rewrite Hget, result_bind_ok in Hps.
    apply as_array_array_of in Hps.
    rewrite (array_of_ext _ _ _ _ Hpre Hps) in Harr. injection Harr as Harr.
    apply (f_equal length) in Harr. rewrite length_app in Harr. simpl in Harr. lia.
Qed.

(** An erase pass on the board with one line, and a move over the stroke
    being drawn. *)
Lemma reducer_keeps_previous_state_witness :
  ∃ h' s',
    boardReducer never_near lineHeap lineState (ERASE 0 0) = Ok (h', s')
    ∧ lineHeap `prefix_of` h'.
Proof.
  eexists _, _. split; [vm_compute; reflexivity|].
  apply (reducer_keeps_previous_state never_near lineHeap lineState (ERASE 0 0) _
           (with_history (with_elements lineState (VRef 6)) (VRef 7) 2));
    [vm_compute; reflexivity|discriminate].
Defined.

Lemma brush_move_mutates_previous_state_witness :
  array_of brushHeap (elements strokeState) = Some [VRef 2]
  ∧ forallb (allocated brushHeap) [VRef 2] = true
  ∧ strict_eq (type_of brushHeap (last_element brushHeap strokeState)) TOOL_ITEMS.BRUSH
    = true
  ∧ brush_has_points brushHeap (last_element brushHeap strokeState) = true
  ∧ ∃ h' s',
      boardReducer never_near brushHeap strokeState (DRAW_MOVE 7 9) = Ok (h', s')
      ∧ ¬ brushHeap `prefix_of` h'.
Proof.
  split; [vm_compute; reflexivity|]. split; [vm_compute; reflexivity|].
  split; [vm_compute; reflexivity|]. split; [vm_compute; reflexivity|].
  destruct (brush_move_mutates_previous_state never_near brushHeap strokeState 7 9
              [VRef 2]) as (h' & s' & ps & p & H1 & _ & _ & _ & _ & H6);
    [vm_compute; reflexivity..|].
  exists h', s'. split; [exact H1|exact H6].
Defined.

(** ** Arrays have no [type] *)

Lemma pretty_N_char_digit (x : N) : digit (pretty_N_char x) = true.
Proof.
  destruct x as [|p]; [done|].
  destruct p as [p|p|]; try done;
    destruct p as [p|p|]; try done;
    destruct p as [p|p|]; try done;
    destruct p as [p|p|]; done.
Qed.

Lemma pretty_N_go_digit (x : N) : ∀ s,
  starts_with_digit s = true → starts_with_digit (pretty_N_go x s) = true.
Proof.
  induction (N.lt_wf_0 x) as [x _ IH]. intros s Hs.
  destruct (decide (x = 0%N)) as [->|Hx]; [by rewrite pretty_N_go_0|].
  rewrite pretty_N_go_step by lia.
  apply IH; [by apply N.div_lt; lia|]. apply pretty_N_char_digit.
Qed.

Lemma pretty_nat_digit (i : nat) : starts_with_digit (pretty i) = true.
Proof.
  unfold pretty, pretty_nat, pretty, pretty_N.
  destruct (decide (N.of_nat i = 0%N)) as [|Hx]; [done|].
  rewrite pretty_N_go_step by lia.
  apply pretty_N_go_digit, pretty_N_char_digit.
Qed.

(** A name that does not start with a digit is no index of an array. *)
Lemma indexed_props_name (xs : list val) (k : string) :
  starts_with_digit k = false → indexed_props xs !! k = None.
Proof.
  intros Hk. unfold indexed_props. apply not_elem_of_list_to_map_1.
  intros Hin. apply list_elem_of_fmap in Hin as ([k' x] & -> & Hin).
  apply elem_of_lookup_imap in Hin as (i & y & [= -> ->] & _).
  simpl in Hk. by rewrite pretty_nat_digit in Hk.
Qed.

Lemma type_of_array h v xs : array_of h v = Some xs → type_of h v = VUndef.
Proof.
  intros Hx. destruct v as [| | | | |l]; try done. simpl in Hx.
  unfold type_of. cbn [truthy get_prop].
  destruct (h !! l) as [[ys|]|]; try done.
  by rewrite indexed_props_name.
Qed.

Lemma valid_element_array h v xs : array_of h v = Some xs → valid_element h v = false.
Proof.
  intros Hx. rewrite valid_element_type_of, (type_of_array _ _ _ Hx).
  apply andb_false_r.
Qed.

(** ** The history after a load *)

Section WrappedHistory.

Variable near : heap → val → Z → Z → bool.

(** A push on the history of one entry, with the cursor on it. *)
Lemma push_on_single h s a xs w :
  array_of h (elements s) = Some xs →
  array_of h (history s) = Some [w] →
  index s = 0%Z →
  pushes a = true →
  ∃ h' s' top,
    boardReducer near h s a = Ok (h', s')
    ∧ h `prefix_of` h'
    ∧ array_of h' (history s') = Some [w; top]
    ∧ index s' = 1%Z.
Proof.
  intros Hx Hh Hi Ha. pose proof (array_of_history_typed _ _ _ Hh) as Ht.
  assert (He : history_entries h s = [w]) by (unfold history_entries; by rewrite Hh).
  destruct a as [| | | | |x y| | | | | | | | | ]; try done.
  - destruct (draw_up_pushes near h s xs Hx Ht)
      as (h' & l & top & -> & Hp & Hl & Hhist & _).
    rewrite He, Hi in Hhist. eexists _, _, (VRef top). split; [reflexivity|].
    split; [done|]. cbn [history index with_history]. split; [|lia].
    simpl. by rewrite Hhist.
  - rewrite (erase_exact near h s x y xs Hx Ht), He, Hi.
    eexists _, _, _. split; [reflexivity|]. split; [by eexists|].
    cbn [history index with_history]. split; [|lia].
    simpl. by rewrite lookup_alloc2.
Qed.

(** When the first entry of the history is not a collection of elements
    but an array holding one, an undo to it leaves the live collection
    empty: the filter of the restoring copy drops the inner array, which has
    no type. *)
Lemma undo_to_wrapper h s w top inner ys :
  array_of h (history s) = Some [w; top] →
  index s = 1%Z →
  array_of h w = Some [inner] →
  array_of h inner = Some ys →
  ∃ h' s',
    boardReducer near h s UNDO = Ok (h', s')
    ∧ array_of h' (elements s') = Some []
    ∧ index s' = 0%Z
    ∧ history s' = history s.
Proof.
  intros Hh Hi Hw Hinner.
  rewrite (undo_restores near h s [w; top] w [inner]); try done; [|lia|by rewrite Hi].
  rewrite (restore_exact h s w [inner] (index s - 1) Hw). cbv zeta.
  assert (Hv : validElements h [inner] = []).
  { unfold validElements. simpl. by rewrite (valid_element_array _ _ _ Hinner). }
  rewrite Hv. cbn [copies_cells copies_refs]. rewrite app_nil_r.
  eexists _, _. split; [reflexivity|].
  cbn [elements index history with_index with_history with_elements].
  split; [|split; [lia|done]].
  simpl. by rewrite lookup_alloc.
Qed.

Lemma wrapped_history_undo h s a xs w inner ys :
  array_of h (elements s) = Some xs →
  array_of h (history s) = Some [w] →
  index s = 0%Z →
  array_of h w = Some [inner] →
  array_of h inner = Some ys →
  pushes a = true →
  ∃ h' s',
    dispatch_all near h s [a; UNDO] = Ok (h', s')
    ∧ array_of h' (elements s') = Some []
    ∧ index s' = 0%Z.
Proof.
  intros Hx Hh Hi Hw Hinner Ha.
  destruct (push_on_single h s a xs w Hx Hh Hi Ha) as (h1 & s1 & top & Hr & Hp & Hh1 & Hi1).
  destruct (undo_to_wrapper h1 s1 w top inner ys Hh1 Hi1) as (h2 & s2 & Hu & He & Hi2 & _).
  { by eapply array_of_ext. }
  { by eapply array_of_ext. }
  exists h2, s2. cbn [dispatch_all]. by rewrite Hr, result_bind_ok, Hu, result_bind_ok.
Qed.

End WrappedHistory.

Lemma dispatch_load near h s els w :
  truthy w = true →
  dispatch_all near h s [SET_CANVAS_ELEMENTS els; SET_HISTORY w]
  = Ok (h ++ [OArr [w]], with_history (with_elements s els) (VRef (length h)) 0).
Proof.
  intros Hw. cbn [dispatch_all boardReducer]. rewrite result_bind_ok, Hw.
  cbn [alloc]. by rewrite result_bind_ok.
Qed.

(** The listeners that load a canvas hand [[elements]] to [setHistory],
    and the reducer wraps what it is given once more: the first entry of the
    history is then an array around the loaded collection, not the
    collection. So after a load -- over the socket or from the API --, one
    push (the end of a stroke, or an erase pass) and one undo, the live
    collection is empty, whatever was loaded. *)
Theorem undo_after_load_empties_canvas
    (near : heap → val → Z → Z → bool) (h : heap) (s : BoardState)
    (payload canvasId : val) (a : action) (ys : list val) :
  array_of h payload = Some ys →
  pushes a = true →
  (∃ h' s',
     dispatch_all near (loadCanvas h payload).1 s
       (dispatched (loadCanvas h payload).2 ++ [a; UNDO]) = Ok (h', s')
     ∧ array_of h' (elements s') = Some []
     ∧ index s' = 0%Z)
  ∧ (∃ h' s',
       dispatch_all near (loadResponse h canvasId payload).1 s
         (dispatched (loadResponse h canvasId payload).2 ++ [a; UNDO]) = Ok (h', s')
       ∧ array_of h' (elements s') = Some []
       ∧ index s' = 0%Z).
Proof.
  intros Hy Ha.
  pose proof (array_of_truthy _ _ _ Hy) as Htr.
  assert (Harr : isArray h payload = true) by (apply isArray_array_of; eauto).
  set (h2 := h ++ [OArr (validElements h ys); OArr [VRef (length h)]]).
  set (h3 := h2 ++ [OArr [VRef (S (length h))]]).
  assert (H0 : h3 !! length h = Some (OArr (validElements h ys))).
  { unfold h3, h2. rewrite <- app_assoc. by rewrite lookup_app_r, Nat.sub_diag by lia. }
  assert (H1 : h3 !! S (length h) = Some (OArr [VRef (length h)])).
  { unfold h3, h2. rewrite <- app_assoc. rewrite lookup_app_r by lia.
    by replace (S (length h) - length h) with 1 by lia. }
  assert (H2 : h3 !! length h2 = Some (OArr [VRef (S (length h))])).
  { unfold h3. by rewrite lookup_app_r, Nat.sub_diag by lia. }
  assert (Hcore : ∀ s0 : BoardState,
            elements s0 = VRef (length h) →
            history s0 = VRef (length h2) →
            index s0 = 0%Z →
            ∃ h' s', dispatch_all near h3 s0 [a; UNDO] = Ok (h', s')
                     ∧ array_of h' (elements s') = Some []
                     ∧ index s' = 0%Z).
  { intros s0 He Hh Hi.
    apply (wrapped_history_undo near h3 s0 a (validElements h ys)
             (VRef (S (length h))) (VRef (length h)) (validElements h ys));
      try done.
    - rewrite He. simpl. by rewrite H0.
    - rewrite Hh. simpl. by rewrite H2.
    - simpl. by rewrite H1.
    - simpl. by rewrite H0. }
  assert (Hh3 : (h ++ [OArr (validElements h ys)])
                 ++ [OArr [VRef (length h)];
                     OArr [VRef (length (h ++ [OArr (validElements h ys)]))]] = h3).
  { unfold h3, h2. rewrite length_app. simpl. by rewrite Nat.add_1_r, <- !app_assoc. }
  assert (Hl2 : length ((h ++ [OArr (validElements h ys)]) ++ [OArr [VRef (length h)]])
                = length h2).
  { unfold h2. by rewrite <- app_assoc. }
  split.
  - unfold loadCanvas. rewrite Htr, Harr, (array_of_as_array _ _ _ Hy).
    cbn [andb alloc fst snd dispatched omap list_omap setElements setHistory].
    rewrite dispatch_all_app, dispatch_load, result_bind_ok by done.
    rewrite <- app_assoc. cbn [app]. rewrite Hh3, Hl2. by apply Hcore.
  - unfold loadResponse. rewrite Htr, (array_of_as_array _ _ _ Hy).
    cbn [alloc fst snd dispatched omap list_omap setElements setHistory setCanvasId].
    rewrite dispatch_all_app.
    change (dispatch_all near ?hh ?ss (SET_CANVAS_ID ?c :: ?rest))
      with (dispatch_all near hh (with_canvasId ss c) rest).
    rewrite dispatch_load, result_bind_ok by done.
    rewrite <- app_assoc. cbn [app]. rewrite Hh3, Hl2. by apply Hcore.
Qed.

(** A canvas of one line arrives over the socket; the eraser is clicked
    away from the line; undo. *)
Lemma undo_after_load_empties_canvas_witness :
  array_of lineHeap (VRef 1) = Some [VRef 0]
  ∧ pushes (ERASE 50 50) = true
  ∧ ∃ h' s',
      dispatch_all never_near (loadCanvas lineHeap (VRef 1)).1 initialBoardState
        (dispatched (loadCanvas lineHeap (VRef 1)).2 ++ [ERASE 50 50; UNDO]) = Ok (h', s')
      ∧ array_of h' (elements s') = Some []
      ∧ index s' = 0%Z.
Proof.
  split; [reflexivity|]. split; [reflexivity|].
  apply (undo_after_load_empties_canvas never_near lineHeap initialBoardState
           (VRef 1) (VStr "a") (ERASE 50 50) [VRef 0]); reflexivity.
Defined.

(** ** A drag with the eraser *)

Lemma provider_run_app near tb evs1 evs2 : ∀ h s,
  provider_run near tb h s (evs1 ++ evs2)
  = '(h1, s1) ← provider_run near tb h s evs1; provider_run near tb h1 s1 evs2.
Proof.
  induction evs1 as [|ev evs1 IH]; intros h s; [done|].
  cbn [app provider_run].
  destruct (provider_step near tb h s ev) as [[h1 s1]| |]; [|done..].
  rewrite !result_bind_ok. apply IH.
Qed.

Lemma filter_sublist {A} (p : A → bool) (xs : list A) : List.filter p xs `sublist_of` xs.
Proof.
  induction xs as [|x xs IH]; [done|]. simpl.
  destruct (p x); [by apply sublist_skip|by apply sublist_cons].
Qed.

Section EraserDrag.

Variable near : heap → val → Z → Z → bool.
Variable tb : val → option ToolStyle.

(** One erase pass, with the cursor inside the log: the live collection
    loses elements at most, and the log ends with the new entry under the
    cursor. *)
Lemma erase_pass h s x y xs :
  array_of h (elements s) = Some xs →
  index_in_bounds h s = true →
  ∃ h' s' zs,
    boardReducer near h s (ERASE x y) = Ok (h', s')
    ∧ array_of h' (elements s') = Some zs
    ∧ zs `sublist_of` xs
    ∧ index_in_bounds h' s' = true
    ∧ index s' = (index s + 1)%Z
    ∧ history_length h' s' = (index s + 2)%Z
    ∧ toolActionType s' = toolActionType s
    ∧ activeToolItem s' = activeToolItem s.
Proof.
  intros Hx Hb. apply index_in_bounds_array in Hb as [Hh Hi].
  rewrite (erase_exact near h s x y xs Hx (array_of_history_typed _ _ _ Hh)).
  eexists _, _, (List.filter (erase_keeps near h x y) xs). split; [reflexivity|].
  cbn [elements index toolActionType activeToolItem with_history with_elements].
  assert (Hlen : length (slice0 (history_entries h s) (index s + 1)
                         ++ [VRef (length h)]) = Z.to_nat (index s + 2)).
  { rewrite length_app, slice0_length by lia. simpl. lia. }
  split_and!; try done.
  - cbn [array_of]. by rewrite lookup_app_r, Nat.sub_diag by lia.
  - apply filter_sublist.
  - unfold index_in_bounds. cbn [history index with_history with_elements array_of app].
    rewrite lookup_alloc2, Hlen.
    apply andb_true_iff. split; [apply Z.leb_le|apply Z.ltb_lt]; lia.
  - unfold history_length. cbn [history with_history with_elements array_of app].
    rewrite lookup_alloc2, Hlen. lia.
Qed.

Lemma erasing_moves canvas moves : ∀ h s xs,
  toolActionType s = TOOL_ACTION_TYPES.ERASING →
  array_of h (elements s) = Some xs →
  index_in_bounds h s = true →
  history_length h s = (index s + 1)%Z →
  ∃ h' s' zs,
    provider_run near tb h s (PointerMove (Some canvas) <$> moves) = Ok (h', s')
    ∧ array_of h' (elements s') = Some zs
    ∧ zs `sublist_of` xs
    ∧ toolActionType s' = TOOL_ACTION_TYPES.ERASING
    ∧ activeToolItem s' = activeToolItem s
    ∧ index s' = (index s + Z.of_nat (length moves))%Z
    ∧ history_length h' s' = (index s' + 1)%Z.
Proof.
  induction moves as [|ev moves IH]; intros h s xs Hty Hx Hb Hl.
  - exists h, s, xs. cbn. split_and!; try done. lia.
  - cbn [fmap list_fmap provider_run].
    unfold provider_step, provider_actions, boardMouseMoveHandler.
    rewrite Hty.
    rewrite (bool_decide_eq_false_2 (TOOL_ACTION_TYPES.ERASING = TOOL_ACTION_TYPES.WRITING))
      by done.
    rewrite (bool_decide_eq_false_2 (TOOL_ACTION_TYPES.ERASING = TOOL_ACTION_TYPES.DRAWING))
      by done.
    rewrite bool_decide_eq_true_2 by done. cbn [dispatch_all].
    destruct (erase_pass h s (clientX ev - left canvas) (clientY ev - top canvas) xs Hx Hb)
      as (h1 & s1 & zs1 & Hr & Hx1 & Hsub1 & Hb1 & Hi1 & Hl1 & Hty1 & Htool1).
    rewrite Hr, !result_bind_ok.
    destruct (IH h1 s1 zs1) as (h' & s' & zs & Hrun & Hx' & Hsub & Hty' & Htool' & Hi' & Hl');
      [congruence|done|done|lia|].
    exists h', s', zs. split_and!; try done.
    + by etrans.
    + congruence.
    + rewrite Hi', Hi1. simpl length. lia.
Qed.

End EraserDrag.

(** A drag with the eraser: the press and every move run one erase pass
    each, and each pass pushes a snapshot. After a drag with [n] moves the
    live collection holds some of the elements it held, in their order, the
    cursor has moved [n + 1] entries ahead and is on the last entry, and
    the action type is back to NONE. *)
Theorem eraser_drag_pushes_every_pass
    (near : heap → val → Z → Z → bool) (tb : val → option ToolStyle)
    (h : heap) (s : BoardState) (canvas : Rect) (start : MouseEvent)
    (moves : list MouseEvent) (xs : list val) :
  activeToolItem s = TOOL_ITEMS.ERASER →
  toolActionType s ≠ TOOL_ACTION_TYPES.WRITING →
  array_of h (elements s) = Some xs →
  index_in_bounds h s = true →
  ∃ h' s' zs,
    provider_run near tb h s (drag canvas start moves) = Ok (h', s')
    ∧ array_of h' (elements s') = Some zs
    ∧ zs `sublist_of` xs
    ∧ toolActionType s' = TOOL_ACTION_TYPES.NONE
    ∧ index s' = (index s + 1 + Z.of_nat (length moves))%Z
    ∧ history_length h' s' = (index s + 2 + Z.of_nat (length moves))%Z.
Proof.
  intros Htool Hty Hx Hb. unfold drag.
  cbn [provider_run]. unfold provider_step at 1.
  unfold provider_actions, boardMouseDownHandler.
  rewrite bool_decide_eq_false_2 by done. rewrite Htool, strict_eq_refl.
  cbn [dispatch_all].
  destruct (erase_pass near h s (clientX start - left canvas) (clientY start - top canvas)
              xs Hx Hb)
    as (h1 & s1 & zs1 & Hr & Hx1 & Hsub1 & Hb1 & Hi1 & Hl1 & Hty1 & Htool1).
  rewrite Hr, !result_bind_ok. cbn [boardReducer]. rewrite !result_bind_ok.
  rewrite provider_run_app.
  destruct (erasing_moves near tb canvas moves h1
              (with_action_type s1 TOOL_ACTION_TYPES.ERASING) zs1)
    as (h' & s' & zs & Hrun & Hx' & Hsub & Hty' & Htool' & Hi' & Hl'); try done.
  { unfold history_length in *. cbn [index history with_action_type]. lia. }
  rewrite Hrun, result_bind_ok.
  cbn [provider_run]. unfold provider_step, provider_actions, boardMouseUpHandler.
  rewrite Hty'.
  rewrite (bool_decide_eq_false_2 (TOOL_ACTION_TYPES.ERASING = TOOL_ACTION_TYPES.WRITING))
    by done.
  rewrite (bool_decide_eq_false_2 (TOOL_ACTION_TYPES.ERASING = TOOL_ACTION_TYPES.DRAWING))
    by done.
  cbn [app dispatch_all boardReducer].
  rewrite !result_bind_ok.
  exists h', (with_action_type s' TOOL_ACTION_TYPES.NONE), zs.
  cbn [elements toolActionType index history_length history with_action_type] in *.
  split_and!; try done.
  - by etrans.
  - lia.
  - unfold history_length in *. cbn [history with_action_type]. lia.
Qed.

(** A drag of two moves with the eraser over the board with one line. *)
Lemma eraser_drag_pushes_every_pass_witness :
  activeToolItem eraserState = TOOL_ITEMS.ERASER
  ∧ toolActionType eraserState ≠ TOOL_ACTION_TYPES.WRITING
  ∧ array_of lineHeap (elements eraserState) = Some [VRef 0]
  ∧ index_in_bounds lineHeap eraserState = true
  ∧ ∃ h' s',
      provider_run never_near noToolbox lineHeap eraserState
        (drag {| left := 0; top := 0 |} {| clientX := 9; clientY := 9 |}
           [{| clientX := 8; clientY := 9 |}; {| clientX := 7; clientY := 9 |}])
      = Ok (h', s')
      ∧ index s' = 4%Z
      ∧ history_length h' s' = 5%Z.
Proof.
  split; [reflexivity|]. split; [discriminate|]. split; [reflexivity|].
  split; [vm_compute; reflexivity|].
  destruct (eraser_drag_pushes_every_pass never_near noToolbox lineHeap eraserState
              {| left := 0; top := 0 |} {| clientX := 9; clientY := 9 |}
              [{| clientX := 8; clientY := 9 |}; {| clientX := 7; clientY := 9 |}]
              [VRef 0])
    as (h' & s' & zs & H1 & _ & _ & _ & H5 & H6);
    [reflexivity|discriminate|reflexivity|vm_compute; reflexivity|].
  exists h', s'. split; [exact H1|]. split; [exact H5|exact H6].
Defined.

(** ** Writing *)

(** While the action type is WRITING and the last element of the live
    collection is not a text, no pointer event, blur of the text box or
    choice of a tool changes the action type, the live collection or the
    history: the pointer handlers return at once, and the blur dispatches a
    CHANGE_TEXT that returns the state as it is. *)
Theorem writing_without_text_is_stuck
    (near : heap → val → Z → Z → bool) (tb : val → option ToolStyle)
    (evs : list provider_event) (h : heap) (s : BoardState) (xs : list val) :
  toolActionType s = TOOL_ACTION_TYPES.WRITING →
  array_of h (elements s) = Some xs →
  strict_eq (type_of h (last_element h s)) TOOL_ITEMS.TEXT = false →
  ∃ s',
    provider_run near tb h s evs = Ok (h, s')
    ∧ toolActionType s' = TOOL_ACTION_TYPES.WRITING
    ∧ elements s' = elements s
    ∧ history s' = history s
    ∧ index s' = index s.
Proof.
  revert s. induction evs as [|ev evs IH]; intros s Hw Hx Hty; [by exists s|].
  cbn [provider_run].
  assert (Hstep : ∃ s1, provider_step near tb h s ev = Ok (h, s1)
                        ∧ toolActionType s1 = TOOL_ACTION_TYPES.WRITING
                        ∧ elements s1 = elements s
                        ∧ history s1 = history s
                        ∧ index s1 = index s).
  { unfold provider_step, provider_actions.
    destruct ev as [canvas event|canvas event| |text|tool].
    - unfold boardMouseDownHandler. rewrite Hw, bool_decide_eq_true_2 by done.
      by exists s.
    - unfold boardMouseMoveHandler. rewrite Hw, bool_decide_eq_true_2 by done.
      by exists s.
    - unfold boardMouseUpHandler. rewrite Hw, bool_decide_eq_true_2 by done.
      by exists s.
    - unfold textAreaBlurHandler. cbn [dispatch_all].
      rewrite (change_text_noop near h s text xs Hx Hty), result_bind_ok.
      by exists s.
    - by exists (with_tool s tool). }
  destruct Hstep as (s1 & -> & Hw1 & He1 & Hh1 & Hi1). rewrite result_bind_ok.
  destruct (IH s1) as (s' & Hrun & Hw' & He' & Hh' & Hi'); try done.
  { by rewrite He1. }
  { unfold last_element in *. by rewrite He1. }
  exists s'. split_and!; congruence.
Qed.

(** The text box is blurred, the pointer is pressed and dragged, the
    brush is chosen, over the board with one line in WRITING. *)
Lemma writing_without_text_is_stuck_witness :
  toolActionType writingState = TOOL_ACTION_TYPES.WRITING
  ∧ array_of lineHeap (elements writingState) = Some [VRef 0]
  ∧ strict_eq (type_of lineHeap (last_element lineHeap writingState)) TOOL_ITEMS.TEXT
    = false
  ∧ ∃ s',
      provider_run never_near noToolbox lineHeap writingState
        (TextBlur "hello" :: ToolChange TOOL_ITEMS.BRUSH
         :: drag {| left := 0; top := 0 |} {| clientX := 9; clientY := 9 |}
              [{| clientX := 8; clientY := 9 |}])
      = Ok (lineHeap, s')
      ∧ toolActionType s' = TOOL_ACTION_TYPES.WRITING.
Proof.
  split; [reflexivity|]. split; [reflexivity|]. split; [vm_compute; reflexivity|].
  destruct (writing_without_text_is_stuck never_near noToolbox
              (TextBlur "hello" :: ToolChange TOOL_ITEMS.BRUSH
               :: drag {| left := 0; top := 0 |} {| clientX := 9; clientY := 9 |}
                    [{| clientX := 8; clientY := 9 |}])
              lineHeap writingState [VRef 0])
    as (s' & H1 & H2 & _); [reflexivity|reflexivity|vm_compute; reflexivity|].
  exists s'. split; [exact H1|exact H2].
Defined.

(** ** Trimming *)

Lemma trimStart_suffix (s : list N) : ∃ ws, s = ws ++ trimStart s.
Proof.
  induction s as [|u s [ws IH]]; [by exists []|]. simpl.
  destruct (trim_space u); [|by exists []].
  exists (u :: ws). simpl. by f_equal.
Qed.

Lemma trimStart_head (s : list N) :
  match s with
  | [] => True
  | u :: _ => trim_space u = false
  end →
  trimStart s = s.
Proof. destruct s as [|u s]; [done|]. simpl. by intros ->. Qed.

Lemma trimStart_starts (s : list N) :
  match trimStart s with
  | [] => True
  | u :: _ => trim_space u = false
  end.
Proof.
  induction s as [|u s IH]; [done|]. simpl.
  destruct (trim_space u) eqn:E; [done|]. by rewrite E.
Qed.

Lemma trimStart_idemp (s : list N) : trimStart (trimStart s) = trimStart s.
Proof. apply trimStart_head, trimStart_starts. Qed.

Lemma trimEnd_prefix (s : list N) : ∃ ws, s = trimEnd s ++ ws.
Proof.
  destruct (trimStart_suffix (reverse s)) as [ws Hws].
  exists (reverse ws). unfold trimEnd. rewrite <- reverse_app, <- Hws.
  by rewrite reverse_involutive.
Qed.

(** What [trim] returns is trimmed. *)
Lemma trim_idemp (s : list N) : trim (trim s) = trim s.
Proof.
  unfold trim at 2. set (a := trimStart s).
  assert (Hstart : trimStart (trimEnd a) = trimEnd a).
  { apply trimStart_head. destruct (trimEnd_prefix a) as [ws Hws].
    pose proof (trimStart_starts s) as Ha. fold a in Ha.
    destruct (trimEnd a) as [|u m]; [done|]. rewrite Hws in Ha. by simpl in Ha. }
  unfold trim. rewrite Hstart. unfold trimEnd.
  by rewrite reverse_involutive, trimStart_idemp.
Qed.

(** ** The cleaned credential *)

Lemma getAuthToken_trimmed stored t : socket.getAuthToken stored = Some t → trim t = t.
Proof.
  unfold socket.getAuthToken. destruct stored as [token|]; [|done].
  destruct (negb (nonempty token)); [done|]. cbv zeta.
  destruct (startsWith _ _); intros [= <-]; apply trim_idemp.
Qed.

(** The credential is cleaned in four places -- for the socket, for the
    canvas API, in the sidebar and in the board's canvas load --, and all
    four compute the same: no usable token when nothing or the empty string
    is stored, else the stored string trimmed, with one leading [Bearer ]
    taken off and the rest trimmed again. What they return has no white
    space at either end. *)
Theorem cleaned_token_is_trimmed (stored : option (list N)) :
  api.getAuthToken stored = socket.getAuthToken stored
  ∧ Sidebar.getToken stored = socket.getAuthToken stored
  ∧ (usable stored = true → loadCanvasFromAPI_token stored = socket.getAuthToken stored)
  ∧ usable (loadCanvasFromAPI_token stored) = usable (socket.getAuthToken stored)
  ∧ (usable stored = false → socket.getAuthToken stored = None)
  ∧ ∀ t, socket.getAuthToken stored = Some t →
         trim t = t
         ∧ ∃ token, stored = Some token
                    ∧ t = if startsWith (trim token) (units "Bearer ")
                          then trim (substring (trim token) 7)
                          else trim token.
Proof.
  split_and!.
  - destruct stored as [token|]; [|done]. simpl.
    destruct (negb (nonempty token)); [done|]. by destruct (startsWith _ _).
  - done.
  - destruct stored as [[|u token]|]; try done. intros _.
    unfold loadCanvasFromAPI_token, socket.getAuthToken.
    cbn [usable nonempty negb fmap option_fmap option_map].
    by destruct (startsWith _ _).
  - destruct stored as [[|u token]|]; try done.
    unfold loadCanvasFromAPI_token, socket.getAuthToken.
    cbn [usable nonempty negb fmap option_fmap option_map].
    by destruct (startsWith _ _).
  - by destruct stored as [[|u token]|].
  - intros t Ht. split; [by eapply getAuthToken_trimmed|].
    destruct stored as [token|]; [|done]. exists token. split; [done|].
    unfold socket.getAuthToken in Ht. destruct (negb (nonempty token)); [done|].
    cbv zeta in Ht. by destruct (startsWith _ _); injection Ht as <-.
Qed.

(** Only one prefix is taken off. *)
Example cleaning_strips_one_prefix :
  socket.getAuthToken (Some (units " Bearer Bearer abc ")) = Some (units "Bearer abc")
  ∧ socket.getAuthToken (Some (units "Bearer ")) = Some (units "Bearer")
  ∧ socket.getAuthToken (Some (units "   ")) = Some []
  ∧ socket.getAuthToken (Some []) = None.
Proof. by vm_compute. Qed.

(** ** The socket module *)

Lemma open_sockets_app out1 : ∀ out2 acc,
  socket.open_sockets (out1 ++ out2) acc
  = socket.open_sockets out2 (socket.open_sockets out1 acc).
Proof.
  induction out1 as [|[s|s] out1 IH]; intros out2 acc; [done|apply IH|apply IH].
Qed.

Lemma filter_other (i : nat) (acc : list nat) :
  Forall (λ j, j < i) acc → List.filter (λ j, negb (j =? i)) acc = acc.
Proof.
  induction 1 as [|j acc Hj _ IH]; [done|]. simpl.
  destruct (Nat.eqb_spec j i); [lia|]. simpl. by rewrite IH.
Qed.

(** The sockets that are open are the one the module holds, and the
    sockets are numbered below [made]. *)
Lemma socket_step_invariant m c m' out :
  socket.step m c = (m', out) →
  Forall (λ j, j < socket.made m) (socket.held m) →
  socket.open_sockets out (socket.held m) = socket.held m'
  ∧ Forall (λ j, j < socket.made m') (socket.held m').
Proof.
  destruct m as [inst n]. unfold socket.held. cbn [socket.socketInstance socket.made].
  destruct c as [stored force connected|]; cbn [socket.step].
  - unfold socket.getSocket. cbn [socket.socketInstance socket.made].
    destruct inst as [s|].
    + destruct force; cbn [socket.socketInstance socket.io socket.made].
      * intros [= <- <-] _. simpl. rewrite Nat.eqb_refl. simpl.
        split; [done|]. apply Forall_cons. split; [lia|done].
      * destruct (negb (connected s)); cbn [socket.io socket.made].
        -- intros [= <- <-] _. simpl. rewrite Nat.eqb_refl. simpl.
           split; [done|]. apply Forall_cons. split; [lia|done].
        -- by intros [= <- <-] ?.
    + cbn [socket.socketInstance socket.io socket.made].
      intros [= <- <-] _. simpl. split; [done|]. apply Forall_cons. split; [lia|done].
  - unfold socket.reconnectSocket. cbn [socket.socketInstance socket.made].
    destruct inst as [s|]; intros [= <- <-] ?; [|done].
    simpl. by rewrite Nat.eqb_refl.
Qed.

Lemma socket_run_invariant cs : ∀ m m' out,
  socket.run m cs = (m', out) →
  Forall (λ j, j < socket.made m) (socket.held m) →
  socket.open_sockets out (socket.held m) = socket.held m'.
Proof.
  induction cs as [|c cs IH]; intros m m' out; cbn [socket.run].
  - by intros [= <- <-] _.
  - destruct (socket.step m c) as [m1 out1] eqn:E1.
    destruct (socket.run m1 cs) as [m2 out2] eqn:E2. intros [= <- <-] Hm.
    destruct (socket_step_invariant _ _ _ _ E1 Hm) as [H1 Hm1].
    rewrite open_sockets_app, H1. by apply IH.
Qed.

(** However getSocket and reconnectSocket are called, and whatever the
    state of the connections at each call: of all the sockets made, the
    only one that has not been disconnected is the one the module holds.
    No socket is left open behind. *)
Theorem one_open_socket (cs : list socket.call) :
  socket.open_sockets (socket.run socket.initial cs).2 []
  = socket.held (socket.run socket.initial cs).1.
Proof.
  destruct (socket.run socket.initial cs) as [m out] eqn:E.
  by apply (socket_run_invariant cs socket.initial m out E).
Qed.

(** ** From the login to the socket *)

(** After a login that got a token [t] -- the first non-empty one of the
    response's [token], [accessToken], [access_token], [authToken] -- the
    stored credential is [t] trimmed and the module holds no socket; so the
    next getSocket makes a new socket, and when [t] trimmed is not empty and
    carries no [Bearer ] prefix, its Authorization header is [Bearer ]
    followed by [t] trimmed. *)
Theorem login_token_reaches_next_socket
    (data : Login.Data) (t : list N) (stored : option (list N)) (m : socket.State)
    (forceReconnect : bool) (connected : socket.Socket → bool) :
  or_else (or_else (or_else (Login.token data) (Login.accessToken data))
             (Login.access_token data)) (Login.authToken data) = Some t →
  nonempty t = true →
  nonempty (trim t) = true →
  startsWith (trim t) (units "Bearer ") = false →
  let w := foldl Login.perform (stored, m) (Login.handleSubmit (Some (true, data))) in
  w.1 = Some (trim t)
  ∧ socket.socketInstance w.2 = None
  ∧ socket.getAuthToken w.1 = Some (trim t)
  ∧ ∃ s,
      socket.getSocket w.2 w.1 forceReconnect connected
      = (socket.mkState (Some s) (S (socket.made m)), s, [socket.Io s])
      ∧ socket.Authorization s = Some (bearer (trim t)).
Proof.
  intros Htok Hne Htrim Hpre. unfold Login.handleSubmit. rewrite Htok, Hne.
  cbn [foldl Login.perform fst snd].
  assert (Hclean : socket.getAuthToken (Some (trim t)) = Some (trim t)).
  { unfold socket.getAuthToken. rewrite Htrim. cbn [negb]. cbv zeta.
    by rewrite trim_idemp, Hpre. }
  assert (Hnone : socket.socketInstance (socket.reconnectSocket m).1 = None
                  ∧ socket.made (socket.reconnectSocket m).1 = socket.made m).
  { unfold socket.reconnectSocket. by destruct m as [[s|] n]. }
  destruct Hnone as [Hnone Hmade]. split_and!; try done.
  unfold socket.getSocket. rewrite Hnone, Hclean. cbn [socket.io].
  rewrite Hnone. cbn [app usable]. rewrite Htrim, Hmade. eexists. split; [reflexivity|done].
Qed.

(** The response of the examples carries its token under [accessToken],
    with blanks around it. *)
Lemma login_token_reaches_next_socket_witness :
  nonempty paddedToken = true
  ∧ nonempty (trim paddedToken) = true
  ∧ startsWith (trim paddedToken) (units "Bearer ") = false
  ∧ ∃ s,
      socket.getSocket
        (foldl Login.perform (None, socket.initial) (Login.handleSubmit loginResponse)).2
        (foldl Login.perform (None, socket.initial) (Login.handleSubmit loginResponse)).1
        false never_connected
      = (socket.mkState (Some s) 1, s, [socket.Io s])
      ∧ socket.Authorization s = Some (units "Bearer abc.def").
Proof.
  split; [reflexivity|]. split; [reflexivity|]. split; [vm_compute; reflexivity|].
  destruct (login_token_reaches_next_socket
              (Login.mkData None (Some paddedToken) None None None) paddedToken
              None socket.initial false never_connected)
    as (_ & _ & _ & s & H1 & H2);
    [reflexivity|reflexivity|reflexivity|vm_compute; reflexivity|].
  exists s. split; [exact H1|]. rewrite H2. vm_compute. reflexivity.
Defined.

(** ** Leaving a canvas for the home route *)

Lemma has_payload_falsy v : has_payload v = false → truthy v = false.
Proof. by destruct v. Qed.

Lemma syncRefEffect_home b : has_payload (id b) = false → syncRefEffect b = b.
Proof. unfold syncRefEffect, has_payload. by intros ->. Qed.

(** On the home route nothing touches the side reference. *)
Lemma session_step_home tb h b ev :
  has_payload (id b) = false →
  home_event ev = true →
  let '(h', b', _) := session_step tb h b ev in
  h' = h ∧ id b' = id b ∧ currentCanvasRef b' = currentCanvasRef b.
Proof.
  intros Hid Hev. destruct ev as [d|c e|c e| |[c|c]| |ck key|p|p|p|st]; try done; simpl.
  - destruct (ck && (key =? "z")%string); [done|].
    by destruct (ck && (key =? "y")%string).
  - rewrite commit_same_id. destruct (negb _); [|done].
    by rewrite syncRefEffect_home.
Qed.

Lemma session_run_home tb evs : ∀ h b,
  has_payload (id b) = false →
  forallb home_event evs = true →
  let '(h', b', _) := session_run tb h b evs in
  h' = h ∧ id b' = id b ∧ currentCanvasRef b' = currentCanvasRef b.
Proof.
  induction evs as [|ev evs IH]; intros h b Hid Hevs; [done|].
  cbn [session_run forallb] in *. apply andb_true_iff in Hevs as [Hev Hevs].
  pose proof (session_step_home tb h b ev Hid Hev) as Hs.
  destruct (session_step tb h b ev) as [[h1 b1] out1].
  destruct Hs as (-> & Hid1 & Hr1).
  pose proof (IH h b1) as Hr. rewrite Hid1 in Hr. specialize (Hr Hid Hevs).
  destruct (session_run tb h b1 evs) as [[h2 b2] out2].
  destruct Hr as (-> & Hid2 & Hr2). split_and!; congruence.
Qed.

(** Leaving a canvas for the home route (no [id]) broadcasts nothing: the
    socket effect returns before it reads the side reference, and the
    reference keeps the canvas that was left with its elements. The save is
    made when another canvas is opened next: the commit of that render
    broadcasts the canvas left behind, with the elements it had when it was
    left. *)
Theorem home_detour_defers_broadcast
    (tb : val → option ToolStyle) (h : heap) (b : Board) (home c : val)
    (atHome opened : BoardState) (evs : list session_event)
    (connected connected' : bool) (token token' : val) :
  truthy (id b) = true →
  ref_in_sync b →
  isArray h (elements (boardState b)) = true →
  has_payload home = false →
  forallb home_event evs = true →
  truthy c = true →
  c ≠ id b →
  let '(h1, b1, out1) := commit h b home atHome connected token in
  let '(h2, b2, out2) := session_run tb h1 b1 evs in
  let '(h3, b3, out3) := commit h2 b2 c opened connected' token' in
  List.filter is_broadcast out1 = []
  ∧ currentCanvasRef b2 = (id b, elements (boardState b))
  ∧ List.filter is_broadcast out3
    = [SocketEmit "drawingUpdate" (id b) (Some (elements (boardState b)))].
Proof.
  intros Ha Hsync Harr Hhome Hevs Hc Hne. unfold ref_in_sync in Hsync.
  pose proof (has_payload_falsy _ Hhome) as Hfalsy.
  assert (Hne1 : strict_eq (id b) home = false).
  { apply strict_eq_false. intros E. rewrite E in Ha. congruence. }
  assert (Hne2 : strict_eq home c = false).
  { apply strict_eq_false. intros E. rewrite E in Hfalsy. congruence. }
  assert (Hne3 : strict_eq (id b) c = false) by (by apply strict_eq_false).
  (* the commit of the home route *)
  unfold commit at 1. rewrite Hne1, Ha. cbn [negb andb orb].
  unfold socketEffect at 1. unfold with_render at 1 2 3. cbn [id].
  rewrite Hfalsy. cbn [negb clearCanvas alloc].
  rewrite syncRefEffect_home by done.
  unfold loadEffect at 1. cbn [id clearCanvas alloc]. rewrite Hfalsy. cbn [negb].
  match goal with |- context [session_run tb ?h1 ?b1 evs] =>
    pose proof (session_run_home tb evs h1 b1 Hhome Hevs) as Hrun;
    destruct (session_run tb h1 b1 evs) as [[h2 b2] out2]
  end.
  cbn [id currentCanvasRef with_listensConnect] in Hrun.
  destruct Hrun as (-> & Hid2 & Href2). rewrite Hsync in Href2.
  (* the commit of the next canvas *)
  unfold commit. rewrite Hid2, Hne2, Hfalsy. cbn [negb andb orb].
  unfold socketEffect, with_render. cbn [id currentCanvasRef fst snd].
  rewrite Hc, Href2. cbn [negb fst snd]. rewrite Ha, Hne3.
  match goal with |- context [isArray ?h1 (elements (boardState b))] =>
    assert (Harr' : isArray h1 (elements (boardState b)) = true)
  end.
  { rewrite <- Harr. apply isArray_ext.
    - rewrite <- !app_assoc. by eexists.
    - apply isArray_array_of in Harr as [xs Hx]. by eapply array_of_allocated. }
  rewrite Harr'. cbn [negb andb alloc clearCanvas].
  match goal with |- context [loadEffect ?h1 ?b2 token'] =>
    destruct (loadEffect_trace h1 b2 token') as (h3 & e1 & e2 & tail & -> & Hb2 & Hc2)
  end.
  split; [done|]. split; [done|].
  rewrite !List.filter_app, Hb2. by destruct connected'.
Qed.

(** From canvas a to the home route, a move of the pointer there, and on to
    canvas b. *)
Lemma home_detour_defers_broadcast_witness :
  truthy (id boardA) = true
  ∧ ref_in_sync boardA
  ∧ isArray lineHeap (elements (boardState boardA)) = true
  ∧ has_payload VUndef = false
  ∧ truthy (VStr "b") = true
  ∧ VStr "b" ≠ id boardA
  ∧ let '(h1, b1, out1) := commit lineHeap boardA VUndef lineState true (VStr "t") in
    let '(h2, b2, out2) :=
      session_run noToolbox h1 b1
        [MouseMove (Some {| left := 0; top := 0 |}) {| clientX := 1; clientY := 1 |}] in
    let '(h3, b3, out3) := commit h2 b2 (VStr "b") lineState true (VStr "t") in
    List.filter is_broadcast out1 = []
    ∧ currentCanvasRef b2 = (id boardA, elements (boardState boardA))
    ∧ List.filter is_broadcast out3
      = [SocketEmit "drawingUpdate" (id boardA) (Some (elements (boardState boardA)))].
Proof.
  split; [reflexivity|]. split; [reflexivity|]. split; [reflexivity|].
  split; [reflexivity|]. split; [reflexivity|]. split; [discriminate|].
  apply (home_detour_defers_broadcast noToolbox lineHeap boardA VUndef (VStr "b")
           lineState lineState
           [MouseMove (Some {| left := 0; top := 0 |}) {| clientX := 1; clientY := 1 |}]
           true true (VStr "t") (VStr "t"));
    [reflexivity|reflexivity|reflexivity|reflexivity|reflexivity|reflexivity|discriminate].
Defined.

(** ** A drag with a shape tool *)

Lemma shape_type_not_brush t : shape_type t = true → strict_eq t TOOL_ITEMS.BRUSH = false.
Proof.
  unfold shape_type. rewrite !orb_true_iff, !strict_eq_true.
  intros Ht. apply strict_eq_false. intros ->. by destruct_or!.
Qed.

Lemma shape_type_not_text t : shape_type t = true → strict_eq t TOOL_ITEMS.TEXT = false.
Proof.
  unfold shape_type. rewrite !orb_true_iff, !strict_eq_true.
  intros Ht. apply strict_eq_false. intros ->. by destruct_or!.
Qed.

Lemma shape_type_recognized t : shape_type t = true → recognized_type t = true.
Proof.
  intros Ht.
  change (recognized_type t)
    with (shape_type t || strict_eq t TOOL_ITEMS.BRUSH || strict_eq t TOOL_ITEMS.TEXT).
  by rewrite Ht.
Qed.

Lemma createElement_shape h i x1 y1 x2 y2 t st fi sz :
  strict_eq t TOOL_ITEMS.BRUSH = false →
  createElement h i x1 y1 x2 y2 t st fi sz
  = (h ++ [OObj (shape_props i x1 y1 x2 y2 t st fi sz)], VRef (length h)).
Proof. intros Hb. unfold createElement. by rewrite Hb. Qed.

Lemma shape_props_ok (h h' : heap) i x1 y1 x2 y2 t st fi sz :
  recognized_type t = true →
  h' !! length h = Some (OObj (shape_props i x1 y1 x2 y2 t st fi sz)) →
  element_ok h' (VRef (length h)) = true
  ∧ type_of h' (VRef (length h)) = t
  ∧ get_prop h' (VRef (length h)) "x1" = Ok x1
  ∧ get_prop h' (VRef (length h)) "y1" = Ok y1
  ∧ get_prop h' (VRef (length h)) "x2" = Ok x2
  ∧ get_prop h' (VRef (length h)) "y2" = Ok y2
  ∧ get_prop h' (VRef (length h)) "stroke" = Ok st
  ∧ get_prop h' (VRef (length h)) "fill" = Ok fi
  ∧ get_prop h' (VRef (length h)) "size" = Ok sz.
Proof.
  intros Hr Hl. unfold element_ok, type_of. cbn [object_of truthy get_prop own_props].
  rewrite Hl. unfold shape_props. simplify_map_eq. by rewrite Hr.
Qed.

Section ShapeDrag.

Variable near : heap → val → Z → Z → bool.
Variable tb : val → option ToolStyle.

(** The press: a new live array with one element more. *)
Lemma draw_down_shape h s x y st fi sz xs :
  array_of h (elements s) = Some xs →
  shape_type (activeToolItem s) = true →
  ∃ h' s' new,
    boardReducer near h s (DRAW_DOWN x y st fi sz) = Ok (h', s')
    ∧ h `prefix_of` h'
    ∧ array_of h' (elements s') = Some (xs ++ [new])
    ∧ element_ok h' new = true
    ∧ type_of h' new = activeToolItem s
    ∧ get_prop h' new "x1" = Ok (VNum x)
    ∧ get_prop h' new "y1" = Ok (VNum y)
    ∧ get_prop h' new "x2" = Ok (VNum x)
    ∧ get_prop h' new "y2" = Ok (VNum y)
    ∧ toolActionType s' = TOOL_ACTION_TYPES.DRAWING
    ∧ activeToolItem s' = activeToolItem s
    ∧ history s' = history s
    ∧ index s' = index s.
Proof.
  intros Hx Hs. cbn [boardReducer].
  rewrite (array_of_length _ _ _ Hx), result_bind_ok.
  rewrite createElement_shape by by apply shape_type_not_brush.
  rewrite (array_of_iterate (h ++ _) _ xs) by (eapply array_of_ext; [by eexists|done]).
  rewrite result_bind_ok. cbn [alloc]. rewrite (shape_type_not_text _ Hs).
  rewrite <- app_assoc. cbn [app].
  eexists _, _, (VRef (length h)). split; [reflexivity|].
  cbn [elements toolActionType activeToolItem history index with_elements
       with_action_type].
  match goal with |- context [OObj ?m] => set (props := m) end.
  destruct (shape_props_ok h (h ++ [OObj props; OArr (xs ++ [VRef (length h)])])
              (VNum (Z.of_nat (length xs))) (VNum x) (VNum y) (VNum x) (VNum y)
              (activeToolItem s) st fi sz)
    as (H1 & H2 & H3 & H4 & H5 & H6 & _).
  { by apply shape_type_recognized. }
  { by rewrite lookup_app_r, Nat.sub_diag by lia. }
  split_and!; try done.
  - by eexists.
  - rewrite length_app. simpl. rewrite Nat.add_1_r. cbn [array_of].
    by rewrite lookup_alloc2.
Qed.

(** A move while a shape is drawn: a new live array with a new last
    element, from the old first corner to the pointer. *)
Lemma draw_move_shape_ok h s x y xs last :
  array_of h (elements s) = Some (xs ++ [last]) →
  element_ok h last = true →
  type_of h last = activeToolItem s →
  shape_type (activeToolItem s) = true →
  ∃ h' new,
    boardReducer near h s (DRAW_MOVE x y) = Ok (h', with_elements s (VRef (length h)))
    ∧ h `prefix_of` h'
    ∧ array_of h' (VRef (length h)) = Some (xs ++ [new])
    ∧ element_ok h' new = true
    ∧ type_of h' new = activeToolItem s
    ∧ get_prop h' new "x1" = get_prop h last "x1"
    ∧ get_prop h' new "y1" = get_prop h last "y1"
    ∧ get_prop h' new "x2" = Ok (VNum x)
    ∧ get_prop h' new "y2" = Ok (VNum y).
Proof.
  intros Hx Hok Hty Hs.
  rewrite (draw_move_prefix near h s x y _ Hx). cbv zeta.
  set (h1 := h ++ [OArr (xs ++ [last])]).
  assert (Hp1 : h `prefix_of` h1) by by eexists.
  assert (Hx1 : array_of h1 (VRef (length h)) = Some (xs ++ [last])).
  { simpl. unfold h1. by rewrite lookup_alloc. }
  rewrite (get_index_last h1 _ xs last Hx1).
  pose proof (element_ok_valid _ _ Hok) as Hv.
  pose proof (valid_element_truthy _ _ Hv) as Htr.
  pose proof (valid_element_allocated _ _ Hv) as Hal.
  rewrite !(get_prop_ext h h1) by done.
  rewrite (type_of_get_prop _ _ Htr), result_bind_ok, Hty, Hs.
  rewrite !(get_prop_own h last) by done. rewrite !result_bind_ok.
  cbn [num_val]. rewrite result_bind_ok.
  rewrite createElement_shape by by apply shape_type_not_brush.
  match goal with |- context [OObj ?m] => set (props := m) end.
  assert (Hlen : length (xs ++ [last]) = S (length xs)).
  { rewrite length_app. simpl. lia. }
  unfold set_index, h1. rewrite <- app_assoc.
  rewrite lookup_app_r by lia. rewrite Nat.sub_diag. cbn [lookup list_lookup app].
  destruct (Z.leb_spec 0 (Z.of_nat (length (xs ++ [last])) - 1)); [|lia].
  destruct (Z.ltb_spec (Z.of_nat (length (xs ++ [last])) - 1)
              (Z.of_nat (length (xs ++ [last])))); [|lia].
  cbn [andb]. rewrite result_bind_ok.
  rewrite insert_app_r_alt by lia. rewrite Nat.sub_diag. cbn [insert list_insert app].
  replace (Z.to_nat (Z.of_nat (length (xs ++ [last])) - 1)) with (length xs) by lia.
  rewrite insert_app_r_alt by lia. rewrite Nat.sub_diag. cbn [insert list_insert app].
  rewrite length_app. cbn [length]. rewrite Nat.add_1_r.
  set (h' := h ++ _).
  destruct (shape_props_ok (h ++ [OArr (xs ++ [VRef (S (length h))])]) h'
              (VNum (Z.of_nat (S (length xs)) - 1))
              (default VUndef (own_props h last !! "x1"))
              (default VUndef (own_props h last !! "y1"))
              (VNum x) (VNum y) (activeToolItem s)
              (default VUndef (own_props h last !! "stroke"))
              (default VUndef (own_props h last !! "fill"))
              (default VUndef (own_props h last !! "size")))
    as (H1 & H2 & H3 & H4 & H5 & H6 & _).
  { by apply shape_type_recognized. }
  { unfold h'. rewrite length_app. simpl. rewrite Nat.add_1_r.
    rewrite <- Hlen. by rewrite lookup_alloc2. }
  rewrite length_app in H1, H2, H3, H4, H5, H6. cbn [length] in H1, H2, H3, H4, H5, H6.
  rewrite Nat.add_1_r in H1, H2, H3, H4, H5, H6.
  exists h', (VRef (S (length h))). split; [done|].
  split_and!; try done.
  - by eexists.
  - simpl. unfold h'. by rewrite lookup_app_r, Nat.sub_diag by lia.
Qed.

End ShapeDrag.

Lemma last_some {A} (xs : list A) (d : A) :
  List.last (Some <$> xs) None = if xs is [] then None else Some (List.last xs d).
Proof.
  induction xs as [|x [|x' xs] IH]; done.
Qed.

Section ShapeDragRun.

Variable near : heap → val → Z → Z → bool.
Variable tb : val → option ToolStyle.

(** The moves of the drag: the elements before the one being drawn stay,
    the last one is replaced at each move, its first corner kept. *)
Lemma drawing_moves canvas moves : ∀ h s xs last,
  toolActionType s = TOOL_ACTION_TYPES.DRAWING →
  shape_type (activeToolItem s) = true →
  array_of h (elements s) = Some (xs ++ [last]) →
  element_ok h last = true →
  type_of h last = activeToolItem s →
  ∃ h' s' last',
    provider_run near tb h s (PointerMove (Some canvas) <$> moves) = Ok (h', s')
    ∧ h `prefix_of` h'
    ∧ array_of h' (elements s') = Some (xs ++ [last'])
    ∧ element_ok h' last' = true
    ∧ type_of h' last' = activeToolItem s
    ∧ toolActionType s' = TOOL_ACTION_TYPES.DRAWING
    ∧ activeToolItem s' = activeToolItem s
    ∧ history s' = history s
    ∧ index s' = index s
    ∧ get_prop h' last' "x1" = get_prop h last "x1"
    ∧ get_prop h' last' "y1" = get_prop h last "y1"
    ∧ get_prop h' last' "x2"
      = match List.last (Some <$> moves) None with
        | Some ev => Ok (VNum (canvas_x canvas ev))
        | None => get_prop h last "x2"
        end
    ∧ get_prop h' last' "y2"
      = match List.last (Some <$> moves) None with
        | Some ev => Ok (VNum (canvas_y canvas ev))
        | None => get_prop h last "y2"
        end.
Proof.
  induction moves as [|ev moves IH]; intros h s xs last Hty Hs Hx Hok Htype.
  - exists h, s, last. by split_and!.
  - cbn [fmap list_fmap provider_run].
    unfold provider_step, provider_actions, boardMouseMoveHandler.
    rewrite Hty.
    rewrite (bool_decide_eq_false_2 (TOOL_ACTION_TYPES.DRAWING = TOOL_ACTION_TYPES.WRITING))
      by done.
    rewrite bool_decide_eq_true_2 by done. cbn [dispatch_all].
    destruct (draw_move_shape_ok near h s (clientX ev - left canvas)
                (clientY ev - top canvas) xs last Hx Hok Htype Hs)
      as (h1 & new & Hr & Hp1 & Hx1 & Hok1 & Hty1 & Hx11 & Hy11 & Hx21 & Hy21).
    rewrite Hr, !result_bind_ok.
    destruct (IH h1 (with_elements s (VRef (length h))) xs new)
      as (h' & s' & last' & Hrun & Hp & Hx' & Hok' & Hty' & Hact' & Htool' & Hh' & Hi'
          & Hx1' & Hy1' & Hx2' & Hy2'); try done.
    exists h', s', last'. split; [done|]. split; [by etrans|].
    split_and!; try done; try congruence.
    + rewrite Hx2'. change (Some ev :: (Some <$> moves)) with (Some <$> (ev :: moves)).
      rewrite !(last_some _ ev). by destruct moves.
    + rewrite Hy2'. change (Some ev :: (Some <$> moves)) with (Some <$> (ev :: moves)).
      rewrite !(last_some _ ev). by destruct moves.
Qed.

End ShapeDragRun.

(** A drag with the line, rectangle, circle or arrow tool on a board that
    satisfies the history invariant: the live collection gets exactly one
    element more, of the tool's type, spanning from where the pointer went
    down to where it was last moved; the history gets exactly one entry
    more, the cursor is on it, the action type is back to NONE and the
    invariant holds again. The element is what [createElement] makes, which
    is not among the sources and is taken here as the constructor of a new
    object with the given type, corners and style. *)
Theorem shape_drag_adds_one_element
    (near : heap → val → Z → Z → bool) (tb : val → option ToolStyle)
    (h : heap) (s : BoardState) (canvas : Rect) (start : MouseEvent)
    (moves : list MouseEvent) :
  shape_type (activeToolItem s) = true →
  toolActionType s ≠ TOOL_ACTION_TYPES.WRITING →
  history_invariant h s = true →
  ∃ h' s' xs new,
    provider_run near tb h s (drag canvas start moves) = Ok (h', s')
    ∧ array_of h (elements s) = Some xs
    ∧ array_of h' (elements s') = Some (xs ++ [new])
    ∧ type_of h' new = activeToolItem s
    ∧ get_prop h' new "x1" = Ok (VNum (canvas_x canvas start))
    ∧ get_prop h' new "y1" = Ok (VNum (canvas_y canvas start))
    ∧ get_prop h' new "x2" = Ok (VNum (canvas_x canvas (List.last moves start)))
    ∧ get_prop h' new "y2" = Ok (VNum (canvas_y canvas (List.last moves start)))
    ∧ toolActionType s' = TOOL_ACTION_TYPES.NONE
    ∧ index s' = (index s + 1)%Z
    ∧ history_length h' s' = (index s + 2)%Z
    ∧ history_invariant h' s' = true.
Proof.
  intros Hs Hty Hinv.
  destruct (history_invariant_elim _ _ Hinv)
    as (xs & hs & snap & Hx & Hxs & Hh & Hhs & Hb & Hsnap & Hview).
  unfold drag. cbn [provider_run]. unfold provider_step at 1.
  unfold provider_actions, boardMouseDownHandler.
  rewrite bool_decide_eq_false_2 by done.
  assert (Hne : strict_eq (activeToolItem s) TOOL_ITEMS.ERASER = false).
  { apply strict_eq_false. intros E. by rewrite E in Hs. }
  rewrite Hne. cbn [dispatch_all].
  set (style := default noStyle (tb (activeToolItem s))).
  destruct (draw_down_shape near h s (clientX start - left canvas)
              (clientY start - top canvas) (stroke style) (fill style) (size style)
              xs Hx Hs)
    as (h1 & s1 & new1 & Hr1 & Hp1 & Hx1 & Hok1 & Hty1 & Hx11 & Hy11 & Hx21 & Hy21
        & Hact1 & Htool1 & Hh1 & Hi1).
  rewrite Hr1, !result_bind_ok. rewrite provider_run_app.
  destruct (drawing_moves near tb canvas moves h1 s1 xs new1)
    as (h2 & s2 & new2 & Hrun & Hp2 & Hx2 & Hok2 & Hty2 & Hact2 & Htool2 & Hh2 & Hi2
        & Hx12 & Hy12 & Hx22 & Hy22); try done; try congruence.
  rewrite Hrun, result_bind_ok.
  cbn [provider_run]. unfold provider_step, provider_actions, boardMouseUpHandler.
  rewrite Hact2.
  rewrite (bool_decide_eq_false_2 (TOOL_ACTION_TYPES.DRAWING = TOOL_ACTION_TYPES.WRITING))
    by done.
  rewrite bool_decide_eq_true_2 by done. cbn [app dispatch_all].
  assert (Hp : h `prefix_of` h2) by by etrans.
  assert (Hh2' : array_of h2 (history s2) = Some hs).
  { rewrite Hh2, Hh1. by eapply array_of_ext. }
  assert (Hbok : board_ok h2 s2 = true).
  { unfold board_ok, collection_ok. rewrite Hx2, Hh2'. apply andb_true_iff. split.
    - rewrite forallb_app. apply andb_true_iff. split.
      + by apply (elements_ok_ext h h2).
      + simpl. by rewrite Hok2.
    - by apply (collections_ok_ext h h2). }
  assert (Hbnd : index_in_bounds h2 s2 = true).
  { unfold index_in_bounds. rewrite Hh2', Hi2, Hi1.
    apply andb_true_iff. split; [apply Z.leb_le|apply Z.ltb_lt]; lia. }
  destruct (draw_up_pushes near h2 s2 (xs ++ [new2]) Hx2 (array_of_history_typed _ _ _ Hh2'))
    as (h3 & l & top & Hr3 & Hp3 & Hl & Hhist & _).
  destruct (push_establishes near h2 s2 Hbok Hbnd) as (h3' & s3' & Hr3' & _ & Hinv3).
  rewrite Hr3 in Hr3'. injection Hr3' as <- <-.
  rewrite Hr3, result_bind_ok. cbn [boardReducer]. rewrite result_bind_ok.
  assert (He2 : history_entries h2 s2 = hs) by (unfold history_entries; by rewrite Hh2').
  rewrite He2 in Hhist.
  assert (Hal2 : allocated h2 new2 = true).
  { apply valid_element_allocated. by apply element_ok_valid. }
  exists h3, (with_action_type (with_history s2 (VRef l) (index s2 + 1)) TOOL_ACTION_TYPES.NONE),
    xs, new2.
  cbn [elements toolActionType index history with_action_type with_history].
  split; [done|]. split; [done|]. split; [by eapply array_of_ext|].
  split.
  { rewrite <- Htool1, <- Hty2. unfold type_of.
    by rewrite (get_prop_ext h2 h3). }
  rewrite !(get_prop_ext h2 h3) by done. unfold canvas_x, canvas_y in *.
  split; [congruence|]. split; [congruence|].
  rewrite (last_some _ start) in Hx22, Hy22.
  split; [by destruct moves; [rewrite Hx22|]|].
  split; [by destruct moves; [rewrite Hy22|]|].
  split; [done|]. split; [lia|]. split.
  - unfold history_length. cbn [history with_action_type with_history array_of].
    rewrite Hhist, length_app, slice0_length by lia. simpl. lia.
  - done.
Qed.

(** A drag of two moves with the line tool over the board with one line. *)
Lemma shape_drag_adds_one_element_witness :
  shape_type (activeToolItem lineToolState) = true
  ∧ toolActionType lineToolState ≠ TOOL_ACTION_TYPES.WRITING
  ∧ history_invariant lineHeap lineToolState = true
  ∧ ∃ h' s' new,
      provider_run never_near noToolbox lineHeap lineToolState
        (drag {| left := 10; top := 10 |} {| clientX := 11; clientY := 12 |}
           [{| clientX := 20; clientY := 20 |}; {| clientX := 30; clientY := 40 |}])
      = Ok (h', s')
      ∧ array_of h' (elements s') = Some ([VRef 0] ++ [new])
      ∧ get_prop h' new "x1" = Ok (VNum 1)
      ∧ get_prop h' new "y2" = Ok (VNum 30)
      ∧ index s' = 2%Z.
Proof.
  split; [reflexivity|]. split; [discriminate|]. split; [vm_compute; reflexivity|].
  destruct (shape_drag_adds_one_element never_near noToolbox lineHeap lineToolState
              {| left := 10; top := 10 |} {| clientX := 11; clientY := 12 |}
              [{| clientX := 20; clientY := 20 |}; {| clientX := 30; clientY := 40 |}])
    as (h' & s' & xs & new & H1 & H2 & H3 & _ & H5 & _ & _ & H8 & _ & H10 & _);
    [reflexivity|discriminate|vm_compute; reflexivity|].
  injection H2 as <-.
  exists h', s', new. split; [exact H1|]. split; [exact H3|].
  split; [exact H5|]. split; [exact H8|exact H10].
Defined.

(** ** The requests of the sidebar and of the API helpers *)

Lemma requests_app (w1 w2 : list Sidebar.sidebar_effect) :
  Sidebar.requests (w1 ++ w2) = Sidebar.requests w1 ++ Sidebar.requests w2.
Proof. unfold Sidebar.requests. apply omap_app. Qed.

Lemma continues_refl stored w : Sidebar.continues stored w w.
Proof. split; [done|]. by left. Qed.

Lemma continues_trans stored w1 w2 w3 :
  Sidebar.continues stored w1 w2 → Sidebar.continues stored w2 w3 →
  Sidebar.continues stored w1 w3.
Proof.
  intros [Hp1 H1] [Hp2 H2]. split; [by etrans|].
  intros r Hr. destruct (H2 r Hr) as [Hin|]; [by apply H1|by right].
Qed.

(** Effects that are no requests. *)
Lemma continues_quiet stored w out :
  Sidebar.requests out = [] → Sidebar.continues stored w (w ++ out).
Proof.
  intros Hq. split; [by eexists|]. intros r. rewrite requests_app, Hq, app_nil_r.
  by left.
Qed.

Lemma getToken_usable stored :
  usable (Sidebar.getToken stored) = true →
  ∃ t, Sidebar.getToken stored = Some t ∧ nonempty t = true ∧ trim t = t.
Proof.
  destruct (Sidebar.getToken stored) as [t|] eqn:E; [|done]. intros Hu.
  exists t. split_and!; try done. by apply (getAuthToken_trimmed stored).
Qed.

(** A request with the cleaned credential. *)
Lemma continues_axios server stored w r :
  usable (Sidebar.getToken stored) = true →
  http.authorization_of r = bearer (default [] (Sidebar.getToken stored)) →
  Sidebar.continues stored w (Sidebar.axios server w r).2.
Proof.
  intros Hu Hr. split; [by eexists|]. intros r'. cbn [Sidebar.axios snd].
  rewrite requests_app. intros [Hin|Hin]%elem_of_app; [by left|right].
  apply list_elem_of_singleton in Hin as ->.
  destruct (getToken_usable stored Hu) as (t & Ht & Hne & Htrim).
  exists t. rewrite Hr, Ht. by split_and!.
Qed.

Lemma api_getAuthToken_eq stored : api.getAuthToken stored = Sidebar.getToken stored.
Proof.
  destruct stored as [token|]; [|done]. simpl.
  destruct (negb (nonempty token)); [done|]. by destruct (startsWith _ _).
Qed.

Section SidebarRequests.

Variable server : list http.request → http.response.
Variable env : Sidebar.Env.

Lemma create_with_continues (f : list Sidebar.sidebar_effect → Sidebar.outcome (list http.Canvas))
    w w' :
  (∀ w1 w2, Sidebar.trace_of (f w1) = Some w2 →
            Sidebar.continues (Sidebar.stored env) w1 w2) →
  Sidebar.trace_of (Sidebar.handleCreateCanvas_with server f env w) = Some w' →
  Sidebar.continues (Sidebar.stored env) w w'.
Proof.
  intros Hf. unfold Sidebar.handleCreateCanvas_with.
  destruct (negb (usable _)) eqn:Hu.
  { intros [= <-]. by apply continues_quiet. }
  apply negb_false_iff in Hu.
  pose proof (continues_axios server (Sidebar.stored env) w
                (http.PostCreate (bearer (default [] (Sidebar.getToken (Sidebar.stored env)))))
                Hu eq_refl) as Hax.
  destruct (Sidebar.axios server w _) as [response w1]. cbn [snd] in Hax.
  destruct response as [[cs|a b c|m|els| ]|error]; try done.
  - destruct (negb (usable _)).
    { intros [= <-]. eapply continues_trans; [done|]. by apply continues_quiet. }
    destruct (f w1) as [cs w2|w2|] eqn:Ef; try done.
    + intros [= <-]. eapply continues_trans; [done|].
      eapply continues_trans; [apply Hf; by rewrite Ef|]. by apply continues_quiet.
    + intros [= <-]. eapply continues_trans; [done|]. apply Hf. by rewrite Ef.
  - intros [= <-]. eapply continues_trans; [done|]. by apply continues_quiet.
Qed.

Lemma fetch_continues fuel : ∀ w w',
  Sidebar.trace_of (Sidebar.fetchCanvases server fuel env w) = Some w' →
  Sidebar.continues (Sidebar.stored env) w w'.
Proof.
  induction fuel as [|n IH]; intros w w'; cbn [Sidebar.fetchCanvases].
  { intros [= <-]. apply continues_refl. }
  destruct (negb (usable _)) eqn:Hu.
  { intros [= <-]. by apply continues_quiet. }
  apply negb_false_iff in Hu.
  pose proof (continues_axios server (Sidebar.stored env) w
                (http.GetList (bearer (default [] (Sidebar.getToken (Sidebar.stored env)))))
                Hu eq_refl) as Hax.
  destruct (Sidebar.axios server w _) as [response w1]. cbn [snd] in Hax.
  destruct response as [[cs|a b c|m|els| ]|error]; try done.
  - destruct cs as [|first rest].
    + assert (Hc : Sidebar.continues (Sidebar.stored env) w
                     (w1 ++ [Sidebar.SetCanvases []])).
      { eapply continues_trans; [done|]. by apply continues_quiet. }
      destruct (Sidebar.handleCreateCanvas_with server _ env _) as [[c|] w3|w3|] eqn:Ec;
        try done; intros [= <-]; (eapply continues_trans; [exact Hc|]).
      * eapply continues_trans; [|by apply continues_quiet].
        eapply create_with_continues; [apply IH|]. by rewrite Ec.
      * eapply create_with_continues; [apply IH|]. by rewrite Ec.
      * eapply create_with_continues; [apply IH|]. by rewrite Ec.
    + destruct (_ && _); intros [= <-]; (eapply continues_trans; [done|]).
      * rewrite <- app_assoc. by apply continues_quiet.
      * by apply continues_quiet.
  - intros [= <-]. eapply continues_trans; [done|]. by apply continues_quiet.
Qed.

End SidebarRequests.

(** The requests of the sidebar -- the list, the creation, the deletion and
    the sharing of a canvas, with the list and the creation calling each
    other -- and of the two API helpers all carry [Bearer ] followed by the
    cleaned credential, which is then a non-empty string without white space
    around it: without a usable credential no request is made. A trace only
    grows. *)
Theorem requests_carry_the_clean_token
    (server : list http.request → http.response) (fuel : nat) (env : Sidebar.Env)
    (op : Sidebar.operation) (w w' : list Sidebar.sidebar_effect)
    (canvas : list N) (elements : val) (answer : http.response) :
  (Sidebar.run server fuel env op w = Some w' →
   w `prefix_of` w'
   ∧ ∀ r, r ∈ Sidebar.requests w' →
          r ∈ Sidebar.requests w ∨ Sidebar.authorized (Sidebar.stored env) r)
  ∧ (∀ r, api.Request r ∈ (api.updateCanvas (Sidebar.stored env) canvas elements answer).1
          ∨ api.Request r
            ∈ (api.fetchInitialCanvasElements (Sidebar.stored env) canvas answer).1 →
          Sidebar.authorized (Sidebar.stored env) r).
Proof.
  split.
  - change (Sidebar.run server fuel env op w = Some w' →
            Sidebar.continues (Sidebar.stored env) w w').
    destruct op as [| |c| |logged]; cbn [Sidebar.run].
    + apply fetch_continues.
    + apply create_with_continues. apply fetch_continues.
    + unfold Sidebar.handleDeleteCanvas.
      destruct (negb (usable _)) eqn:Hu.
      { intros [= <-]. by apply continues_quiet. }
      apply negb_false_iff in Hu.
      pose proof (continues_axios server (Sidebar.stored env) w
                    (http.Delete c (bearer (default [] (Sidebar.getToken (Sidebar.stored env)))))
                    Hu eq_refl) as Hax.
      destruct (Sidebar.axios server w _) as [response w1]. cbn [snd] in Hax.
      destruct response as [data|error].
      * destruct (Sidebar.fetchCanvases server fuel env w1) as [cs w2|w2|] eqn:Ef;
          try done.
        -- assert (Hc : Sidebar.continues (Sidebar.stored env) w w2).
           { eapply continues_trans; [done|]. apply (fetch_continues server env fuel).
             by rewrite Ef. }
           destruct (bool_decide _); [|by intros [= <-]].
           destruct cs; intros [= <-];
             (eapply continues_trans; [done|]); by apply continues_quiet.
        -- intros [= <-]. eapply continues_trans; [done|].
           apply (fetch_continues server env fuel). by rewrite Ef.
      * intros [= <-]. eapply continues_trans; [done|]. by apply continues_quiet.
    + unfold Sidebar.handleShare.
      destruct (negb (nonempty _)).
      { intros [= <-]. by apply continues_quiet. }
      destruct (negb (usable _)) eqn:Hu.
      { intros [= <-]. rewrite <- app_assoc. by apply continues_quiet. }
      apply negb_false_iff in Hu.
      match goal with |- context [Sidebar.axios server ?w0 ?r] =>
        pose proof (continues_axios server (Sidebar.stored env) w0 r Hu eq_refl) as Hax;
        destruct (Sidebar.axios server w0 r) as [response w1]
      end.
      cbn [snd] in Hax.
      assert (Hc : Sidebar.continues (Sidebar.stored env) w w1).
      { eapply continues_trans; [|done]. by apply continues_quiet. }
      destruct response as [[cs|a b c|m|els| ]|error]; try done;
        intros [= <-]; (eapply continues_trans; [done|]); by apply continues_quiet.
    + unfold Sidebar.loginEffect. destruct logged.
      * destruct (Sidebar.fetchCanvases server fuel env w) as [cs w2|w2|] eqn:Ef;
          try done; intros [= <-]; apply (fetch_continues server env fuel); by rewrite Ef.
      * intros [= <-]. apply continues_refl.
  - intros r Hr. unfold api.updateCanvas, api.fetchInitialCanvasElements in Hr.
    rewrite !api_getAuthToken_eq in Hr.
    destruct (negb (usable _)) eqn:Hu.
    { cbn [fst] in Hr. destruct Hr as [Hr|Hr];
        apply list_elem_of_singleton in Hr; done. }
    apply negb_false_iff in Hu.
    destruct (getToken_usable _ Hu) as (t & Ht & Hne & Htrim).
    exists t. split_and!; try done. rewrite Ht in Hr. cbn [default] in Hr.
    destruct Hr as [Hr|Hr].
    + destruct answer as [data|error]; cbn [fst] in Hr.
      * apply elem_of_cons in Hr as [[= ->]|Hr]; [done|].
        by apply list_elem_of_singleton in Hr.
      * by apply list_elem_of_singleton in Hr as [= ->].
    + destruct answer as [[cs|a b c|m|els| ]|error]; cbn [fst] in Hr;
        try (by apply list_elem_of_singleton in Hr as [= ->]).
      apply elem_of_cons in Hr as [[= ->]|Hr]; [done|].
      by apply list_elem_of_singleton in Hr.
Qed.

(** The sidebar of a user without canvases creates one. *)
Lemma requests_carry_the_clean_token_witness :
  length (Sidebar.requests
            (default [] (Sidebar.run (Sidebar.keeping []) 3 Sidebar.freshEnv
                           Sidebar.FetchCanvases []))) = 3
  ∧ ∀ r, r ∈ Sidebar.requests
               (default [] (Sidebar.run (Sidebar.keeping []) 3 Sidebar.freshEnv
                              Sidebar.FetchCanvases [])) →
         Sidebar.authorized (Sidebar.stored Sidebar.freshEnv) r.
Proof.
  split; [reflexivity|].
  destruct (Sidebar.run (Sidebar.keeping []) 3 Sidebar.freshEnv Sidebar.FetchCanvases [])
    as [w'|] eqn:E; intros r Hr; [|by apply elem_of_nil in Hr].
  destruct (requests_carry_the_clean_token (Sidebar.keeping []) 3 Sidebar.freshEnv
              Sidebar.FetchCanvases [] w' [] VUndef (http.Resolved http.NoBody))
    as [H _].
  destruct (H E) as [_ Hall].
  destruct (Hall r Hr) as [Hin|Hok]; [|exact Hok].
  by apply elem_of_nil in Hin.
Defined.

(** ** Creating and deleting canvases on a server that keeps them *)

Lemma fresh_id_nonempty n : nonempty (Sidebar.fresh_id n) = true.
Proof. done. Qed.

Lemma created_id k :
  or_else (or_else (Some (Sidebar.fresh_id k)) None) None = Some (Sidebar.fresh_id k).
Proof. done. Qed.

Lemma last_some_snoc {A} (xs : list A) (x : A) :
  List.last (Some <$> (xs ++ [x])) None = Some x.
Proof. rewrite fmap_app. cbn [fmap list_fmap]. apply List.last_last. Qed.

Lemma kept_app n history : ∀ canvases history',
  Sidebar.kept canvases n (history ++ history')
  = Sidebar.kept (Sidebar.kept canvases n history)
      (n + Sidebar.created history) history'.
Proof.
  revert n. induction history as [|r history IH]; intros n canvases history'.
  - simpl. by rewrite Nat.add_0_r.
  - destruct r; cbn [app Sidebar.kept]; rewrite IH; unfold Sidebar.created; simpl;
      try done.
    by rewrite Nat.add_succ_r.
Qed.

Lemma created_app h1 h2 :
  Sidebar.created (h1 ++ h2) = Sidebar.created h1 + Sidebar.created h2.
Proof. unfold Sidebar.created. by rewrite List.filter_app, length_app. Qed.

Lemma keeping_create initial history a :
  Sidebar.keeping initial (history ++ [http.PostCreate a])
  = http.Resolved (http.Created (Some (Sidebar.fresh_id (Sidebar.created history)))
                     None None).
Proof.
  unfold Sidebar.keeping. rewrite last_some_snoc, created_app.
  change (Sidebar.created [http.PostCreate a]) with 1.
  by replace (Sidebar.created history + 1 - 1) with (Sidebar.created history) by lia.
Qed.

Lemma keeping_list initial history a :
  Sidebar.keeping initial (history ++ [http.GetList a])
  = http.Resolved (http.Canvases (Sidebar.kept initial 0 history)).
Proof.
  unfold Sidebar.keeping. rewrite last_some_snoc. by rewrite kept_app.
Qed.

Lemma keeping_delete initial history c a :
  Sidebar.keeping initial (history ++ [http.Delete c a]) = http.Resolved http.NoBody.
Proof. unfold Sidebar.keeping. by rewrite last_some_snoc. Qed.

Lemma forgetting_create history a :
  Sidebar.forgetting (history ++ [http.PostCreate a])
  = http.Resolved (http.Created (Some (Sidebar.fresh_id (Sidebar.created history)))
                     None None).
Proof.
  unfold Sidebar.forgetting. rewrite last_some_snoc, created_app.
  change (Sidebar.created [http.PostCreate a]) with 1.
  by replace (Sidebar.created history + 1 - 1) with (Sidebar.created history) by lia.
Qed.

Lemma forgetting_list history a :
  Sidebar.forgetting (history ++ [http.GetList a]) = http.Resolved (http.Canvases []).
Proof. unfold Sidebar.forgetting. by rewrite last_some_snoc. Qed.

(** The list while there is a canvas: one request, and the first canvas
    is opened when none is selected. *)
Lemma fetch_nonempty server n env w t first rest :
  Sidebar.getToken (Sidebar.stored env) = Some t →
  nonempty t = true →
  server (Sidebar.requests w ++ [http.GetList (bearer t)])
  = http.Resolved (http.Canvases (first :: rest)) →
  Sidebar.fetchCanvases server (S n) env w
  = Sidebar.Returns (first :: rest)
      (w ++ [Sidebar.Request (http.GetList (bearer t));
             Sidebar.SetCanvases (first :: rest)]
         ++ if negb (nonempty (Sidebar.canvasId env)) && negb (usable (Sidebar.id env))
            then [Sidebar.SetCanvasId (http._id first);
                  Sidebar.handleCanvasClick (http._id first)]
            else []).
Proof.
  intros Ht Hne Hs. cbn [Sidebar.fetchCanvases]. rewrite Ht. cbn [usable from_option Datatypes.id].
  rewrite Hne. cbn [negb]. unfold Sidebar.axios. rewrite Hs.
  destruct (_ && _); by rewrite <- !app_assoc.
Qed.

(** The list while there is none: a canvas is created. *)
Lemma fetch_empty server n env w t :
  Sidebar.getToken (Sidebar.stored env) = Some t →
  nonempty t = true →
  server (Sidebar.requests w ++ [http.GetList (bearer t)])
  = http.Resolved (http.Canvases []) →
  Sidebar.fetchCanvases server (S n) env w
  = match Sidebar.handleCreateCanvas_with server (Sidebar.fetchCanvases server n env) env
            (w ++ [Sidebar.Request (http.GetList (bearer t)); Sidebar.SetCanvases []]) with
    | Sidebar.Returns (Some newCanvas) w3 =>
        Sidebar.Returns []
          (w3 ++ [Sidebar.SetCanvasId (http._id newCanvas);
                  Sidebar.handleCanvasClick (http._id newCanvas)])
    | Sidebar.Returns None w3 => Sidebar.Returns [] w3
    | Sidebar.Pending w3 => Sidebar.Pending w3
    | Sidebar.Unmodelled => Sidebar.Unmodelled
    end.
Proof.
  intros Ht Hne Hs. cbn [Sidebar.fetchCanvases]. rewrite Ht.
  cbn [usable from_option Datatypes.id]. rewrite Hne. cbn [negb].
  unfold Sidebar.axios. rewrite Hs. by rewrite <- !app_assoc.
Qed.

(** On a server that keeps the canvases, creating a canvas takes one
    creation and one list request, and whatever the list then holds and
    whether or not a canvas was selected, the last navigation and the last
    canvas id set are those of the new canvas. *)
Theorem create_ends_on_new_canvas
    (initial : list http.Canvas) (n : nat) (env : Sidebar.Env) (t : list N) :
  Sidebar.getToken (Sidebar.stored env) = Some t →
  nonempty t = true →
  match Sidebar.handleCreateCanvas (Sidebar.keeping initial) (S n) env [] with
  | Sidebar.Returns (Some c) w' =>
      http._id c = Sidebar.fresh_id 0
      ∧ Sidebar.requests w' = [http.PostCreate (bearer t); http.GetList (bearer t)]
      ∧ Sidebar.SetCanvases (initial ++ [c]) ∈ w'
      ∧ Sidebar.last_navigation w' = Some (units "/" ++ Sidebar.fresh_id 0)
      ∧ Sidebar.last_canvasId w' = Some (Sidebar.fresh_id 0)
  | _ => False
  end.
Proof.
  intros Ht Hne. unfold Sidebar.handleCreateCanvas, Sidebar.handleCreateCanvas_with.
  rewrite Ht. cbn [usable from_option Datatypes.id]. rewrite Hne. cbn [negb].
  unfold Sidebar.axios at 1. cbn [Sidebar.requests omap list_omap].
  rewrite (keeping_create initial []).
  change (Sidebar.created []) with 0.
  rewrite created_id. cbn [usable]. rewrite fresh_id_nonempty.
  cbn [negb from_option Datatypes.id].
  set (c := http.mkCanvas (Sidebar.fresh_id 0) None None).
  assert (Hlist : ∃ first rest, initial ++ [c] = first :: rest).
  { destruct initial as [|x xs]; simpl; eauto. }
  destruct Hlist as (first & rest & Hlist).
  rewrite (fetch_nonempty _ n env _ t first rest Ht Hne).
  2:{ cbn [app Sidebar.requests omap list_omap].
      change [http.PostCreate (bearer t); http.GetList (bearer t)]
        with ([http.PostCreate (bearer t)] ++ [http.GetList (bearer t)]).
      rewrite (keeping_list initial [http.PostCreate (bearer t)]).
      by rewrite <- Hlist. }
  cbn [http._id c]. rewrite <- Hlist.
  destruct (_ && _); cbn [app]; (split; [done|]); (split; [done|]);
    (split; [|done]); repeat (first [by apply list_elem_of_here|apply list_elem_of_further]).
Qed.

(** On a server that keeps the canvases, deleting the only canvas while it
    is open makes four requests -- the deletion, the list (empty), the
    creation of a new canvas, the list again --, and although the new
    canvas is opened on the way, the handler ends with the canvas id set to
    the empty string and a navigation to the home route; the server then
    holds the new canvas. *)
Theorem deleting_only_canvas_ends_at_home
    (only : http.Canvas) (n : nat) (env : Sidebar.Env) (t : list N) :
  Sidebar.getToken (Sidebar.stored env) = Some t →
  nonempty t = true →
  Sidebar.canvasId env = http._id only →
  match Sidebar.handleDeleteCanvas (Sidebar.keeping [only]) (S (S n)) env
          (http._id only) [] with
  | Sidebar.Returns _ w' =>
      Sidebar.requests w'
      = [http.Delete (http._id only) (bearer t); http.GetList (bearer t);
         http.PostCreate (bearer t); http.GetList (bearer t)]
      ∧ Sidebar.handleCanvasClick (Sidebar.fresh_id 0) ∈ w'
      ∧ Sidebar.last_navigation w' = Some (units "/")
      ∧ Sidebar.last_canvasId w' = Some []
      ∧ Sidebar.kept [only] 0 (Sidebar.requests w')
        = [http.mkCanvas (Sidebar.fresh_id 0) None None]
  | _ => False
  end.
Proof.
  intros Ht Hne Hcid. unfold Sidebar.handleDeleteCanvas.
  rewrite Ht. cbn [usable from_option Datatypes.id]. rewrite Hne. cbn [negb].
  unfold Sidebar.axios at 1. cbn [Sidebar.requests omap list_omap].
  rewrite (keeping_delete [only] []).
  set (a := bearer t). set (c := http.mkCanvas (Sidebar.fresh_id 0) None None).
  assert (Hkept : ∀ rest, Sidebar.kept [only] 0 (http.Delete (http._id only) a :: rest)
                          = Sidebar.kept [] 0 rest).
  { intros rest. cbn [Sidebar.kept List.filter]. by rewrite bool_decide_eq_true_2. }
  (* the list is empty: a canvas is created *)
  rewrite (fetch_empty _ (S n) env _ t Ht Hne).
  2:{ cbn [app Sidebar.requests omap list_omap]. fold a.
      change [http.Delete (http._id only) a; http.GetList a]
        with ([http.Delete (http._id only) a] ++ [http.GetList a]).
      by rewrite (keeping_list [only] [http.Delete (http._id only) a]), Hkept. }
  fold a. unfold Sidebar.handleCreateCanvas_with.
  rewrite Ht. cbn [usable from_option Datatypes.id]. rewrite Hne. cbn [negb].
  unfold Sidebar.axios at 1. cbn [app Sidebar.requests omap list_omap]. fold a.
  change [http.Delete (http._id only) a; http.GetList a; http.PostCreate a]
    with ([http.Delete (http._id only) a; http.GetList a] ++ [http.PostCreate a]).
  rewrite (keeping_create [only] [http.Delete (http._id only) a; http.GetList a]).
  change (Sidebar.created [http.Delete (http._id only) a; http.GetList a]) with 0.
  rewrite created_id. cbn [usable]. rewrite fresh_id_nonempty.
  cbn [negb from_option Datatypes.id].
  (* the list holds the new canvas *)
  rewrite (fetch_nonempty _ n env _ t c [] Ht Hne).
  2:{ cbn [app Sidebar.requests omap list_omap]. fold a.
      change [http.Delete (http._id only) a; http.GetList a; http.PostCreate a;
              http.GetList a]
        with ([http.Delete (http._id only) a; http.GetList a; http.PostCreate a]
              ++ [http.GetList a]).
      rewrite (keeping_list [only]
                 [http.Delete (http._id only) a; http.GetList a; http.PostCreate a]).
      by rewrite Hkept. }
  fold a. rewrite bool_decide_eq_true_2 by done.
  assert (Hfinal : Sidebar.kept [only] 0
                     [http.Delete (http._id only) a; http.GetList a;
                      http.PostCreate a; http.GetList a] = [c]).
  { by rewrite Hkept. }
  destruct (_ && _); cbn [app Sidebar.requests omap list_omap];
    (split_and!; [done| |done|done|exact Hfinal]);
    repeat (first [by apply list_elem_of_here|apply list_elem_of_further]).
Qed.

(** On any server whose list stays empty and whose creations return an id,
    the list and the creation call each other without end: whatever the
    fuel, fetchCanvases is still running when it is used up, having created
    one canvas per unit of fuel. *)
Theorem empty_list_keeps_creating
    (server : list http.request → http.response)
    (n : nat) (env : Sidebar.Env) (w : list Sidebar.sidebar_effect) (t : list N) :
  Sidebar.getToken (Sidebar.stored env) = Some t →
  nonempty t = true →
  (∀ history a, server (history ++ [http.GetList a]) = http.Resolved (http.Canvases [])) →
  (∀ history a, ∃ x y z,
      server (history ++ [http.PostCreate a]) = http.Resolved (http.Created x y z)
      ∧ usable (or_else (or_else x y) z) = true) →
  ∃ w',
    Sidebar.fetchCanvases server n env w = Sidebar.Pending w'
    ∧ w `prefix_of` w'
    ∧ Sidebar.created (Sidebar.requests w') = Sidebar.created (Sidebar.requests w) + n.
Proof.
  intros Ht Hne Hlist Hcreate. revert w. induction n as [|n IH]; intros w.
  { exists w. split; [done|]. split; [done|lia]. }
  rewrite (fetch_empty _ n env w t Ht Hne) by apply Hlist.
  unfold Sidebar.handleCreateCanvas_with.
  rewrite Ht. cbn [usable from_option Datatypes.id]. rewrite Hne. cbn [negb].
  unfold Sidebar.axios at 1.
  match goal with |- context [server (?hs ++ [http.PostCreate ?a])] =>
    destruct (Hcreate hs a) as (x & y & z & -> & Hid)
  end.
  rewrite Hid. cbn [negb].
  match goal with |- context [Sidebar.fetchCanvases _ n env ?w3] =>
    destruct (IH w3) as (w' & -> & Hp & Hc)
  end.
  exists w'. split; [done|]. split.
  - etrans; [|exact Hp]. rewrite <- !app_assoc. by eexists.
  - rewrite Hc, !requests_app, !created_app. cbn. lia.
Qed.

(** A first canvas is created; the only canvas is deleted; five rounds
    against the server whose list stays empty. *)
Lemma create_ends_on_new_canvas_witness :
  Sidebar.getToken (Sidebar.stored Sidebar.freshEnv) = Some Sidebar.someToken
  ∧ nonempty Sidebar.someToken = true
  ∧ match Sidebar.handleCreateCanvas (Sidebar.keeping [Sidebar.onlyCanvas]) 2
            Sidebar.freshEnv [] with
    | Sidebar.Returns (Some c) w' =>
        Sidebar.last_navigation w' = Some (units "/c0")
        ∧ Sidebar.last_canvasId w' = Some (units "c0")
    | _ => False
    end.
Proof.
  split; [reflexivity|]. split; [reflexivity|].
  pose proof (create_ends_on_new_canvas [Sidebar.onlyCanvas] 1 Sidebar.freshEnv
                Sidebar.someToken eq_refl eq_refl) as H.
  destruct (Sidebar.handleCreateCanvas (Sidebar.keeping [Sidebar.onlyCanvas]) 2
              Sidebar.freshEnv []) as [[c|] w'|w'|]; try exact H.
  destruct H as (_ & _ & _ & H4 & H5). split; [exact H4|exact H5].
Defined.

Lemma deleting_only_canvas_ends_at_home_witness :
  Sidebar.getToken (Sidebar.stored Sidebar.onlyEnv) = Some Sidebar.someToken
  ∧ nonempty Sidebar.someToken = true
  ∧ Sidebar.canvasId Sidebar.onlyEnv = http._id Sidebar.onlyCanvas
  ∧ match Sidebar.handleDeleteCanvas (Sidebar.keeping [Sidebar.onlyCanvas]) 2
            Sidebar.onlyEnv (http._id Sidebar.onlyCanvas) [] with
    | Sidebar.Returns _ w' =>
        Sidebar.last_navigation w' = Some (units "/")
        ∧ Sidebar.kept [Sidebar.onlyCanvas] 0 (Sidebar.requests w')
          = [http.mkCanvas (units "c0") None None]
    | _ => False
    end.
Proof.
  split; [reflexivity|]. split; [reflexivity|]. split; [reflexivity|].
  pose proof (deleting_only_canvas_ends_at_home Sidebar.onlyCanvas 0 Sidebar.onlyEnv
                Sidebar.someToken eq_refl eq_refl eq_refl) as H.
  destruct (Sidebar.handleDeleteCanvas (Sidebar.keeping [Sidebar.onlyCanvas]) 2
              Sidebar.onlyEnv (http._id Sidebar.onlyCanvas) []) as [u w'|w'|];
    try exact H.
  destruct H as (_ & _ & H3 & _ & H5). split; [exact H3|exact H5].
Defined.

Lemma empty_list_keeps_creating_witness :
  Sidebar.getToken (Sidebar.stored Sidebar.freshEnv) = Some Sidebar.someToken
  ∧ nonempty Sidebar.someToken = true
  ∧ (∀ history a, Sidebar.forgetting (history ++ [http.GetList a])
                  = http.Resolved (http.Canvases []))
  ∧ (∀ history a, ∃ x y z,
        Sidebar.forgetting (history ++ [http.PostCreate a])
        = http.Resolved (http.Created x y z)
        ∧ usable (or_else (or_else x y) z) = true)
  ∧ ∃ w',
      Sidebar.fetchCanvases Sidebar.forgetting 5 Sidebar.freshEnv [] = Sidebar.Pending w'
      ∧ Sidebar.created (Sidebar.requests w') = 5.
Proof.
  assert (Hcreate : ∀ history a, ∃ x y z,
             Sidebar.forgetting (history ++ [http.PostCreate a])
             = http.Resolved (http.Created x y z)
             ∧ usable (or_else (or_else x y) z) = true).
  { intros history a. eexists _, _, _. split; [apply forgetting_create|].
    rewrite created_id. apply fresh_id_nonempty. }
  split; [reflexivity|]. split; [reflexivity|].
  split; [exact forgetting_list|]. split; [exact Hcreate|].
  destruct (empty_list_keeps_creating Sidebar.forgetting 5 Sidebar.freshEnv []
              Sidebar.someToken eq_refl eq_refl forgetting_list Hcreate)
    as (w' & H1 & _ & H3).
  exists w'. split; [exact H1|exact H3].
Defined.

(** ** The component and the store together *)

Lemma dispatched_dispatch (acts : list action) : dispatched (Dispatch <$> acts) = acts.
Proof. induction acts as [|a acts IH]; [done|]. cbn. by f_equal. Qed.

Lemma dispatched_app out1 out2 : dispatched (out1 ++ out2) = dispatched out1 ++ dispatched out2.
Proof. unfold dispatched. apply omap_app. Qed.

Lemma draw_up_same_elements near h s h' s' :
  boardReducer near h s DRAW_UP = Ok (h', s') → elements s' = elements s.
Proof.
  cbn [boardReducer]. destruct (as_array h (elements s)) as [xs| |]; [|done..].
  rewrite result_bind_ok.
  destruct (map_heap copy_element h _) as [[h1 cs]| |]; [|done..].
  rewrite result_bind_ok. cbn [alloc].
  destruct (push_history _ s _) as [[h3 hi]| |]; [|done..].
  rewrite result_bind_ok. by intros [= _ <-].
Qed.

(** A move that returns a state returns one with a new live array. *)
Lemma draw_move_new_array near h s x y h' s' :
  boardReducer near h s (DRAW_MOVE x y) = Ok (h', s') →
  elements s' = VRef (length h) ∧ allocated h (elements s) = true.
Proof.
  intros Er. cbn [boardReducer] in Er.
  destruct (iterate h (elements s)) as [xs| |] eqn:Ei; [|done..].
  rewrite result_bind_ok in Er. cbn [alloc] in Er.
  assert (Hal : allocated h (elements s) = true).
  { destruct (elements s) as [| | | | |l]; try done. simpl in Ei |- *.
    apply bool_decide_eq_true. apply lookup_lt_is_Some.
    destruct (h !! l); [by eexists|done]. }
  split; [|done].
  destruct (get_prop _ (elements s) "length") as [len| |]; [|done..].
  rewrite result_bind_ok in Er.
  destruct (minus_one len) as [idx| |]; [|done..]. rewrite result_bind_ok in Er.
  destruct (get_prop _ _ "type") as [ty| |]; [|done..].
  rewrite result_bind_ok in Er.
  destruct (shape_type ty).
  - destruct (get_prop _ _ "x1") as [x1| |]; [|done..]. rewrite result_bind_ok in Er.
    destruct (get_prop _ _ "y1") as [y1| |]; [|done..]. rewrite result_bind_ok in Er.
    destruct (get_prop _ _ "stroke") as [st| |]; [|done..]. rewrite result_bind_ok in Er.
    destruct (get_prop _ _ "fill") as [fi| |]; [|done..]. rewrite result_bind_ok in Er.
    destruct (get_prop _ _ "size") as [sz| |]; [|done..]. rewrite result_bind_ok in Er.
    destruct (num_val idx) as [i| |]; [|done..]. rewrite result_bind_ok in Er.
    destruct (createElement _ _ _ _ _ _ _ _ _ _) as [h2 ne].
    destruct (set_index _ _ _ _) as [h3| |]; [|done..]. rewrite result_bind_ok in Er.
    by injection Er as _ <-.
  - destruct (strict_eq ty TOOL_ITEMS.BRUSH); [|done].
    destruct (get_prop _ _ "points") as [pts| |]; [|done..]. rewrite result_bind_ok in Er.
    destruct (iterate _ pts) as [ps| |]; [|done..]. rewrite result_bind_ok in Er.
    cbn [alloc] in Er. destruct (set_prop _ _ _ _) as [h4| |]; [|done..].
    rewrite result_bind_ok in Er. by injection Er as _ <-.
Qed.

Lemma filter_broadcast_dispatch (acts : list action) :
  List.filter is_broadcast (Dispatch <$> acts) = [].
Proof. by apply filter_dispatch. Qed.

Section Broadcasts.

Variable near : heap → val → Z → Z → bool.
Variable tb : val → option ToolStyle.

(** What a pointer-up does to the store leaves the live collection as it
    is. *)
Lemma mouse_up_same_elements h s h' s' :
  dispatch_all near h s (boardMouseUpHandler s) = Ok (h', s') →
  elements s' = elements s.
Proof.
  unfold boardMouseUpHandler. destruct (bool_decide (_ = TOOL_ACTION_TYPES.WRITING)).
  { by intros [= _ <-]. }
  destruct (bool_decide (_ = TOOL_ACTION_TYPES.DRAWING)); cbn [app dispatch_all].
  - destruct (boardReducer near h s DRAW_UP) as [[h1 s1]| |] eqn:E; [|done..].
    rewrite result_bind_ok. cbn [boardReducer]. rewrite result_bind_ok.
    intros [= _ <-]. cbn [elements with_action_type].
    by eapply draw_up_same_elements.
  - cbn [boardReducer]. rewrite result_bind_ok. by intros [= _ <-].
Qed.

End Broadcasts.

(** What the client broadcasts at the pointer events, and what the live
    collection is once the event is handled. The broadcast of a pointer-up
    carries the live collection as it then is. The broadcast of a move
    during a stroke or an erase pass carries the collection of the render
    before the move: the move makes a new collection, which is not sent
    before the next event. *)
Theorem move_broadcast_is_one_event_behind
    (near : heap → val → Z → Z → bool) (tb : val → option ToolStyle)
    (h : heap) (b : Board) (canvas : Rect) (event : MouseEvent)
    (h' : heap) (b' : Board) (out : list effect) :
  isAuthorized b = true →
  (app_step near tb h b MouseUp = Ok (h', b', out) →
   List.filter is_broadcast out
   = [SocketEmit "drawingUpdate" (id b) (Some (elements (boardState b')))])
  ∧ (app_step near tb h b (MouseMove (Some canvas) event) = Ok (h', b', out) →
     toolActionType (boardState b) = TOOL_ACTION_TYPES.DRAWING
     ∨ toolActionType (boardState b) = TOOL_ACTION_TYPES.ERASING →
     List.filter is_broadcast out
     = [SocketEmit "drawingUpdate" (id b) (Some (elements (boardState b)))]
     ∧ elements (boardState b') ≠ elements (boardState b)
     ∧ allocated h (elements (boardState b')) = false).
Proof.
  intros Hauth. split.
  - unfold app_step. cbn [session_step]. unfold handleMouseUp. rewrite Hauth.
    cbn [negb]. rewrite dispatched_app, dispatched_dispatch.
    cbn [dispatched omap list_omap drawingUpdate]. rewrite app_nil_r.
    destruct (dispatch_all near h (boardState b) _) as [[h2 s2]| |] eqn:E; [|done..].
    rewrite result_bind_ok, commit_same_id. intros [= <- <- <-].
    rewrite app_nil_r, List.filter_app, filter_broadcast_dispatch. cbn.
    assert (Hs2 : boardState
                    (if negb (strict_eq (elements (boardState b)) (elements s2))
                     then syncRefEffect (with_render b (id b) s2)
                     else with_render b (id b) s2) = s2).
    { destruct (negb _); [|done].
      by destruct (syncRefEffect_fields (with_render b (id b) s2)) as (_ & _ & _ & ->). }
    rewrite Hs2. apply mouse_up_same_elements in E. by rewrite E.
  - unfold app_step. cbn [session_step]. unfold handleMouseMove. rewrite Hauth.
    cbn [negb]. rewrite dispatched_app, dispatched_dispatch.
    cbn [dispatched omap list_omap drawingUpdate]. rewrite app_nil_r.
    destruct (dispatch_all near h (boardState b) _) as [[h2 s2]| |] eqn:E; [|done..].
    rewrite result_bind_ok, commit_same_id. intros [= <- <- <-] Hmode.
    rewrite app_nil_r, List.filter_app, filter_broadcast_dispatch.
    split; [done|].
    assert (Hs2 : boardState
                    (if negb (strict_eq (elements (boardState b)) (elements s2))
                     then syncRefEffect (with_render b (id b) s2)
                     else with_render b (id b) s2) = s2).
    { destruct (negb _); [|done].
      by destruct (syncRefEffect_fields (with_render b (id b) s2)) as (_ & _ & _ & ->). }
    rewrite Hs2.
    assert (Hfresh : allocated h (elements s2) = false
                     ∧ allocated h (elements (boardState b)) = true).
    { unfold boardMouseMoveHandler in E. set (s := boardState b) in *.
      destruct Hmode as [Hm|Hm]; rewrite Hm in E.
      - rewrite (bool_decide_eq_false_2
                   (TOOL_ACTION_TYPES.DRAWING = TOOL_ACTION_TYPES.WRITING)) in E by done.
        rewrite bool_decide_eq_true_2 in E by done. cbn [dispatch_all] in E.
        destruct (boardReducer near h s _) as [[h1 s1]| |] eqn:Er; [|done..].
        rewrite result_bind_ok in E. injection E as <- <-.
        destruct (draw_move_new_array _ _ _ _ _ _ _ Er) as [Hnew Hal].
        rewrite Hnew. split; [|done]. simpl. apply bool_decide_eq_false. lia.
      - rewrite (bool_decide_eq_false_2
                   (TOOL_ACTION_TYPES.ERASING = TOOL_ACTION_TYPES.WRITING)) in E by done.
        rewrite (bool_decide_eq_false_2
                   (TOOL_ACTION_TYPES.ERASING = TOOL_ACTION_TYPES.DRAWING)) in E by done.
        rewrite bool_decide_eq_true_2 in E by done. cbn [dispatch_all] in E.
        destruct (boardReducer near h s _) as [[h1 s1]| |] eqn:Er; [|done..].
        rewrite result_bind_ok in E. injection E as <- <-.
        cbn [boardReducer] in Er.
        destruct (as_array h (elements s)) as [xs| |] eqn:Ei; [|done..].
        rewrite result_bind_ok in Er. cbn [alloc] in Er.
        destruct (push_history _ _ _) as [[h3 hi]| |]; [|done..].
        rewrite result_bind_ok in Er. injection Er as _ <-.
        cbn [elements with_history with_elements]. split.
        + simpl. apply bool_decide_eq_false. lia.
        + apply as_array_array_of in Ei. by eapply array_of_allocated. }
    destruct Hfresh as [Hf Ha]. split; [|done].
    intros Heq. rewrite Heq in Hf. congruence.
Qed.

(** A move of the eraser over the board with one line. *)
Lemma move_broadcast_is_one_event_behind_witness :
  isAuthorized boardErasing = true
  ∧ ∃ h' b' out,
      app_step never_near noToolbox lineHeap boardErasing
        (MouseMove (Some {| left := 0; top := 0 |}) {| clientX := 50; clientY := 50 |})
      = Ok (h', b', out)
      ∧ List.filter is_broadcast out
        = [SocketEmit "drawingUpdate" (VStr "a") (Some (VRef 1))]
      ∧ elements (boardState b') ≠ VRef 1.
Proof.
  split; [reflexivity|].
  eexists _, _, _. split; [vm_compute; reflexivity|].
  edestruct (move_broadcast_is_one_event_behind never_near noToolbox lineHeap boardErasing
               {| left := 0; top := 0 |} {| clientX := 50; clientY := 50 |})
    as [_ H]; [reflexivity|].
  edestruct H as (H1 & H2 & _); [vm_compute; reflexivity|right; reflexivity|].
  split; [exact H1|exact H2].
Defined.
(** ** A remote update in the middle of a stroke *)

Lemma receiveDrawingUpdate_array h payload xs :
  array_of h payload = Some xs →
  receiveDrawingUpdate h payload
  = (h ++ [OArr (validElements h xs)], [setElements (VRef (length h))]).
Proof.
  intros E. unfold receiveDrawingUpdate.
  assert (isArray h payload = true) as Ha by (apply isArray_array_of; eauto).
  by rewrite Ha, (isArray_truthy _ _ Ha), (array_of_as_array _ _ _ E).
Qed.

Lemma type_of_ext h h' el :
  h `prefix_of` h' → allocated h el = true → type_of h' el = type_of h el.
Proof. intros Hp Hal. unfold type_of. by rewrite (get_prop_ext h h'). Qed.

Lemma last_allocated h (xs : list val) :
  forallb (allocated h) xs = true → allocated h (List.last xs VUndef) = true.
Proof.
  induction xs as [|x [|y xs] IH]; [done| |].
  - simpl. by rewrite andb_true_r.
  - intros H. apply andb_true_iff in H as [_ H]. by apply IH.
Qed.

(** The listener of receiveDrawingUpdate replaces the live collection
    whatever the pointer is doing. When an update arrives in the middle of
    a stroke and what is left of its payload after the filter is empty, or
    ends in an element that is neither a shape nor a freehand stroke (a
    text), the store takes it, stays in DRAWING, and the next pointer move on
    the canvas throws in the reducer. *)
Theorem remote_update_mid_stroke_throws
    (near : heap → val → Z → Z → bool) (tb : val → option ToolStyle)
    (h : heap) (b : Board) (payload : val) (xs : list val)
    (canvas : Rect) (event : MouseEvent) :
  isAuthorized b = true →
  toolActionType (boardState b) = TOOL_ACTION_TYPES.DRAWING →
  array_of h payload = Some xs →
  drawable_type (type_of h (List.last (validElements h xs) VUndef)) = false →
  ∃ h1 b1 out,
    app_step near tb h b (ReceiveDrawingUpdate payload) = Ok (h1, b1, out)
    ∧ array_of h1 (elements (boardState b1)) = Some (validElements h xs)
    ∧ toolActionType (boardState b1) = TOOL_ACTION_TYPES.DRAWING
    ∧ throws (app_step near tb h1 b1 (MouseMove (Some canvas) event)) = true.
Proof.
  intros Hauth Hmode Hx Hlast.
  unfold app_step at 1. cbn [session_step].
  rewrite (receiveDrawingUpdate_array h payload xs Hx).
  cbn [dispatched omap list_omap setElements dispatch_all boardReducer].
  rewrite !result_bind_ok, commit_same_id.
  set (s1 := with_elements (boardState b) (VRef (length h))).
  set (h1 := h ++ [OArr (validElements h xs)]).
  set (b1 := if negb _ then _ else _).
  assert (Hb1 : boardState b1 = s1 ∧ isAuthorized b1 = true).
  { subst b1. destruct (negb _); [|done].
    destruct (syncRefEffect_fields (with_render b (id b) s1)) as (_ & -> & _ & ->).
    done. }
  destruct Hb1 as [Hs1 Hauth1].
  assert (Hel : array_of h1 (elements s1) = Some (validElements h xs)).
  { subst h1 s1. cbn [elements with_elements array_of]. by rewrite lookup_alloc. }
  exists h1, b1, ([setElements (VRef (length h))] ++ []). split; [done|]. rewrite Hs1.
  split; [done|]. split; [done|].
  unfold app_step. cbn [session_step]. unfold handleMouseMove.
  rewrite Hauth1. cbn [negb]. rewrite dispatched_app, dispatched_dispatch, Hs1.
  cbn [dispatched omap list_omap drawingUpdate]. rewrite app_nil_r.
  unfold boardMouseMoveHandler.
  change (toolActionType s1) with (toolActionType (boardState b)). rewrite Hmode.
  rewrite (bool_decide_eq_false_2
             (TOOL_ACTION_TYPES.DRAWING = TOOL_ACTION_TYPES.WRITING)) by done.
  rewrite bool_decide_eq_true_2 by done. cbn [dispatch_all].
  assert (Hp : h `prefix_of` h1) by (by eexists).
  assert (Hal : forallb (allocated h1) (validElements h xs) = true).
  { apply forallb_forall. intros el Hin. apply (allocated_ext h h1); [done|].
    pose proof (validElements_allocated h xs) as Hv.
    rewrite forallb_forall in Hv. by apply Hv. }
  assert (Hthrow := draw_move_other near h1 s1
                      (clientX event - left canvas) (clientY event - top canvas)
                      (validElements h xs) Hel Hal).
  unfold last_element in Hthrow. rewrite Hel in Hthrow.
  rewrite (type_of_ext h h1) in Hthrow;
    [|done|apply last_allocated, validElements_allocated].
  specialize (Hthrow Hlast).
  by destruct (boardReducer near h1 s1 _).
Qed.

(** The peer has cleared the canvas while a freehand stroke is drawn. *)
Lemma remote_update_mid_stroke_throws_witness :
  isAuthorized boardDrawing = true
  ∧ toolActionType (boardState boardDrawing) = TOOL_ACTION_TYPES.DRAWING
  ∧ array_of brushHeap (VRef 4) = Some []
  ∧ drawable_type (type_of brushHeap (List.last (validElements brushHeap []) VUndef)) = false
  ∧ ∃ h1 b1 out,
      app_step never_near noToolbox brushHeap boardDrawing (ReceiveDrawingUpdate (VRef 4))
      = Ok (h1, b1, out)
      ∧ throws (app_step never_near noToolbox h1 b1
                  (MouseMove (Some {| left := 0; top := 0 |})
                     {| clientX := 7; clientY := 8 |})) = true.
Proof.
  split; [reflexivity|]. split; [reflexivity|]. split; [reflexivity|].
  split; [reflexivity|].
  destruct (remote_update_mid_stroke_throws never_near noToolbox brushHeap boardDrawing
              (VRef 4) [] {| left := 0; top := 0 |} {| clientX := 7; clientY := 8 |}
              eq_refl eq_refl eq_refl eq_refl) as (h1 & b1 & out & H1 & _ & _ & H4).
  exists h1, b1, out. split; [exact H1|exact H4].
Defined.
